(** * benchcmp: a shallow embedding of main.go

    The program builds the benchmark binaries of two git revisions, runs the
    binaries both revisions have in an interleaved order and hands the two
    output files to benchstat.  This development embeds main.go function by
    function and proves the properties its specification states. *)

From Stdlib Require Import ZArith Lia.
From stdpp Require Import gmap strings list sorting.

Local Open Scope Z_scope.

(** ** Strings and sort.Strings *)

(** Go compares strings byte by byte; [String.le] is that order. *)
Definition nl : string := String (Ascii.ascii_of_nat 10) "".

(** sort.Strings sorts a slice in increasing order.  Equal strings cannot be
    told apart, so the result is the one sorted arrangement of the slice. *)
Definition sort_Strings (l : list string) : list string :=
  merge_sort String.le l.

(** bytes.Contains on strings: [sub] occurs somewhere in [s]. *)
Fixpoint bytes_Contains (s sub : string) : bool :=
  String.prefix sub s ||
  match s with
  | EmptyString => false
  | String _ s' => bytes_Contains s' sub
  end.

(** ** fileSet: map[string]struct{} used as a set *)

Abbreviation fileSet := (gset string).

(** A Go [range] over a map visits every key once, in an order the language
    leaves open.  The two loops over a fileSet are written over the sequence
    of keys the range yields; [range_of] says a sequence is such a visit. *)
Definition range_of (fs : fileSet) (keys : list string) : Prop :=
  keys ≡ₚ elements fs.

(** fileSet.sorted, with the order of the range made explicit. *)
Definition sorted_range (keys : list string) : list string :=
  sort_Strings (foldl (fun s t => s ++ [t]) [] keys).

Definition sorted (fs : fileSet) : list string :=
  sorted_range (elements fs).

(** The body of intersectTests on the two suites' sets. *)
Definition intersect_range (keys : list string) (b : fileSet) : fileSet :=
  foldl (fun acc f => if decide (f ∈ b) then {[f]} ∪ acc else acc) ∅ keys.

Definition intersect (a b : fileSet) : fileSet :=
  intersect_range (elements a) b.

(** ** Paths and the file system

    A path is the list of its components: filepath.Join of a directory and a
    name appends the name.  [path_string] is the slash-separated text that
    reaches a command line. *)

Abbreviation path := (list string).

Definition filepath_Join (dir : path) (name : string) : path := dir ++ [name].

Definition path_string (p : path) : string := String.concat "/" p.

Inductive node := File | Dir.

Global Instance node_eq_dec : EqDecision node.
Proof. solve_decision. Defined.

Abbreviation FS := (gmap path node).

(** ** Errors

    Go's error values, as far as the program tells them apart: the exit
    status of a child process, a failed system call with os.IsNotExist
    answered, errors.Errorf and errors.Wrap/Wrapf with their format and
    arguments kept apart, and errors raised by a collaborator. *)

Inductive error :=
| ExitError (code : Z) (stderr : string)
| PathError (op : string) (p : path) (notExist : bool)
| Errorf (format : string) (args : list string)
| Wrapf (cause : error) (format : string) (args : list string)
| ExtError (msg : string).

Definition os_IsNotExist (e : error) : bool :=
  match e with
  | PathError _ _ true => true
  | _ => false
  end.

(** The non-empty prefixes of a path, shortest first: the directories
    os.MkdirAll visits. *)
Fixpoint dirs_of (p : path) : list path :=
  match p with
  | [] => []
  | c :: p' => [c] :: map (cons c) (dirs_of p')
  end.

Definition is_file (fs : FS) (p : path) : bool :=
  bool_decide (fs !! p = Some File).

Definition is_dir (fs : FS) (p : path) : bool :=
  bool_decide (fs !! p = Some Dir).

(** os.Stat: the path exists; or a component of the path is a regular
    file, an error that os.IsNotExist does not accept (ENOTDIR); or the
    path does not exist, an error that os.IsNotExist accepts. *)
Definition fs_Stat (p : path) (fs : FS) : option error :=
  match fs !! p with
  | Some _ => None
  | None =>
      if existsb (is_file fs) (dirs_of p)
      then Some (PathError "stat" p false)
      else Some (PathError "stat" p true)
  end.

(** os.MkdirAll: fails when a component of the path is a regular file,
    otherwise every prefix becomes a directory. *)
Definition fs_MkdirAll (p : path) (fs : FS) : option error * FS :=
  if existsb (is_file fs) (dirs_of p)
  then (Some (PathError "mkdir" p false), fs)
  else (None, foldl (fun m q => <[q := Dir]> m) fs (dirs_of p)).

(** os.OpenFile with O_RDWR|O_CREATE: opens a regular file, creating it
    when its directory exists; a directory cannot be opened for writing. *)
Definition fs_OpenFile (p : path) (fs : FS) : option path * option error * FS :=
  match fs !! p with
  | Some File => (Some p, None, fs)
  | Some Dir => (None, Some (PathError "open" p false), fs)
  | None =>
      match p with
      | [] => (None, Some (PathError "open" p true), fs)
      | [_] => (Some p, None, <[p := File]> fs)
      | _ =>
          if is_dir fs (removelast p)
          then (Some p, None, <[p := File]> fs)
          else (None, Some (PathError "open" p true), fs)
      end
  end.

(** The name of [k] inside directory [p], when [k] is an entry of [p]. *)
Fixpoint child_name (p k : path) : option string :=
  match p, k with
  | [], [n] => Some n
  | c :: p', d :: k' => if decide (c = d) then child_name p' k' else None
  | _, _ => None
  end.

(** os.FileInfo, as far as build reads it: Name() and IsDir(). *)
Definition FileInfo : Type := string * node.

Definition by_name (a b : FileInfo) : Prop := String.le a.1 b.1.

Global Instance by_name_dec : RelDecision by_name.
Proof. intros a b. unfold by_name. apply _. Defined.

Global Instance by_name_total : Total by_name.
Proof. intros a b. unfold by_name. apply (total String.le). Qed.

Definition dir_entries (p : path) (fs : FS) : list FileInfo :=
  omap (fun kn => (fun n => (n, kn.2)) <$> child_name p kn.1) (map_to_list fs).

(** ioutil.ReadDir: the entries of a directory, sorted by file name. *)
Definition fs_ReadDir (p : path) (fs : FS) : list FileInfo * option error :=
  match fs !! p with
  | Some Dir => (merge_sort by_name (dir_entries p fs), None)
  | Some File => ([], Some (PathError "readdir" p false))
  | None => ([], Some (PathError "open" p true))
  end.

(** os.RemoveAll: the path and everything below it are gone. *)
Definition fs_RemoveAll (p : path) (fs : FS) : FS :=
  filter (fun kn => ¬ p `prefix_of` kn.1) fs.

(** The directory [bd] is a cache of the tests [tests]: it is a directory
    and its entries are regular files with exactly these names. *)
Definition cache_of (bd : path) (fs : FS) (tests : gset string) : Prop :=
  fs !! bd = Some Dir ∧
  ∀ n, fs !! (bd ++ [n]) = if decide (n ∈ tests) then Some File else None.

(** ** Suites, events and the world *)

Record benchSuite := mkSuite {
  ref : string;
  artDir : path;
  outFile : option path;
  binDir : path;
  testFiles : fileSet;
}.

(** What the program does to the outside, in the order it does it. *)
Inductive Event :=
| EvStdout (text : string)
| EvStderr (text : string)
| EvFatal (e : error)
| EvSpinnerStart (prefix : string)
| EvSpinnerUpdate (suffix : string)
| EvSpinnerStop
| EvGetCurRef
| EvShortenRef (r : string)
| EvCheckValidRef (r : string)
| EvGetPrevRef (r : string)
| EvGetCurSymbolicRef
| EvCheckoutRef (r postChck : string)
| EvExpandPackages (pkgFilter : list string)
| EvBuildTestBin (pkg : string) (dst : path)
| EvCombinedOutput (bin : string) (args : list string)
| EvSpawnWith (out : option path) (args : list string)
| EvMkdirAll (p : path)
| EvOpenFile (p : path)
| EvStat (p : path)
| EvReadDir (p : path)
| EvRemoveAll (p : path)
| EvSeek (f : option path)
| EvClose (f : option path)
| EvNow
| EvGoogleNew
| EvCreateSheet (name : string)
| EvBenchstat (old new : option path).

(** The environment: the file system, and whatever else the collaborators
    read and change (the git repository, the clock, the child processes). *)
Record Env (Ext : Type) := mkEnv {
  env_fs : FS;
  env_ext : Ext;
}.
Arguments mkEnv {Ext} _ _.
Arguments env_fs {Ext} _.
Arguments env_ext {Ext} _.

(** A *benchSuite is an address in the heap of suites. *)
Definition ptr := nat.

Record World (Ext : Type) := mkWorld {
  w_env : Env Ext;
  w_heap : gmap ptr benchSuite;
}.
Arguments mkWorld {Ext} _ _.
Arguments w_env {Ext} _.
Arguments w_heap {Ext} _.

Inductive Outcome (A : Type) :=
| Ret (a : A)
| Panic (msg : string).
Arguments Ret {A} _.
Arguments Panic {A} _.

(** A Go function: from a world to its outcome, the world it leaves and the
    events it caused. *)
Definition M (Ext A : Type) : Type :=
  World Ext → Outcome A * World Ext * list Event.

Section Monad.
Context {Ext : Type}.

Definition ret {A} (a : A) : M Ext A := fun w => (Ret a, w, []).

(** The events [t] happened before the run that ended in [r]. *)
Definition pre {A} (t : list Event) (r : Outcome A * World Ext * list Event)
  : Outcome A * World Ext * list Event :=
  match r with
  | (o, w, t2) => (o, w, t ++ t2)
  end.

Definition bind {A B} (m : M Ext A) (k : A → M Ext B) : M Ext B :=
  fun w =>
    match m w with
    | (Ret a, w1, t1) => pre t1 (k a w1)
    | (Panic msg, w1, t1) => (Panic msg, w1, t1)
    end.

Definition panic {A} (msg : string) : M Ext A := fun w => (Panic msg, w, []).

Definition emit (e : Event) : M Ext unit := fun w => (Ret tt, w, [e]).

(** A call of a collaborator: it reads and changes the environment and
    leaves one event. *)
Definition call {A} (e : Event) (f : Env Ext → A * Env Ext) : M Ext A :=
  fun w =>
    match f (w_env w) with
    | (a, env') => (Ret a, mkWorld env' (w_heap w), [e])
    end.

(** A system call on the file system. *)
Definition syscall {A} (e : Event) (f : FS → A * FS) : M Ext A :=
  call e (fun env =>
            match f (env_fs env) with
            | (a, fs') => (a, mkEnv fs' (env_ext env))
            end).

(** Reading through a *benchSuite; a nil pointer panics. *)
Definition load (p : ptr) : M Ext benchSuite :=
  fun w =>
    match w_heap w !! p with
    | Some s => (Ret s, w, [])
    | None => (Panic "invalid memory address or nil pointer dereference", w, [])
    end.

(** Writing through a *benchSuite. *)
Definition modify (p : ptr) (f : benchSuite → benchSuite) : M Ext unit :=
  fun w =>
    match w_heap w !! p with
    | Some s => (Ret tt, mkWorld (w_env w) (<[p := f s]> (w_heap w)), [])
    | None => (Panic "invalid memory address or nil pointer dereference", w, [])
    end.

(** A local variable whose address is taken. *)
Definition alloc (s : benchSuite) : M Ext ptr :=
  fun w =>
    let p := fresh (dom (w_heap w)) in
    (Ret p, mkWorld (w_env w) (<[p := s]> (w_heap w)), []).

(** [defer d body]: [body] is the rest of the function after the defer
    statement; [d] runs when it returns or panics and is given the
    outcome, which is how a deferred closure reads a named result. *)
Definition defer {A} (d : Outcome A → M Ext unit) (body : M Ext A) : M Ext A :=
  fun w =>
    match body w with
    | (o, w1, t1) =>
        match d o w1 with
        | (Ret _, w2, t2) => (o, w2, t1 ++ t2)
        | (Panic msg, w2, t2) => (Panic msg, w2, t1 ++ t2)
        end
    end.

(** The outcome, the world and the events of a finished run. *)
Definition outcome_of {A} (r : Outcome A * World Ext * list Event) : Outcome A := r.1.1.
Definition world_of {A} (r : Outcome A * World Ext * list Event) : World Ext := r.1.2.
Definition events_of {A} (r : Outcome A * World Ext * list Event) : list Event := r.2.
End Monad.

Notation "'let!' x ':=' m 'in' k" := (bind m (fun x => k))
  (at level 200, x name, m at level 100, k at level 200, right associativity).
Notation "'let!' ' pat ':=' m 'in' k" := (bind m (fun x => match x with pat => k end))
  (at level 200, pat pattern, m at level 100, k at level 200, right associativity).
Notation "m ';;' k" := (bind m (fun _ => k))
  (at level 100, k at level 200, right associativity).

(** ** The collaborators

    main.go calls functions of the same package that live in other files,
    and a few libraries.  They are taken as given: each is a function on the
    environment whose result main.go inspects. *)

Class Collaborators (Ext : Type) := {
  (** an opened Google service; benchstat's tables *)
  Service : Type;
  Tables : Type;
  (** git queries and actions *)
  getCurRef : Env Ext → (string * option error) * Env Ext;
  shortenRef : string → Env Ext → string * Env Ext;
  checkValidRef : string → Env Ext → (bool * option error) * Env Ext;
  getPrevRef : string → Env Ext → (string * option error) * Env Ext;
  getCurSymbolicRef : Env Ext → (string * bool * option error) * Env Ext;
  checkoutRef : string → string → Env Ext → option error * Env Ext;
  (** go list and go test -c *)
  expandPackages : list string → Env Ext → (list string * option error) * Env Ext;
  buildTestBin : string → path → Env Ext → (string * bool * option error) * Env Ext;
  testBinToPkg : string → string;
  (** the hash in the name of the binary directory *)
  hashPkgs : list string → string;
  (** child processes *)
  exec_CombinedOutput : string → list string → Env Ext → string * Env Ext;
  spawnWith : option path → list string → Env Ext → option error * Env Ext;
  (** time, progress display, benchstat, Google sheets *)
  time_Now : Env Ext → Z * Env Ext;
  time_Format : string → Z → string;
  ui_Fraction : Z → Z → string;
  google_New : Env Ext → (option Service * option error) * Env Ext;
  srv_CreateSheet : Service → string → Tables → Env Ext → (string * option error) * Env Ext;
  benchstat_Tables : option path → option path → Env Ext → Tables * Env Ext;
  benchstat_FormatText : Tables → string;
}.

(** ** main.go *)

Definition usage : string :=
  "usage: benchcmp [--old <commit>] [--new <commit>] <pkgs>...".

Definition helpString : string :=
"benchcmp automates the process of running and comparing Go microbenchmarks
across code changes.

benchcmp runs all microbenchmarks in the specified packages against the old and
new commit. It then passes the benchmark output through benchstat to compute
statistics about the results.

By default, benchcmp outputs these results in a textual format. However, if the
--sheets flag is passed then it will upload the result to a Google Sheets
spreadsheet. To access this, users must have a Google service account. For
information, see https://cloud.google.com/iam/docs/service-accounts.

The Google service account must meet the following conditions:
1. The Google Sheets API must be enabled for the account's project
2. The Google Drive  API must be enabled for the account's project

When the --sheets flag is passed, benchcmp will search for a credentials file
containing the service account key using the GOOGLE_APPLICATION_CREDENTIALS
environment variable. See https://cloud.google.com/docs/authentication/production.

Options:
  -n, --new    <commit> measure the difference between this commit and old (default HEAD)
  -o, --old    <commit> measure the difference between this commit and new (default new~)
  -c, --count  <n>      run tests and benchmarks n times (default 1)
      --post-checkout   an optional command to run after checking out each branch
                        to configure the git repo so that 'go build' succeeds
      --sheets          output the results to a new Google sheets document
      --help            display this help

Example invocations:
  $ benchcmp --sheets ./pkg/...
  $ benchcmp --old=master~ --new=master ./pkg/kv ./pkg/storage/...
  $ benchcmp --new=d1fbdb2 --count=2 ./pkg/sql/...
  $ benchcmp --new=6299bd4 --sheets --post-checkout='make buildshort' ./pkg/workload/...".

(** The flags and arguments as pflag.Parse leaves them. *)
Record Flags := mkFlags {
  help : bool;
  useSheets : bool;
  oldRef : string;
  newRef : string;
  postChck : string;
  itersPerTest : Z;
  prArgs : list string;
}.

Definition makeBenchSuite (r : string) : benchSuite :=
  {| ref := r; artDir := []; outFile := None; binDir := []; testFiles := ∅ |}.

Definition set_artDir (d : path) (s : benchSuite) : benchSuite :=
  {| ref := ref s; artDir := d; outFile := outFile s; binDir := binDir s;
     testFiles := testFiles s |}.

Definition set_outFile (f : option path) (s : benchSuite) : benchSuite :=
  {| ref := ref s; artDir := artDir s; outFile := f; binDir := binDir s;
     testFiles := testFiles s |}.

Definition set_binDir (d : path) (s : benchSuite) : benchSuite :=
  {| ref := ref s; artDir := artDir s; outFile := outFile s; binDir := d;
     testFiles := testFiles s |}.

(** bs.testFiles[name] = struct{}{} *)
Definition add_testFile (name : string) (s : benchSuite) : benchSuite :=
  {| ref := ref s; artDir := artDir s; outFile := outFile s; binDir := binDir s;
     testFiles := {[name]} ∪ testFiles s |}.

Definition timeFormat : string := "2006-01-02T15_04_05Z07:00".

Section Program.
Context {Ext : Type} `{!Collaborators Ext}.

Local Notation M := (M Ext).

(** Modelled from the spec: testArtifactsDir is not in main.go.  The spec's
    file system layout and the comment at its call give
    ./benchcmp/<ref>/artifacts. *)
Definition testArtifactsDir (r : string) : path :=
  ["benchcmp"; r; "artifacts"].

(** Modelled from the spec: testBinDir is not in main.go.  The spec's file
    system layout and the comment at its call give
    ./benchcmp/<ref>/bin/<hash(pkgFilter)>; the hash is a collaborator. *)
Definition testBinDir (r : string) (pkgFilter : list string) : path :=
  ["benchcmp"; r; "bin"; hashPkgs pkgFilter].

Definition runHelp : M (option error) :=
  emit (EvStderr (usage +:+ nl)) ;;
  emit (EvStderr nl) ;;
  emit (EvStderr (helpString +:+ nl)) ;;
  ret None.

Definition parseGitRefs (oldRef newRef : string)
  : M (string * string * option error) :=
  let! '(newRef, err) :=
    (if bool_decide (newRef = "")
     then call EvGetCurRef getCurRef
     else ret (newRef, None)) in
  match err with
  | Some e => ret ("", "", Some e)
  | None =>
  let! newRef := call (EvShortenRef newRef) (shortenRef newRef) in
  let! '(ok, err) := call (EvCheckValidRef newRef) (checkValidRef newRef) in
  match err with
  | Some e => ret ("", "", Some e)
  | None =>
  if negb ok then ret ("", "", Some (Errorf "invalid git ref %q" [newRef])) else
  let! '(oldRef, err) :=
    (if bool_decide (oldRef = "")
     then call (EvGetPrevRef newRef) (getPrevRef newRef)
     else ret (oldRef, None)) in
  match err with
  | Some e => ret ("", "", Some e)
  | None =>
  let! oldRef := call (EvShortenRef oldRef) (shortenRef oldRef) in
  let! '(ok, err) := call (EvCheckValidRef oldRef) (checkValidRef oldRef) in
  match err with
  | Some e => ret ("", "", Some e)
  | None =>
  if negb ok then ret ("", "", Some (Errorf "invalid git ref %q" [oldRef])) else
  ret (oldRef, newRef, None)
  end end end end.

(** benchSuite.getOutputFile and benchSuite.getTestBinary, on the struct
    and through the pointer. *)
Definition outputFile_of (s : benchSuite) (t : Z) : path :=
  filepath_Join (artDir s) ("out." +:+ time_Format timeFormat t).

Definition testBinary_of (s : benchSuite) (bin : string) : string :=
  path_string (filepath_Join (binDir s) bin).

Definition getOutputFile (bs : ptr) (t : Z) : M path :=
  let! s := load bs in ret (outputFile_of s t).

Definition getTestBinary (bs : ptr) (bin : string) : M string :=
  let! s := load bs in ret (testBinary_of s bin).

(** The loop of build over the entries of an existing binary directory. *)
Fixpoint register_cached (bs : ptr) (files : list FileInfo) : M (option error) :=
  match files with
  | [] => ret None
  | f :: files' =>
      match f.2 with
      | Dir => ret (Some (Errorf "unexpected directory %q" [f.1]))
      | File => modify bs (add_testFile f.1) ;; register_cached bs files'
      end
  end.

(** The loop of build over the expanded packages; [i] is the index and
    [n] is len(pkgs). *)
Fixpoint build_pkgs (bs : ptr) (i n : Z) (pkgs : list string) : M (option error) :=
  match pkgs with
  | [] => ret None
  | pkg :: pkgs' =>
      emit (EvSpinnerUpdate (ui_Fraction i n)) ;;
      let! s := load bs in
      let! '(testBin, ok, err) :=
        call (EvBuildTestBin pkg (binDir s)) (buildTestBin pkg (binDir s)) in
      match err with
      | Some e => ret (Some e)
      | None =>
          (if ok : bool then modify bs (add_testFile testBin) else ret tt) ;;
          build_pkgs bs (i + 1) n pkgs'
      end
  end.

(** build from os.MkdirAll(bs.binDir) on: the binary directory does not
    exist yet.  The deferred closure reads the named result [err]. *)
Definition build_miss (bs : ptr) (pkgFilter : list string) (postChck : string)
  : M (option error) :=
  let! s := load bs in
  let! err := syscall (EvMkdirAll (binDir s)) (fs_MkdirAll (binDir s)) in
  match err with
  | Some e => ret (Some e)
  | None =>
  defer (fun o =>
           match o with
           | Ret (Some _) =>
               let! s := load bs in
               syscall (EvRemoveAll (binDir s))
                       (fun fs => (tt, fs_RemoveAll (binDir s) fs))
           | _ => ret tt
           end)
    (let! s := load bs in
     emit (EvStdout ("checking out '" +:+ ref s +:+ "'" +:+ nl)) ;;
     let! err := call (EvCheckoutRef (ref s) postChck) (checkoutRef (ref s) postChck) in
     match err with
     | Some e => ret (Some e)
     | None =>
     let! '(pkgs, err) := call (EvExpandPackages pkgFilter) (expandPackages pkgFilter) in
     match err with
     | Some e => ret (Some e)
     | None =>
     let! s := load bs in
     emit (EvSpinnerStart ("building benchmark binaries for '" +:+ ref s +:+ "'")) ;;
     defer (fun _ => emit EvSpinnerStop)
       (let n := Z.of_nat (length pkgs) in
        let! err := build_pkgs bs 0 n pkgs in
        match err with
        | Some e => ret (Some e)
        | None => emit (EvSpinnerUpdate (ui_Fraction n n)) ;; ret None
        end)
     end end)
  end.

Definition build (bs : ptr) (pkgFilter : list string) (postChck : string) (t : Z)
  : M (option error) :=
  let! s := load bs in
  if bool_decide (size (testFiles s) ≠ 0%nat)
  then panic "benchSuite already built"
  else
  modify bs (set_artDir (testArtifactsDir (ref s))) ;;
  let! s := load bs in
  let! err := syscall (EvMkdirAll (artDir s)) (fs_MkdirAll (artDir s)) in
  match err with
  | Some e => ret (Some e)
  | None =>
  let! outFileName := getOutputFile bs t in
  let! '(f, err) :=
    syscall (EvOpenFile outFileName)
            (fun fs => match fs_OpenFile outFileName fs with
                       | (f, err, fs') => ((f, err), fs')
                       end) in
  modify bs (set_outFile f) ;;
  match err with
  | Some e => ret (Some e)
  | None =>
  let! s := load bs in
  modify bs (set_binDir (testBinDir (ref s) pkgFilter)) ;;
  let! s := load bs in
  let! err := syscall (EvStat (binDir s)) (fun fs => (fs_Stat (binDir s) fs, fs)) in
  match err with
  | None =>
      emit (EvStdout ("test binaries already exist for '" +:+ ref s
                      +:+ "'; skipping build" +:+ nl)) ;;
      let! '(files, err) :=
        syscall (EvReadDir (binDir s)) (fun fs => (fs_ReadDir (binDir s) fs, fs)) in
      match err with
      | Some e => ret (Some e)
      | None => register_cached bs files
      end
  | Some e =>
      if negb (os_IsNotExist e)
      then ret (Some (Wrapf e "looking for test directory" []))
      else build_miss bs pkgFilter postChck
  end
  end end.

Fixpoint build_each (bss : list ptr) (pkgFilter : list string) (postChck : string)
         (now : Z) : M (option error) :=
  match bss with
  | [] => ret None
  | bs :: bss' =>
      let! err := build bs pkgFilter postChck now in
      match err with
      | Some e => ret (Some e)
      | None => build_each bss' pkgFilter postChck now
      end
  end.

(** buildBenches after the defer statement: the time is read and the
    suites are built in turn. *)
Definition build_all (pkgFilter : list string) (postChck : string)
           (bss : list ptr) : M (option error) :=
  let! now := call EvNow time_Now in
  build_each bss pkgFilter postChck now.

Definition buildBenches (pkgFilter : list string) (postChck : string)
           (bss : list ptr) : M (option error) :=
  let! '(r, ok, err) := call EvGetCurSymbolicRef getCurSymbolicRef in
  match err with
  | Some e => ret (Some e)
  | None =>
      if ok : bool
      then defer (fun _ => call (EvCheckoutRef r "") (checkoutRef r "") ;; ret tt)
                 (build_all pkgFilter postChck bss)
      else build_all pkgFilter postChck bss
  end.

(** fmt's %v of a []string. *)
Definition fmt_v (l : list string) : string :=
  "[" +:+ String.concat " " l +:+ "]".

(** The command line of the benchmark run. *)
Definition bench_args (bin : string) (hasLogToStderr : bool) : list string :=
  let args := [bin; "-test.run"; "-"; "-test.bench"; "."; "-test.benchmem"] in
  if hasLogToStderr then args ++ ["--logtostderr"; "NONE"] else args.

Definition runSingleBench (bs : ptr) (test : string) : M (option error) :=
  let! bin := getTestBinary bs test in
  let! out := call (EvCombinedOutput bin ["--help"])
                   (exec_CombinedOutput bin ["--help"]) in
  let hasLogToStderr := bytes_Contains out "logtostderr" in
  let args := bench_args bin hasLogToStderr in
  let! s := load bs in
  let! err := call (EvSpawnWith (outFile s) args) (spawnWith (outFile s) args) in
  match err with
  | Some (ExitError code stderr) =>
      if code =? 1
      then emit (EvStdout ("  saw one or more benchmark failures" +:+ nl)) ;; ret None
      else ret (Some (Wrapf (ExitError code stderr) "error running %v: %s"
                            [fmt_v args; stderr]))
  | Some e => ret (Some (Wrapf e "error running %v" [fmt_v args]))
  | None => ret None
  end.

Definition runbenchcmp (bs1 bs2 : ptr) (test : string) : M (option error) :=
  let! err := runSingleBench bs1 test in
  match err with
  | Some e => ret (Some e)
  | None => runSingleBench bs2 test
  end.

(** The inner loop of runbenchcmpes: [j] is the counter and [todo] the
    number of iterations left, itersPerTest - j. *)
Fixpoint run_iters (bs1 bs2 : ptr) (t pkg pkgFrac : string) (itersPerTest j : Z)
         (todo : nat) : M (option error) :=
  match todo with
  | O => ret None
  | S todo' =>
      let iterFrac := ui_Fraction (j + 1) itersPerTest in
      emit (EvSpinnerUpdate (" pkg=" +:+ pkgFrac +:+ " iter=" +:+ iterFrac
                             +:+ " " +:+ pkg)) ;;
      let! err := runSingleBench bs1 t in
      match err with
      | Some e => ret (Some e)
      | None =>
      let! err := runSingleBench bs2 t in
      match err with
      | Some e => ret (Some e)
      | None => run_iters bs1 bs2 t pkg pkgFrac itersPerTest (j + 1) todo'
      end end
  end.

(** The outer loop: [i] is the index of the test and [n] is len(tests). *)
Fixpoint run_tests (bs1 bs2 : ptr) (n itersPerTest i : Z) (tests : list string)
  : M (option error) :=
  match tests with
  | [] => ret None
  | t :: tests' =>
      let pkg := testBinToPkg t in
      let! err := run_iters bs1 bs2 t pkg (ui_Fraction (i + 1) n) itersPerTest 0
                            (Z.to_nat itersPerTest) in
      match err with
      | Some e => ret (Some e)
      | None => emit (EvStdout nl) ;; run_tests bs1 bs2 n itersPerTest (i + 1) tests'
      end
  end.

Definition runbenchcmpes (bs1 bs2 : ptr) (tests : list string) (itersPerTest : Z)
  : M (option error) :=
  emit (EvStdout (nl +:+ "running benchmarks:" +:+ nl)) ;;
  emit (EvSpinnerStart "") ;;
  defer (fun _ => emit EvSpinnerStop)
    (run_tests bs1 bs2 (Z.of_nat (length tests)) itersPerTest 0 tests).

Definition processBenchOutput (bs1 bs2 : ptr) (pkgFilter : list string)
           (srv : option Service) : M (option error) :=
  let! s1 := load bs1 in
  emit (EvSeek (outFile s1)) ;;
  let! s2 := load bs2 in
  emit (EvSeek (outFile s2)) ;;
  let! tables := call (EvBenchstat (outFile s1) (outFile s2))
                      (benchstat_Tables (outFile s1) (outFile s2)) in
  match srv with
  | Some srv =>
      let name := "benchcmp: " +:+ String.concat " " pkgFilter
                  +:+ " (" +:+ ref s1 +:+ " -> " +:+ ref s2 +:+ ")" in
      let! '(url, err) := call (EvCreateSheet name) (srv_CreateSheet srv name tables) in
      match err with
      | Some e => ret (Some e)
      | None => emit (EvStdout ("generated sheet: " +:+ url +:+ nl)) ;; ret None
      end
  | None =>
      emit (EvStdout (benchstat_FormatText tables)) ;;
      ret None
  end.

Definition close (bs : ptr) : M unit :=
  let! s := load bs in emit (EvClose (outFile s)).

Definition intersectTests (bs bs2 : ptr) : M fileSet :=
  let! s := load bs in
  let! s2 := load bs2 in
  ret (intersect (testFiles s) (testFiles s2)).

Definition run (fl : Flags) : M (option error) :=
  if help fl then runHelp else
  if bool_decide (length (prArgs fl) = 0%nat) then runHelp else
  let pkgFilter := sort_Strings (prArgs fl) in
  let! '(oldRef, newRef, err) := parseGitRefs (oldRef fl) (newRef fl) in
  match err with
  | Some e => ret (Some e)
  | None =>
  let! '(srv, err) :=
    (if useSheets fl then call EvGoogleNew google_New else ret (None, None)) in
  match err with
  | Some e => ret (Some e)
  | None =>
  let! oldSuite := alloc (makeBenchSuite oldRef) in
  let! newSuite := alloc (makeBenchSuite newRef) in
  defer (fun _ => close oldSuite)
    (defer (fun _ => close newSuite)
       (let! err := buildBenches pkgFilter (postChck fl) [oldSuite; newSuite] in
        match err with
        | Some e => ret (Some e)
        | None =>
        let! tests := intersectTests oldSuite newSuite in
        let! err := runbenchcmpes oldSuite newSuite (sorted tests) (itersPerTest fl) in
        match err with
        | Some e => ret (Some e)
        | None => processBenchOutput oldSuite newSuite pkgFilter srv
        end end))
  end end.

(** main: the exit status of the process, 0 unless os.Exit(1) is reached;
    a panic that reaches the top ends the process with status 2. *)
Definition main (fl : Flags) (w : World Ext) : Z * World Ext * list Event :=
  match run fl w with
  | (Ret None, w', t) => (0, w', t)
  | (Ret (Some e), w', t) => (1, w', t ++ [EvFatal e])
  | (Panic _, w', t) => (2, w', t)
  end.
(** ** What the claims speak of *)

(** One execution of a suite's benchmark binary for a test: the output file
    of the suite and the binary that ran. *)
Definition run_of (s : benchSuite) (test : string) : option path * string :=
  (outFile s, testBinary_of s test).

(** The benchmark runs among the events: the calls of spawnWith. *)
Definition bench_run (e : Event) : option (option path * string) :=
  match e with
  | EvSpawnWith out (bin :: _) => Some (out, bin)
  | _ => None
  end.

Definition bench_runs (T : list Event) : list (option path * string) :=
  omap bench_run T.

(** [n] iterations of one test: old, new, old, new, ... *)
Definition iter_runs (old new : benchSuite) (test : string) (n : nat)
  : list (option path * string) :=
  mjoin (replicate n [run_of old test; run_of new test]).

(** The interleaved schedule of a comparison. *)
Definition schedule (old new : benchSuite) (tests : list string) (n : nat)
  : list (option path * string) :=
  mjoin ((fun t => iter_runs old new t n) <$> tests).

(** No benchmark binary ends in a fatal way: spawnWith returns nil or an
    exit status of 1. *)
Definition spawn_benign : Prop :=
  ∀ out args env,
    match (spawnWith out args env).1 with
    | None => True
    | Some (ExitError code _) => code = 1
    | Some _ => False
    end.

(** What a loop of the runner leaves behind when [sched] is what it was to
    run: it returns, the benchmark runs are the first runs of [sched] and
    all of them when it returns nil, an error comes right after the run that
    failed, and there is none when no binary ends in a fatal way. *)
Definition loop_post (sched : list (option path * string))
    (o : Outcome (option error)) (T : list Event) : Prop :=
  ∃ r, o = Ret r ∧
       bench_runs T `prefix_of` sched ∧
       (r = None → bench_runs T = sched) ∧
       (∀ e, r = Some e → ∃ T0 out args, T = T0 ++ [EvSpawnWith out args]) ∧
       (spawn_benign → r = None).

(** The steps of a rebuild: a checkout (with its hook), the expansion of
    the packages, the compilation of a package. *)
Definition is_build_step (e : Event) : Prop :=
  match e with
  | EvCheckoutRef _ _ | EvExpandPackages _ | EvBuildTestBin _ _ => True
  | _ => False
  end.

(** The questions parseGitRefs asks the repository. *)
Definition is_ref_query (e : Event) : Prop :=
  match e with
  | EvGetCurRef | EvShortenRef _ | EvCheckValidRef _ | EvGetPrevRef _ => True
  | _ => False
  end.

(** What spawnWith answers to the run of a suite's binary for a test, after
    the probe of the binary with --help, and the environment it leaves. *)
Definition spawn_of (s : benchSuite) (test : string) (env : Env Ext)
  : option error * Env Ext :=
  let bin := testBinary_of s test in
  let pr := exec_CombinedOutput bin ["--help"] env in
  spawnWith (outFile s) (bench_args bin (bytes_Contains pr.1 "logtostderr")) pr.2.

(** An answer of spawnWith that is fatal: an exit status other than 1, or a
    failure that is no exit status. *)
Definition fatal (r : option error) : bool :=
  match r with
  | None => false
  | Some (ExitError code _) => negb (code =? 1)
  | Some _ => true
  end.

(** The runs [sched] of a comparison, each asked in the environment the one
    before has left, up to the first with a fatal answer: the runs made,
    whether the last one was fatal, and the environment after it. *)
Fixpoint comparison (sched : list (benchSuite * string)) (env : Env Ext)
  : list (benchSuite * string) * bool * Env Ext :=
  match sched with
  | [] => ([], false, env)
  | (s, t) :: rest =>
      if fatal (spawn_of s t env).1
      then ([(s, t)], true, (spawn_of s t env).2)
      else match comparison rest (spawn_of s t env).2 with
           | (made, ab, env') => ((s, t) :: made, ab, env')
           end
  end.

(** The interleaved schedule, as suites and tests. *)
Definition pairs_of (old new : benchSuite) (tests : list string) (n : nat)
  : list (benchSuite * string) :=
  mjoin ((fun t => mjoin (replicate n [(old, t); (new, t)])) <$> tests).

(** A loop of the runner that was to make the runs [sched] from the
    environment [env] has stopped at the first fatal answer: its benchmark
    runs [runs] are those up to that answer, it has returned an error if
    there was one and nil otherwise, and [env'] is the environment after
    the last run. *)
Definition stops_at_first_fatal (sched : list (benchSuite * string))
    (env : Env Ext) (o : Outcome (option error)) (env' : Env Ext)
    (runs : list (option path * string)) : Prop :=
  match comparison sched env with
  | (made, ab, env1) =>
      runs = (fun st => run_of st.1 st.2) <$> made ∧ env' = env1 ∧
      if ab : bool then ∃ e, o = Ret (Some e) else o = Ret None
  end.

(** What a rebuild needs of its collaborators for the directory [dst] to
    be a cache afterwards: the checkout with its hook and the expansion of
    the packages leave [dst] and all below it as they are, and a
    compilation into [dst] that succeeds leaves [dst] a directory as it
    is, writes the binary it names when it reports one, and changes no
    other entry of [dst]. *)
Definition cache_contract (dst : path) : Prop :=
  (∀ r postChck env q,
     dst `prefix_of` q →
     env_fs (checkoutRef r postChck env).2 !! q = env_fs env !! q) ∧
  (∀ pkgFilter env q,
     dst `prefix_of` q →
     env_fs (expandPackages pkgFilter env).2 !! q = env_fs env !! q) ∧
  (∀ pkg env testBin ok env',
     buildTestBin pkg dst env = (testBin, ok, None, env') →
     env_fs env' !! dst = env_fs env !! dst ∧
     (ok = true → env_fs env' !! (dst ++ [testBin]) = Some File) ∧
     (∀ n, n ≠ testBin ∨ ok = false →
           env_fs env' !! (dst ++ [n]) = env_fs env !! (dst ++ [n]))).

(** What the collaborators answer to the compilations of a rebuild, asked
    one package after the other in the environment the one before has
    left, up to the first error: that error, if any, and the environment
    after the last answer. *)
Fixpoint compile_all (dst : path) (pkgs : list string) (env : Env Ext)
  : option error * Env Ext :=
  match pkgs with
  | [] => (None, env)
  | pkg :: pkgs' =>
      match buildTestBin pkg dst env with
      | (_, _, Some e, env') => (Some e, env')
      | (_, _, None, env') => compile_all dst pkgs' env'
      end
  end.

(** What the collaborators answer to the steps of a rebuild that follow the
    creation of the binary directory: the checkout with its hook, the
    expansion of the packages, the compilations; up to the first error. *)
Definition rebuild_steps (r postChck : string) (pkgFilter : list string)
    (dst : path) (env : Env Ext) : option error * Env Ext :=
  match checkoutRef r postChck env with
  | (Some e, env1) => (Some e, env1)
  | (None, env1) =>
      match expandPackages pkgFilter env1 with
      | (_, Some e, env2) => (Some e, env2)
      | (pkgs, None, env2) => compile_all dst pkgs env2
      end
  end.

End Program.

(** ** A small concrete environment

    One instance of the collaborators, used to run the embedding on concrete
    inputs: a repository with a current revision and maybe a branch, a list
    of valid refs, packages that fail to compile or have no benchmarks, and
    the exit status of each benchmark binary. *)

Record Toy := mkToy {
  toy_head : string;
  toy_branch : option string;
  toy_valid : list string;
  toy_broken : list string;
  toy_nobench : list string;
  toy_exit : list (string * Z);
  toy_missing : list string;
}.

Definition toy_checkout (r : string) (env : Env Toy) : option error * Env Toy :=
  let x := env_ext env in
  (None, mkEnv (env_fs env)
               (mkToy r None (toy_valid x) (toy_broken x) (toy_nobench x)
                      (toy_exit x) (toy_missing x))).

Definition toy_buildTestBin (pkg : string) (dst : path) (env : Env Toy)
  : (string * bool * option error) * Env Toy :=
  let x := env_ext env in
  if bool_decide (pkg ∈ toy_broken x)
  then (("", false, Some (ExtError "go test -c failed")), env)
  else if bool_decide (pkg ∈ toy_nobench x)
  then (("", false, None), env)
  else ((pkg, true, None),
        mkEnv (<[filepath_Join dst pkg := File]> (env_fs env)) x).

Fixpoint toy_lookup (bin : string) (l : list (string * Z)) : option Z :=
  match l with
  | [] => None
  | (b, c) :: l' => if bool_decide (b = bin) then Some c else toy_lookup bin l'
  end.

Definition toy_spawnWith (out : option path) (args : list string) (env : Env Toy)
  : option error * Env Toy :=
  let x := env_ext env in
  match args with
  | [] => (Some (ExtError "no command"), env)
  | bin :: _ =>
      if bool_decide (bin ∈ toy_missing x)
      then (Some (PathError "fork/exec" [bin] true), env)
      else match toy_lookup bin (toy_exit x) with
           | Some 0 | None => (None, env)
           | Some c => (Some (ExitError c ""), env)
           end
  end.

Global Instance toy_collaborators : Collaborators Toy := {|
  Service := unit;
  Tables := unit;
  getCurRef := fun env => ((toy_head (env_ext env), None), env);
  shortenRef := fun r env => (r, env);
  checkValidRef := fun r env => ((bool_decide (r ∈ toy_valid (env_ext env)), None), env);
  getPrevRef := fun r env => ((r +:+ "~", None), env);
  getCurSymbolicRef := fun env =>
    match toy_branch (env_ext env) with
    | Some b => ((b, true, None), env)
    | None => (("", false, None), env)
    end;
  checkoutRef := fun r _ env => toy_checkout r env;
  expandPackages := fun pkgs env => ((pkgs, None), env);
  buildTestBin := toy_buildTestBin;
  testBinToPkg := fun t => t;
  hashPkgs := String.concat ",";
  exec_CombinedOutput := fun _ _ env => ("", env);
  spawnWith := toy_spawnWith;
  time_Now := fun env => (0, env);
  time_Format := fun _ _ => "T";
  ui_Fraction := fun _ _ => "";
  google_New := fun env => ((Some tt, None), env);
  srv_CreateSheet := fun _ _ _ env => (("url", None), env);
  benchstat_Tables := fun _ _ env => (tt, env);
  benchstat_FormatText := fun _ => "";
|}.

Definition toy_ext : Toy :=
  mkToy "abc1234" (Some "master") ["abc1234"; "abc1234~"] [] [] [] [].

Definition toy_world (fs : FS) (x : Toy) (heap : gmap ptr benchSuite) : World Toy :=
  mkWorld (mkEnv fs x) heap.

(** Two test sets, as in the spec's example: {a, b} and {b, c}. *)
Definition set_ab : fileSet := {["a"]} ∪ {["b"]}.
Definition set_bc : fileSet := {["b"]} ∪ {["c"]}.

(** Two built suites and a world with both in the heap. *)
Definition toy_suite (r : string) (tests : fileSet) : benchSuite :=
  mkSuite r ["benchcmp"; r; "artifacts"]
          (Some ["benchcmp"; r; "artifacts"; "out.T"])
          ["benchcmp"; r; "bin"; "./pkg"] tests.

Definition toy_old : benchSuite := toy_suite "old1234" {["x"]}.
Definition toy_new : benchSuite := toy_suite "new5678" {["x"]}.

Definition toy_heap : gmap ptr benchSuite :=
  <[0%nat := toy_old]> (<[1%nat := toy_new]> ∅).

Definition toy_run_world (x : Toy) : World Toy := toy_world ∅ x toy_heap.

(** The old suite's binary for x ends with exit status 1, or with 2. *)
Definition toy_ext_exit (code : Z) : Toy :=
  mkToy "abc1234" (Some "master") ["abc1234"; "abc1234~"] [] []
        [("benchcmp/old1234/bin/./pkg/x", code)] [].

(** A fresh suite for a ref, alone in the heap. *)
Definition toy_fresh_world (fs : FS) (x : Toy) : World Toy :=
  toy_world fs x (<[0%nat := makeBenchSuite "abc1234"]> ∅).

(** The package ./pkg/b does not compile. *)
Definition toy_ext_broken : Toy :=
  mkToy "abc1234" (Some "master") ["abc1234"; "abc1234~"] ["./pkg/b"] [] [] [].

(** A file system with a cached binary directory holding two binaries. *)
Definition toy_cache_dir : path := ["benchcmp"; "abc1234"; "bin"; "./pkg/a,./pkg/b"].


(** A run of the program: one package, one iteration, no flags; the refs
    are the checked-out revision and its ancestor, and nothing is built
    yet. *)
Definition toy_flags : Flags := mkFlags false false "" "" "" 1 ["./pkg/a"].

Definition toy_empty_world : World Toy := toy_world ∅ toy_ext ∅.

(** Two fresh suites at different addresses. *)
Definition toy_two_fresh : World Toy :=
  toy_world ∅ toy_ext
    (<[0%nat := makeBenchSuite "abc1234~"]> (<[1%nat := makeBenchSuite "abc1234"]> ∅)).

(** A file system where the path of the binary directory is a regular file. *)
Definition toy_file_fs : FS := <[toy_cache_dir := File]> ∅.

(** ** Properties of a whole function

    [obeys P R m]: every event of a run of [m] satisfies [P], and the heap
    of suites it leaves is related by [R] to the heap it found. *)

Section Obeys.
Context {Ext : Type}.

Definition obeys {A : Type} (P : Event → Prop)
    (R : relation (gmap ptr benchSuite)) (m : M Ext A) : Prop :=
  ∀ w o w' T, m w = (o, w', T) → Forall P T ∧ R (w_heap w) (w_heap w').

(** The heap changes at most at [bs], and [bs] stays allocated. *)
Definition heap_only (bs : ptr) (h h' : gmap ptr benchSuite) : Prop :=
  (∀ p, p ≠ bs → h' !! p = h !! p) ∧ (is_Some (h !! bs) → is_Some (h' !! bs)).

(** Two values of a suite that differ at most in testFiles, which grew. *)
Definition same_paths (s s' : benchSuite) : Prop :=
  ref s' = ref s ∧ artDir s' = artDir s ∧ outFile s' = outFile s ∧
  binDir s' = binDir s ∧ testFiles s ⊆ testFiles s'.

(** The heap changes at most at [bs], where only testFiles grows. *)
Definition grows_at (bs : ptr) (h h' : gmap ptr benchSuite) : Prop :=
  (∀ p, p ≠ bs → h' !! p = h !! p) ∧
  (∀ s, h !! bs = Some s → ∃ s', h' !! bs = Some s' ∧ same_paths s s').
End Obeys.

(** The events of a build: system calls on the file system, messages and
    progress, the checkout, the expansion and the compilation. *)
Definition is_build_event (e : Event) : Prop :=
  match e with
  | EvMkdirAll _ | EvOpenFile _ | EvStat _ | EvReadDir _ | EvRemoveAll _
  | EvStdout _ | EvSpinnerStart _ | EvSpinnerUpdate _ | EvSpinnerStop
  | EvCheckoutRef _ _ | EvExpandPackages _ | EvBuildTestBin _ _ => True
  | _ => False
  end.

(** The events of the build phase: those of a build, the question for the
    symbolic ref and the reading of the clock. *)
Definition is_build_phase_event (e : Event) : Prop :=
  match e with
  | EvGetCurSymbolicRef | EvNow => True
  | _ => is_build_event e
  end.

(** The events of the runner: messages, progress and child processes. *)
Definition is_run_event (e : Event) : Prop :=
  match e with
  | EvStdout _ | EvSpinnerStart _ | EvSpinnerUpdate _ | EvSpinnerStop
  | EvCombinedOutput _ _ | EvSpawnWith _ _ => True
  | _ => False
  end.

(** The events of the report. *)
Definition is_report_event (e : Event) : Prop :=
  match e with
  | EvSeek _ | EvBenchstat _ _ | EvCreateSheet _ | EvStdout _ => True
  | _ => False
  end.

(** The compilations among the events: the packages given to buildTestBin. *)
Definition compiled (e : Event) : option string :=
  match e with
  | EvBuildTestBin pkg _ => Some pkg
  | _ => None
  end.

(** A compilation goes into the directory [dst]. *)
Definition into (dst : path) (e : Event) : Prop :=
  match e with
  | EvBuildTestBin _ d => d = dst
  | _ => True
  end.

(** The heap changes at most at [bs], where the suite keeps its ref. *)
Definition ref_kept (bs : ptr) (h h' : gmap ptr benchSuite) : Prop :=
  (∀ p, p ≠ bs → h' !! p = h !! p) ∧
  (∀ s, h !! bs = Some s → ∃ s', h' !! bs = Some s' ∧ ref s' = ref s).

Definition is_close_event (e : Event) : Prop :=
  match e with
  | EvClose _ => True
  | _ => False
  end.

Definition is_google_event (e : Event) : Prop :=
  match e with
  | EvGoogleNew => True
  | _ => False
  end.

Section Phases.
Context {Ext : Type} `{!Collaborators Ext}.

(** run between the two deferred closes and their execution: the build
    phase, the runner and the report. *)
Definition run_body (fl : Flags) (pkgFilter : list string) (srv : option Service)
    (oldSuite newSuite : ptr) : M Ext (option error) :=
  let! err := buildBenches pkgFilter (postChck fl) [oldSuite; newSuite] in
  match err with
  | Some e => ret (Some e)
  | None =>
  let! tests := intersectTests oldSuite newSuite in
  let! err := runbenchcmpes oldSuite newSuite (sorted tests) (itersPerTest fl) in
  match err with
  | Some e => ret (Some e)
  | None => processBenchOutput oldSuite newSuite pkgFilter srv
  end end.

(** run from the creation of the suites on. *)
Definition run_suites (fl : Flags) (pkgFilter : list string) (srv : option Service)
    (oldRef newRef : string) : M Ext (option error) :=
  let! oldSuite := alloc (makeBenchSuite oldRef) in
  let! newSuite := alloc (makeBenchSuite newRef) in
  defer (fun _ => close oldSuite)
    (defer (fun _ => close newSuite)
       (run_body fl pkgFilter srv oldSuite newSuite)).
End Phases.

Section Built.
Context {Ext : Type} `{!Collaborators Ext}.

(** The paths of a suite are those build sets for the ref [r], the package
    filter [pf] and some time of the build. *)
Definition built (pf : list string) (r : string) (s : benchSuite) : Prop :=
  ref s = r ∧
  artDir s = testArtifactsDir r ∧
  binDir s = testBinDir r pf ∧
  ∃ t, outFile s = Some (filepath_Join (testArtifactsDir r)
                           ("out." +:+ time_Format timeFormat t)).
End Built.

(** The events that reach the Google service. *)
Definition is_sheet_event (e : Event) : Prop :=
  match e with
  | EvGoogleNew | EvCreateSheet _ => True
  | _ => False
  end.

(** The event deletes nothing. *)
Definition keeps_files (e : Event) : Prop :=
  match e with
  | EvRemoveAll _ => False
  | _ => True
  end.

(** The event names one of the directories [dirs] where it names a binary
    directory: the look at a directory, the reading of one, the removal of
    one, and the directory a compilation goes into. *)
Definition at_cache (dirs : list path) (e : Event) : Prop :=
  match e with
  | EvStat p | EvReadDir p | EvRemoveAll p => p ∈ dirs
  | EvBuildTestBin _ d => d ∈ dirs
  | _ => True
  end.


(** * Proofs *)

(** ** Lemmas on sorting *)

Lemma foldl_snoc (acc keys : list string) :
  foldl (fun s t => s ++ [t]) acc keys = acc ++ keys.
Proof.
  revert acc. induction keys as [|k keys IH]; intros acc; simpl.
  - by rewrite app_nil_r.
  - rewrite IH. by rewrite <- app_assoc.
Qed.

Lemma sorted_range_eq keys : sorted_range keys = sort_Strings keys.
Proof. unfold sorted_range. by rewrite foldl_snoc. Qed.

Lemma sort_Strings_Sorted l : Sorted String.le (sort_Strings l).
Proof. apply (Sorted_merge_sort String.le). Qed.

Lemma sort_Strings_Permutation l : sort_Strings l ≡ₚ l.
Proof. apply merge_sort_Permutation. Qed.

Lemma sort_Strings_perm_eq l1 l2 :
  l1 ≡ₚ l2 → sort_Strings l1 = sort_Strings l2.
Proof.
  intros Hp. apply (Sorted_unique String.le); try apply sort_Strings_Sorted.
  by rewrite !sort_Strings_Permutation.
Qed.

Lemma intersect_range_elem (keys : list string) (b acc : fileSet) (f : string) :
  f ∈ foldl (fun acc f => if decide (f ∈ b) then {[f]} ∪ acc else acc) acc keys
  ↔ f ∈ acc ∨ (f ∈ keys ∧ f ∈ b).
Proof.
  revert acc. induction keys as [|k keys IH]; intros acc; simpl.
  - set_solver.
  - rewrite IH. case_decide; set_solver.
Qed.


Lemma pair_fst_eq {A B : Type} (p : A * B) (a : A) : p.1 = a → p = (a, p.2).
Proof. destruct p. simpl. by intros ->. Qed.

(** ** Running the monad *)

Section MonadLemmas.
Context {Ext : Type}.
Implicit Types w : World Ext.

Lemma pre_nil {A : Type} (r : Outcome A * World Ext * list Event) : pre [] r = r.
Proof. by destruct r as [[o w] t]. Qed.

Lemma pre_pre {A : Type} t1 t2 (r : Outcome A * World Ext * list Event) :
  pre t1 (pre t2 r) = pre (t1 ++ t2) r.
Proof. destruct r as [[o w] t]. simpl. by rewrite app_assoc. Qed.

Lemma pre_inv {A : Type} t (r : Outcome A * World Ext * list Event) o w' T :
  pre t r = (o, w', T) → ∃ t2, r = (o, w', t2) ∧ T = t ++ t2.
Proof. destruct r as [[o1 w1] t2]. simpl. intros [= -> -> <-]. eauto. Qed.

Lemma bind_ret {A B : Type} (a : A) (k : A → M Ext B) w : bind (ret a) k w = k a w.
Proof. unfold bind, ret. apply pre_nil. Qed.

Lemma bind_panic {A B : Type} msg (k : A → M Ext B) w :
  bind (panic msg) k w = (Panic msg, w, []).
Proof. reflexivity. Qed.

Lemma bind_emit {B : Type} (e : Event) (k : unit → M Ext B) w : bind (emit e) k w = pre [e] (k tt w).
Proof. reflexivity. Qed.

Lemma bind_call {A B : Type} (e : Event) (f : Env Ext → A * Env Ext) (k : A → M Ext B) w :
  bind (call e f) k w
  = pre [e] (k (f (w_env w)).1 (mkWorld (f (w_env w)).2 (w_heap w))).
Proof. unfold bind, call. by destruct (f (w_env w)). Qed.

Lemma bind_syscall {A B : Type} (e : Event) (f : FS → A * FS) (k : A → M Ext B) w :
  bind (syscall e f) k w
  = pre [e] (k (f (env_fs (w_env w))).1
               (mkWorld (mkEnv (f (env_fs (w_env w))).2 (env_ext (w_env w)))
                        (w_heap w))).
Proof.
  unfold syscall. rewrite bind_call. by destruct (f (env_fs (w_env w))).
Qed.

Lemma bind_load {B : Type} bs s (k : benchSuite → M Ext B) w :
  w_heap w !! bs = Some s → bind (load bs) k w = k s w.
Proof. intros Hs. unfold bind, load. rewrite Hs. apply pre_nil. Qed.

Lemma bind_load_nil {B : Type} bs (k : benchSuite → M Ext B) w :
  w_heap w !! bs = None →
  bind (load bs) k w
  = (Panic "invalid memory address or nil pointer dereference", w, []).
Proof. intros Hs. unfold bind, load. by rewrite Hs. Qed.

Lemma bind_modify {B : Type} bs s f (k : unit → M Ext B) w :
  w_heap w !! bs = Some s →
  bind (modify bs f) k w = k tt (mkWorld (w_env w) (<[bs := f s]> (w_heap w))).
Proof. intros Hs. unfold bind, modify. rewrite Hs. apply pre_nil. Qed.

Lemma bind_bind {A B C : Type} (m : M Ext A) (k : A → M Ext B) (k' : B → M Ext C) w :
  bind (bind m k) k' w = bind m (fun a => bind (k a) k') w.
Proof.
  unfold bind. destruct (m w) as [[[a|msg] w1] t1]; [|done].
  destruct (k a w1) as [[[b|msg] w2] t2]; simpl; [|done].
  by destruct (k' b w2) as [[o w3] t3]; simpl; rewrite app_assoc.
Qed.

Lemma bind_pre_inv {A B : Type} (m : M Ext A) (k : A → M Ext B) w o w' T :
  bind m k w = (o, w', T) →
  (∃ a w1 t1 t2, m w = (Ret a, w1, t1) ∧ k a w1 = (o, w', t2) ∧ T = t1 ++ t2) ∨
  (∃ msg, m w = (Panic msg, w', T) ∧ o = Panic msg).
Proof.
  unfold bind. destruct (m w) as [[[a|msg] w1] t1].
  - intros (t2 & Hk & ->)%pre_inv. left. eauto 10.
  - intros [= <- <- <-]. right. eauto.
Qed.
Lemma defer_inv {A : Type} (d : Outcome A → M Ext unit) (body : M Ext A)
    (w w' : World Ext) (o : Outcome A) (T : list Event) :
  defer d body w = (o, w', T) →
  ∃ o1 w1 t1 o2 t2,
    body w = (o1, w1, t1) ∧ d o1 w1 = (o2, w', t2) ∧ T = t1 ++ t2 ∧
    o = match o2 with Ret _ => o1 | Panic msg => Panic msg end.
Proof.
  unfold defer. destruct (body w) as [[o1 w1] t1].
  destruct (d o1 w1) as [[[u|msg] w2] t2] eqn:Hd; intros [= <- <- <-];
    eexists _, _, _, _, _; (split; [reflexivity|]); (split; [exact Hd|]); by split.
Qed.

Lemma run_eta {A : Type} (r : Outcome A * World Ext * list Event) :
  r = (outcome_of r, world_of r, events_of r).
Proof. by destruct r as [[o w] t]. Qed.

End MonadLemmas.

(** ** The test sets *)

Lemma intersect_range_spec (keys : list string) (a b : fileSet) (f : string) :
  range_of a keys → f ∈ intersect_range keys b ↔ f ∈ a ∧ f ∈ b.
Proof.
  unfold range_of, intersect_range. intros Hr.
  rewrite intersect_range_elem, Hr, elem_of_elements. set_solver.
Qed.

Lemma intersect_spec (a b : fileSet) : intersect a b = a ∩ b.
Proof.
  apply set_eq. intros f. unfold intersect.
  rewrite (intersect_range_spec _ a) by (by unfold range_of). set_solver.
Qed.

Lemma sorted_range_Permutation (fs : fileSet) (keys : list string) :
  range_of fs keys → sorted_range keys ≡ₚ elements fs.
Proof.
  unfold range_of. intros Hr.
  by rewrite sorted_range_eq, sort_Strings_Permutation.
Qed.

(** C5. The intersection of two test sets holds exactly the names that are in
    both, whatever order the range over the first set takes; the sorted
    sequence of a test set is in lexicographic order, has exactly the
    elements of the set, each once, and is the same for any two orders in
    which the set may be ranged over. *)
Theorem intersect_sorted_deterministic
    (a b : fileSet) (keys keys' : list string) :
  range_of a keys → range_of a keys' →
  (∀ f, f ∈ intersect_range keys b ↔ f ∈ a ∧ f ∈ b) ∧
  intersect_range keys b = intersect_range keys' b ∧
  Sorted String.le (sorted_range keys) ∧
  (∀ f, f ∈ sorted_range keys ↔ f ∈ a) ∧
  NoDup (sorted_range keys) ∧
  sorted_range keys = sorted_range keys'.
Proof.
  intros Hk Hk'. split_and!.
  - intros f. by apply intersect_range_spec.
  - apply set_eq. intros f.
    rewrite (intersect_range_spec keys a b f Hk).
    by rewrite (intersect_range_spec keys' a b f Hk').
  - rewrite sorted_range_eq. apply sort_Strings_Sorted.
  - intros f. rewrite (sorted_range_Permutation a) by done.
    apply elem_of_elements.
  - rewrite (sorted_range_Permutation a) by done. apply NoDup_elements.
  - rewrite !sorted_range_eq. apply sort_Strings_perm_eq.
    unfold range_of in *. by rewrite Hk, Hk'.
Qed.

(** ** The file system *)

Lemma child_name_Some (p k : path) (n : string) :
  child_name p k = Some n ↔ k = p ++ [n].
Proof.
  revert k. induction p as [|c p IH]; intros k.
  - destruct k as [|d [|d' k]]; simpl; naive_solver.
  - destruct k as [|d k]; simpl; [naive_solver|].
    case_decide; [|naive_solver]. subst. rewrite IH. naive_solver.
Qed.

Lemma elem_of_dir_entries (p : path) (fs : FS) (n : string) (nd : node) :
  (n, nd) ∈ dir_entries p fs ↔ fs !! (p ++ [n]) = Some nd.
Proof.
  unfold dir_entries. rewrite list_elem_of_omap. split.
  - intros ([k nd'] & Hin & Hf). apply elem_of_map_to_list in Hin.
    simpl in Hf. destruct (child_name p k) as [n'|] eqn:Hc; simplify_eq/=.
    apply child_name_Some in Hc. by subst.
  - intros Hl. exists (p ++ [n], nd). split.
    + by apply elem_of_map_to_list.
    + simpl. by rewrite (proj2 (child_name_Some p (p ++ [n]) n) eq_refl).
Qed.

Lemma fs_ReadDir_dir (p : path) (fs : FS) :
  fs !! p = Some Dir →
  ∃ files, fs_ReadDir p fs = (files, None) ∧
           ∀ n nd, (n, nd) ∈ files ↔ fs !! (p ++ [n]) = Some nd.
Proof.
  intros Hp. unfold fs_ReadDir. rewrite Hp. eexists. split; [done|].
  intros n nd. by rewrite merge_sort_Permutation, elem_of_dir_entries.
Qed.

Lemma lookup_foldl_Dir (l : list path) (fs : FS) (q : path) :
  foldl (fun m q => <[q := Dir]> m) fs l !! q
  = if decide (q ∈ l) then Some Dir else fs !! q.
Proof.
  revert fs. induction l as [|x l IH]; intros fs; cbn [foldl].
  - destruct (decide (q ∈ [])) as [Hn|Hn]; [by apply elem_of_nil in Hn|done].
  - rewrite IH. destruct (decide (q ∈ l)) as [Hl|Hl].
    + destruct (decide (q ∈ x :: l)) as [Hc|Hc]; [done|].
      exfalso. apply Hc. by apply elem_of_cons; right.
    + destruct (decide (x = q)) as [->|Hx].
      * rewrite lookup_insert_eq.
        destruct (decide (q ∈ q :: l)) as [Hc|Hc]; [done|].
        exfalso. apply Hc. by apply elem_of_cons; left.
      * rewrite lookup_insert_ne by done.
        destruct (decide (q ∈ x :: l)) as [Hc|Hc]; [|done].
        apply elem_of_cons in Hc. naive_solver.
Qed.

Lemma fs_MkdirAll_lookup (p q : path) (fs fs' : FS) err :
  fs_MkdirAll p fs = (err, fs') → q ∉ dirs_of p → fs' !! q = fs !! q.
Proof.
  unfold fs_MkdirAll. destruct (existsb _ _); intros [= <- <-] Hq; [done|].
  rewrite lookup_foldl_Dir. by case_decide.
Qed.

Lemma fs_MkdirAll_created (p : path) (fs fs' : FS) :
  fs_MkdirAll p fs = (None, fs') → p ≠ [] → fs' !! p = Some Dir.
Proof.
  unfold fs_MkdirAll. destruct (existsb _ _); intros [= <-] Hp.
  rewrite lookup_foldl_Dir. case_decide as Hin; [done|].
  exfalso. apply Hin. clear -Hp.
  induction p as [|c p IH]; [done|]. simpl.
  destruct p as [|d p]; [by apply elem_of_cons; left|].
  apply elem_of_cons; right. apply list_elem_of_fmap. exists (d :: p). split; [done|].
  by apply IH.
Qed.

Lemma fs_MkdirAll_failed (p : path) (fs fs' : FS) e :
  fs_MkdirAll p fs = (Some e, fs') → fs' = fs.
Proof. unfold fs_MkdirAll. by destruct (existsb _ _); intros [= <-]. Qed.

Lemma fs_OpenFile_lookup (p q : path) (fs fs' : FS) f err :
  fs_OpenFile p fs = (f, err, fs') → q ≠ p → fs' !! q = fs !! q.
Proof.
  unfold fs_OpenFile. intros H Hq.
  destruct (fs !! p) as [[|]|]; simplify_eq; try done.
  destruct p as [|c [|d p]]; simplify_eq; try done.
  - by rewrite lookup_insert_ne.
  - destruct (is_dir fs _); simplify_eq; [|done]. by rewrite lookup_insert_ne.
Qed.

Lemma fs_RemoveAll_below (p q : path) (fs : FS) :
  p `prefix_of` q → fs_RemoveAll p fs !! q = None.
Proof.
  intros Hpre. unfold fs_RemoveAll. apply map_lookup_filter_None. right.
  intros nd _ Hn. by apply Hn.
Qed.

Lemma fs_Stat_spec (p : path) (fs : FS) :
  match fs_Stat p fs with
  | None => is_Some (fs !! p)
  | Some e => fs !! p = None ∧
              os_IsNotExist e = negb (existsb (is_file fs) (dirs_of p))
  end.
Proof.
  unfold fs_Stat. destruct (fs !! p); [naive_solver|].
  by destruct (existsb _ _).
Qed.

(** Where os.Stat finds nothing, os.MkdirAll can make the directory. *)
Lemma fs_Stat_MkdirAll (p : path) (fs : FS) (e : error) :
  fs_Stat p fs = Some e → os_IsNotExist e = true →
  fs_MkdirAll p fs = (None, foldl (fun m q => <[q := Dir]> m) fs (dirs_of p)).
Proof.
  intros Hst He. pose proof (fs_Stat_spec p fs) as Hsp. rewrite Hst in Hsp.
  destruct Hsp as [_ Hsp]. rewrite He in Hsp. unfold fs_MkdirAll.
  by destruct (existsb _ _).
Qed.

Section Proofs.
Context {Ext : Type} `{!Collaborators Ext}.

(** ** The cache key and the help path *)


(** C10. Without positional arguments run prints the usage and the help text
    to the error stream and returns nil: nothing else happens, the world is
    as before, and main leaves with status 0. *)
Theorem run_without_packages_is_help
    (h s : bool) (o n p : string) (i : Z) (w : World Ext) :
  run (mkFlags h s o n p i []) w
  = (Ret None, w,
     [EvStderr (usage +:+ nl); EvStderr nl; EvStderr (helpString +:+ nl)]) ∧
  main (mkFlags h s o n p i []) w
  = (0, w, [EvStderr (usage +:+ nl); EvStderr nl; EvStderr (helpString +:+ nl)]).
Proof.
  assert (run (mkFlags h s o n p i []) w
          = (Ret None, w,
             [EvStderr (usage +:+ nl); EvStderr nl; EvStderr (helpString +:+ nl)]))
    as Hrun.
  { unfold run. cbn [help prArgs length].
    destruct h; [reflexivity|].
    rewrite bool_decide_eq_true_2 by reflexivity. reflexivity. }
  split; [exact Hrun|]. unfold main. rewrite Hrun. reflexivity.
Qed.

(** ** Running one benchmark binary *)

Lemma runSingleBench_unfold (bs : ptr) (s : benchSuite) (test : string) (w : World Ext) :
  w_heap w !! bs = Some s →
  let bin := testBinary_of s test in
  let pr := exec_CombinedOutput bin ["--help"] (w_env w) in
  let args := bench_args bin (bytes_Contains pr.1 "logtostderr") in
  let sp := spawnWith (outFile s) args pr.2 in
  let w' := mkWorld sp.2 (w_heap w) in
  let T := [EvCombinedOutput bin ["--help"]; EvSpawnWith (outFile s) args] in
  runSingleBench bs test w =
  match sp.1 with
  | Some (ExitError code stderr) =>
      if code =? 1
      then (Ret None, w', T ++ [EvStdout ("  saw one or more benchmark failures" +:+ nl)])
      else (Ret (Some (Wrapf (ExitError code stderr) "error running %v: %s"
                              [fmt_v args; stderr])), w', T)
  | Some e => (Ret (Some (Wrapf e "error running %v" [fmt_v args])), w', T)
  | None => (Ret None, w', T)
  end.
Proof.
  intros Hs. cbv zeta.
  unfold runSingleBench, getTestBinary.
  rewrite bind_bind, (bind_load _ s) by done.
  rewrite bind_ret, bind_call.
  rewrite (bind_load _ s) by done.
  rewrite bind_call. cbn [w_env w_heap].
  destruct (spawnWith _ _ _) as [[e|] env2]; cbn [fst snd].
  - destruct e; try reflexivity.
    destruct (code =? 1); reflexivity.
  - reflexivity.
Qed.

(** ** The interleaved runner *)

Lemma bench_runs_app T1 T2 : bench_runs (T1 ++ T2) = bench_runs T1 ++ bench_runs T2.
Proof. unfold bench_runs. apply omap_app. Qed.

(** What one call of runSingleBench leaves behind: the heap as it was, one
    benchmark run, an error only with that run as the last event, and no
    error at all when no binary ends in a fatal way. *)
Lemma runSingleBench_inv (bs : ptr) (s : benchSuite) (test : string)
    (w w' : World Ext) o T :
  w_heap w !! bs = Some s →
  runSingleBench bs test w = (o, w', T) →
  w_heap w' = w_heap w ∧
  bench_runs T = [run_of s test] ∧
  ∃ r, o = Ret r ∧
       (∀ e, r = Some e → ∃ T0 args, T = T0 ++ [EvSpawnWith (outFile s) args]) ∧
       (spawn_benign → r = None).
Proof.
  intros Hs. rewrite (runSingleBench_unfold bs s test w Hs). cbv zeta.
  set (bin := testBinary_of s test).
  set (pr := exec_CombinedOutput bin ["--help"] (w_env w)).
  set (args := bench_args bin (bytes_Contains pr.1 "logtostderr")).
  assert (HT : bench_runs [EvCombinedOutput bin ["--help"]; EvSpawnWith (outFile s) args]
               = [run_of s test]).
  { unfold args, bench_args. by destruct (bytes_Contains _ _). }
  assert (HT' : ∀ m, bench_runs ([EvCombinedOutput bin ["--help"];
                                   EvSpawnWith (outFile s) args] ++ [EvStdout m])
                     = [run_of s test]).
  { intros m. by rewrite bench_runs_app, HT. }
  pose proof (fun Hb : spawn_benign => Hb (outFile s) args pr.2) as Hben.
  destruct (spawnWith (outFile s) args pr.2) as [[e|] env2]; cbn [fst snd] in *.
  - destruct e as [code stderr| | | |];
      try (intros [= <- <- <-]; split; [done|]; split; [exact HT|];
           eexists; split; [done|]; split;
           [intros ? _; by eexists [_], _ | intros Hb; by destruct (Hben Hb)]).
    destruct (code =? 1) eqn:Hc; intros [= <- <- <-]; (split; [done|]).
    + split; [exact (HT' _)|].
      eexists; split; [done|]. split; done.
    + split; [exact HT|].
      eexists; split; [done|]. split.
      * intros ? _. by eexists [_], _.
      * intros Hb. apply Hben in Hb. by apply Z.eqb_neq in Hc.
  - intros [= <- <- <-]. split; [done|]. split; [exact HT|].
    eexists; split; [done|]. split; done.
Qed.

Lemma iter_runs_S (s1 s2 : benchSuite) (t : string) (n : nat) :
  iter_runs s1 s2 t (S n) = run_of s1 t :: run_of s2 t :: iter_runs s1 s2 t n.
Proof. reflexivity. Qed.

Lemma run_iters_inv (bs1 bs2 : ptr) (s1 s2 : benchSuite) (t pkg pkgFrac : string)
    (n j : Z) (todo : nat) (w w' : World Ext) o T :
  w_heap w !! bs1 = Some s1 → w_heap w !! bs2 = Some s2 →
  run_iters bs1 bs2 t pkg pkgFrac n j todo w = (o, w', T) →
  w_heap w' = w_heap w ∧ loop_post (iter_runs s1 s2 t todo) o T.
Proof.
  unfold loop_post. revert j w T o.
  induction todo as [|todo IH]; intros j w T o H1 H2 H.
  - injection H as <- <- <-. split; [done|].
    exists None. split_and!; try done.
  - cbn [run_iters] in H. rewrite bind_emit in H.
    apply pre_inv in H as (T1 & H & ->).
    rewrite bench_runs_app. change (bench_runs [EvSpinnerUpdate _]) with (@nil (option path * string)).
    rewrite iter_runs_S.
    apply bind_pre_inv in H as [(r1 & w1 & t1 & T2 & Ha & H & ->)|(msg & Ha & ->)].
    2: { apply (runSingleBench_inv _ s1) in Ha as (_ & _ & r & [=] & _); done. }
    apply (runSingleBench_inv _ s1) in Ha as (Hh1 & Hr1 & r & [= ->] & Hlast1 & Hb1);
      [|done].
    destruct r as [e|].
    { injection H as <- <- <-. split; [done|].
      exists (Some e). rewrite app_nil_r. split_and!; try done.
      - rewrite Hr1. by apply prefix_cons, prefix_nil.
      - intros e' _. destruct (Hlast1 e eq_refl) as (T0 & args & ->).
        exists ([EvSpinnerUpdate (" pkg=" +:+ pkgFrac +:+ " iter="
                  +:+ ui_Fraction (j + 1) n +:+ " " +:+ pkg)] ++ T0), (outFile s1), args.
        by rewrite <- app_assoc. }
    rewrite <- Hh1 in H1, H2.
    apply bind_pre_inv in H as [(r2 & w2 & t2 & T3 & Hb & H & ->)|(msg & Hb & ->)].
    2: { apply (runSingleBench_inv _ s2) in Hb as (_ & _ & r & [=] & _); done. }
    apply (runSingleBench_inv _ s2) in Hb as (Hh2 & Hr2 & r & [= ->] & Hlast2 & Hb2);
      [|done].
    rewrite !bench_runs_app, Hr1, Hr2. simpl.
    destruct r as [e|].
    { injection H as <- <- <-. split; [congruence|].
      exists (Some e). rewrite app_nil_r. split_and!; try done.
      - by apply prefix_cons, prefix_cons, prefix_nil.
      - intros e' _. destruct (Hlast2 e eq_refl) as (T0 & args & ->).
        exists ([EvSpinnerUpdate (" pkg=" +:+ pkgFrac +:+ " iter="
                  +:+ ui_Fraction (j + 1) n +:+ " " +:+ pkg)] ++ t1 ++ T0),
               (outFile s2), args.
        by rewrite <- !app_assoc. }
    rewrite <- Hh2 in H1, H2.
    apply IH in H as (Hh3 & r & -> & Hpre & Hall & Hlast & Hben); [|done..].
    split; [congruence|].
    exists r. split_and!; try done.
    + by apply prefix_cons, prefix_cons.
    + intros Hr. by rewrite (Hall Hr).
    + intros e He. destruct (Hlast e He) as (T0 & out & args & ->).
      exists ([EvSpinnerUpdate (" pkg=" +:+ pkgFrac +:+ " iter="
                +:+ ui_Fraction (j + 1) n +:+ " " +:+ pkg)] ++ t1 ++ t2 ++ T0), out, args.
      by rewrite <- !app_assoc.
Qed.

Lemma schedule_cons (s1 s2 : benchSuite) (t : string) (tests : list string) (n : nat) :
  schedule s1 s2 (t :: tests) n = iter_runs s1 s2 t n ++ schedule s1 s2 tests n.
Proof. reflexivity. Qed.

Lemma run_tests_inv (bs1 bs2 : ptr) (s1 s2 : benchSuite) (len n i : Z)
    (tests : list string) (w w' : World Ext) o T :
  w_heap w !! bs1 = Some s1 → w_heap w !! bs2 = Some s2 →
  run_tests bs1 bs2 len n i tests w = (o, w', T) →
  w_heap w' = w_heap w ∧ loop_post (schedule s1 s2 tests (Z.to_nat n)) o T.
Proof.
  revert i w T o.
  induction tests as [|t tests IH]; intros i w T o H1 H2 H.
  - injection H as <- <- <-. split; [done|].
    exists None. split_and!; done.
  - cbn [run_tests] in H. rewrite schedule_cons.
    apply bind_pre_inv in H as [(r1 & w1 & t1 & T2 & Ha & H & ->)|(msg & Ha & ->)].
    2: { apply (run_iters_inv _ _ s1 s2) in Ha as (_ & r & [=] & _); done. }
    apply (run_iters_inv _ _ s1 s2) in Ha
      as (Hh1 & r & [= ->] & Hpre1 & Hall1 & Hlast1 & Hb1); [|done..].
    destruct r as [e|].
    { injection H as <- <- <-. split; [done|].
      exists (Some e). rewrite app_nil_r. split_and!; try done.
      by apply prefix_app_r. }
    rewrite bind_emit in H. apply pre_inv in H as (T3 & H & ->).
    rewrite <- Hh1 in H1, H2.
    apply IH in H as (Hh3 & r & -> & Hpre & Hall & Hlast & Hben); [|done..].
    split; [congruence|].
    exists r. rewrite !bench_runs_app, (Hall1 eq_refl).
    change (bench_runs [EvStdout nl]) with (@nil (option path * string)).
    rewrite app_nil_l. split_and!; try done.
    + by apply prefix_app.
    + intros Hr. by rewrite (Hall Hr).
    + intros e He. destruct (Hlast e He) as (T0 & out & args & ->).
      exists (t1 ++ [EvStdout nl] ++ T0), out, args. by rewrite <- !app_assoc.
Qed.

(** The whole runner: the runs are a first part of the schedule, all of it
    when the runner returns nil; an error ends the runner right after the
    run that failed, with nothing but the stop of the progress display
    after it. *)
Lemma runbenchcmpes_inv (bs1 bs2 : ptr) (s1 s2 : benchSuite)
    (tests : list string) (n : Z) (w w' : World Ext) o T :
  w_heap w !! bs1 = Some s1 → w_heap w !! bs2 = Some s2 →
  runbenchcmpes bs1 bs2 tests n w = (o, w', T) →
  w_heap w' = w_heap w ∧
  ∃ r, o = Ret r ∧
       bench_runs T `prefix_of` schedule s1 s2 tests (Z.to_nat n) ∧
       (r = None → bench_runs T = schedule s1 s2 tests (Z.to_nat n)) ∧
       (∀ e, r = Some e →
             ∃ T0 out args, T = T0 ++ [EvSpawnWith out args; EvSpinnerStop]) ∧
       (spawn_benign → r = None).
Proof.
  intros H1 H2 H. unfold runbenchcmpes in H.
  rewrite !bind_emit in H. rewrite pre_pre in H.
  apply pre_inv in H as (T1 & H & ->). unfold defer in H.
  destruct (run_tests _ _ _ _ _ _ _) as [[o1 w1] t1] eqn:Hrun.
  cbn [emit] in H. injection H as <- <- <-.
  apply (run_tests_inv _ _ s1 s2) in Hrun
    as (Hh & r & -> & Hpre & Hall & Hlast & Hben); [|done..].
  split; [done|]. exists r.
  assert (Hruns : bench_runs (([EvStdout (nl +:+ "running benchmarks:" +:+ nl)]
                               ++ [EvSpinnerStart ""]) ++ t1 ++ [EvSpinnerStop])
                  = bench_runs t1).
  { rewrite !bench_runs_app. simpl. by rewrite app_nil_r. }
  rewrite Hruns. split_and!; try done.
  intros e He. destruct (Hlast e He) as (T0 & out & args & ->).
  exists ([EvStdout (nl +:+ "running benchmarks:" +:+ nl); EvSpinnerStart ""] ++ T0),
         out, args.
  by rewrite <- !app_assoc.
Qed.

(** ** The comparison stops at the first fatal run *)

Lemma runSingleBench_spawn (bs : ptr) (s : benchSuite) (test : string)
    (w w' : World Ext) o T :
  w_heap w !! bs = Some s →
  runSingleBench bs test w = (o, w', T) →
  w_heap w' = w_heap w ∧ w_env w' = (spawn_of s test (w_env w)).2 ∧
  bench_runs T = [run_of s test] ∧
  if fatal (spawn_of s test (w_env w)).1
  then ∃ e, o = Ret (Some e) else o = Ret None.
Proof.
  intros Hs H.
  pose proof (runSingleBench_inv _ _ _ _ _ _ _ Hs H) as (Hh & Hruns & _).
  rewrite (runSingleBench_unfold bs s test w Hs) in H. cbv zeta in H.
  unfold spawn_of.
  destruct (spawnWith _ _ _) as [[e|] env2]; cbn [fst snd fatal] in H |- *.
  - destruct e as [code stderr| | | |];
      try (injection H as <- <- <-; split_and!; try done; by eexists).
    destruct (code =? 1); injection H as <- <- <-; split_and!; try done.
    by eexists.
  - injection H as <- <- <-. by split_and!.
Qed.

Lemma stops_nil (env : Env Ext) :
  stops_at_first_fatal [] env (Ret None) env [].
Proof. by unfold stops_at_first_fatal. Qed.

(** One run and then the rest. *)
Lemma stops_cons (s : benchSuite) (t : string) (rest : list (benchSuite * string))
    (env : Env Ext) (o1 o : Outcome (option error)) (env' : Env Ext)
    (runs : list (option path * string)) :
  (if fatal (spawn_of s t env).1 then ∃ e, o1 = Ret (Some e) else o1 = Ret None) →
  (o1 ≠ Ret None → o = o1 ∧ env' = (spawn_of s t env).2 ∧ runs = []) →
  (o1 = Ret None → stops_at_first_fatal rest (spawn_of s t env).2 o env' runs) →
  stops_at_first_fatal ((s, t) :: rest) env o env' (run_of s t :: runs).
Proof.
  intros H1 Hbad Hok. unfold stops_at_first_fatal in *. cbn [comparison].
  destruct (fatal _).
  - destruct H1 as [e ->]. destruct Hbad as (-> & -> & ->); [done|].
    split_and!; try done. by exists e.
  - specialize (Hok H1).
    destruct (comparison rest _) as [[made ab] env1].
    destruct Hok as (-> & -> & Hab). by split_and!.
Qed.

(** A part of the schedule and then the rest. *)
Lemma stops_app (l1 l2 : list (benchSuite * string)) (env env1 env' : Env Ext)
    (o1 o : Outcome (option error)) (r1 r2 : list (option path * string)) :
  stops_at_first_fatal l1 env o1 env1 r1 →
  (o1 ≠ Ret None → o = o1 ∧ env' = env1 ∧ r2 = []) →
  (o1 = Ret None → stops_at_first_fatal l2 env1 o env' r2) →
  stops_at_first_fatal (l1 ++ l2) env o env' (r1 ++ r2).
Proof.
  revert env r1. induction l1 as [|[s t] l1 IH]; intros env r1 H1 Hbad Hok.
  - unfold stops_at_first_fatal in H1. cbn [comparison] in H1.
    destruct H1 as (-> & -> & ->). by apply Hok.
  - unfold stops_at_first_fatal in H1 |- *. cbn [comparison app] in H1 |- *.
    destruct (fatal _).
    + destruct H1 as (-> & -> & e & ->). destruct Hbad as (-> & -> & ->); [done|].
      split_and!; try done. by exists e.
    + specialize (IH (spawn_of s t env).2).
      unfold stops_at_first_fatal in IH.
      destruct (comparison l1 _) as [[made1 ab1] e1].
      destruct H1 as (-> & -> & Hab1).
      specialize (IH ((fun st => run_of st.1 st.2) <$> made1)
                     ltac:(by split_and!) Hbad Hok).
      destruct (comparison (l1 ++ l2) _) as [[made ab] e2].
      destruct IH as (Hr & -> & Hab). split_and!; try done.
      cbn [fmap list_fmap app fst snd]. by rewrite <- Hr.
Qed.

Lemma run_iters_stops (bs1 bs2 : ptr) (s1 s2 : benchSuite) (t pkg pkgFrac : string)
    (n j : Z) (todo : nat) (w w' : World Ext) o T :
  w_heap w !! bs1 = Some s1 → w_heap w !! bs2 = Some s2 →
  run_iters bs1 bs2 t pkg pkgFrac n j todo w = (o, w', T) →
  stops_at_first_fatal (mjoin (replicate todo [(s1, t); (s2, t)]))
                       (w_env w) o (w_env w') (bench_runs T).
Proof.
  revert j w T o.
  induction todo as [|todo IH]; intros j w T o H1 H2 H.
  - injection H as <- <- <-. apply stops_nil.
  - cbn [run_iters] in H. rewrite bind_emit in H.
    apply pre_inv in H as (T1 & H & ->).
    rewrite bench_runs_app.
    change (bench_runs [EvSpinnerUpdate _]) with (@nil (option path * string)).
    cbn [replicate mjoin list_join app].
    apply bind_pre_inv in H as [(r1 & w1 & t1 & T2 & Ha & H & ->)|(msg & Ha & ->)].
    2: { apply (runSingleBench_inv _ s1) in Ha as (_ & _ & r & [=] & _); done. }
    apply (runSingleBench_spawn _ s1) in Ha as (Hh1 & He1 & Hr1 & Hf1); [|done].
    rewrite bench_runs_app, Hr1. cbn [app].
    apply (stops_cons _ _ _ _ (Ret r1)); [done| |].
    { intros Hne. destruct r1 as [e|]; [|done]. by injection H as <- <- <-. }
    intros [= ->]. rewrite <- He1. rewrite <- Hh1 in H1, H2.
    apply bind_pre_inv in H as [(r2 & w2 & t2 & T3 & Hb & H & ->)|(msg & Hb & ->)].
    2: { apply (runSingleBench_inv _ s2) in Hb as (_ & _ & r & [=] & _); done. }
    apply (runSingleBench_spawn _ s2) in Hb as (Hh2 & He2 & Hr2 & Hf2); [|done].
    rewrite bench_runs_app, Hr2. cbn [app].
    apply (stops_cons _ _ _ _ (Ret r2)); [done| |].
    { intros Hne. destruct r2 as [e|]; [|done]. by injection H as <- <- <-. }
    intros [= ->]. rewrite <- He2. rewrite <- Hh2 in H1, H2.
    by apply IH in H.
Qed.

Lemma run_tests_stops (bs1 bs2 : ptr) (s1 s2 : benchSuite) (len n i : Z)
    (tests : list string) (w w' : World Ext) o T :
  w_heap w !! bs1 = Some s1 → w_heap w !! bs2 = Some s2 →
  run_tests bs1 bs2 len n i tests w = (o, w', T) →
  stops_at_first_fatal (pairs_of s1 s2 tests (Z.to_nat n))
                       (w_env w) o (w_env w') (bench_runs T).
Proof.
  revert i w T o.
  induction tests as [|t tests IH]; intros i w T o H1 H2 H.
  - injection H as <- <- <-. apply stops_nil.
  - cbn [run_tests] in H. unfold pairs_of. cbn [fmap list_fmap mjoin list_join].
    apply bind_pre_inv in H as [(r1 & w1 & t1 & T2 & Ha & H & ->)|(msg & Ha & ->)].
    2: { apply (run_iters_inv _ _ s1 s2) in Ha as (_ & r & [=] & _); done. }
    pose proof (run_iters_inv _ _ s1 s2 _ _ _ _ _ _ _ _ _ _ H1 H2 Ha) as (Hh1 & _).
    apply (run_iters_stops _ _ s1 s2) in Ha; [|done..].
    rewrite bench_runs_app.
    apply (stops_app _ _ _ (w_env w1) _ (Ret r1)); [done| |].
    { intros Hne. destruct r1 as [e|]; [|done]. by injection H as <- <- <-. }
    intros [= ->]. rewrite bind_emit in H. apply pre_inv in H as (T3 & H & ->).
    rewrite bench_runs_app.
    change (bench_runs [EvStdout nl]) with (@nil (option path * string)).
    rewrite app_nil_l. rewrite <- Hh1 in H1, H2. by apply IH in H.
Qed.

Lemma runbenchcmpes_stops (bs1 bs2 : ptr) (s1 s2 : benchSuite)
    (tests : list string) (n : Z) (w w' : World Ext) o T :
  w_heap w !! bs1 = Some s1 → w_heap w !! bs2 = Some s2 →
  runbenchcmpes bs1 bs2 tests n w = (o, w', T) →
  stops_at_first_fatal (pairs_of s1 s2 tests (Z.to_nat n))
                       (w_env w) o (w_env w') (bench_runs T).
Proof.
  intros H1 H2 H. unfold runbenchcmpes in H.
  rewrite !bind_emit in H. rewrite pre_pre in H.
  apply pre_inv in H as (T1 & H & ->). unfold defer in H.
  destruct (run_tests _ _ _ _ _ _ _) as [[o1 w1] t1] eqn:Hrun.
  cbn [emit] in H.
  pose proof (run_tests_inv _ _ s1 s2 _ _ _ _ _ _ _ _ H1 H2 Hrun) as (_ & r & -> & _).
  injection H as <- <- <-.
  apply (run_tests_stops _ _ s1 s2) in Hrun; [|done..].
  rewrite !bench_runs_app. cbn [bench_runs omap list_omap bench_run app].
  by rewrite app_nil_r.
Qed.

(** C4. The benchmark binary is run by spawnWith.  When it ends with exit
    status 1, runSingleBench prints the benchmark-failure message and
    returns nil; when it ends with any other exit status, or spawnWith fails
    in another way, runSingleBench returns an error that wraps the cause and
    prints nothing.  A run that ends well returns nil.  So runSingleBench
    returns an error exactly when the answer of spawnWith is fatal.  A
    fatal answer ends the comparison: runbenchcmpes makes the runs of the
    interleaved schedule one after the other up to the first run with a
    fatal answer, returns an error when there is one and nil when there is
    none, and nothing runs after it; an error is returned only right after
    the run that failed. *)
Theorem runSingleBench_exit_status
    (bs : ptr) (s : benchSuite) (test : string) (w : World Ext) :
  w_heap w !! bs = Some s →
  let bin := testBinary_of s test in
  let pr := exec_CombinedOutput bin ["--help"] (w_env w) in
  let args := bench_args bin (bytes_Contains pr.1 "logtostderr") in
  let sp := spawnWith (outFile s) args pr.2 in
  let w' := mkWorld sp.2 (w_heap w) in
  let T := [EvCombinedOutput bin ["--help"]; EvSpawnWith (outFile s) args] in
  (∀ stderr, sp.1 = Some (ExitError 1 stderr) →
     runSingleBench bs test w
     = (Ret None, w',
        T ++ [EvStdout ("  saw one or more benchmark failures" +:+ nl)])) ∧
  (∀ code stderr, code ≠ 1 → sp.1 = Some (ExitError code stderr) →
     runSingleBench bs test w
     = (Ret (Some (Wrapf (ExitError code stderr) "error running %v: %s"
                         [fmt_v args; stderr])), w', T)) ∧
  (∀ e, sp.1 = Some e → (∀ code stderr, e ≠ ExitError code stderr) →
     runSingleBench bs test w
     = (Ret (Some (Wrapf e "error running %v" [fmt_v args])), w', T)) ∧
  (sp.1 = None → runSingleBench bs test w = (Ret None, w', T)) ∧
  (∀ (bs2 : ptr) (s2 : benchSuite) (tests : list string) (n : Z)
     (w1 : World Ext) (e : error) (T1 : list Event),
     w_heap w !! bs2 = Some s2 →
     runbenchcmpes bs bs2 tests n w = (Ret (Some e), w1, T1) →
     ∃ T0 out args, T1 = T0 ++ [EvSpawnWith out args; EvSpinnerStop]) ∧
  (fatal sp.1 = true ↔ ∃ e, outcome_of (runSingleBench bs test w) = Ret (Some e)) ∧
  (∀ (bs2 : ptr) (s2 : benchSuite) (tests : list string) (n : Z)
     (w1 : World Ext) (o1 : Outcome (option error)) (T1 : list Event),
     w_heap w !! bs2 = Some s2 →
     runbenchcmpes bs bs2 tests n w = (o1, w1, T1) →
     stops_at_first_fatal (pairs_of s s2 tests (Z.to_nat n))
                          (w_env w) o1 (w_env w1) (bench_runs T1)).
Proof.
  intros Hs. cbv zeta.
  assert (Hfatal : fatal (spawn_of s test (w_env w)).1 = true
                   ↔ ∃ e, outcome_of (runSingleBench bs test w) = Ret (Some e)).
  { destruct (runSingleBench bs test w) as [[o w1] T1] eqn:Hrun.
    apply (runSingleBench_spawn _ s) in Hrun as (_ & _ & _ & Hf); [|done].
    unfold outcome_of. cbn [fst]. destruct (fatal _).
    - by split.
    - subst o. split; [done|]. by intros [e [=]]. }
  rewrite (runSingleBench_unfold bs s test w Hs).
  cbv zeta. split_and!.
  - by intros stderr ->.
  - intros code stderr Hc ->. by apply Z.eqb_neq in Hc as ->.
  - intros e -> He. destruct e; try done. by destruct (He code stderr).
  - by intros ->.
  - intros bs2 s2 tests n w1 e T1 Hs2 Hrun.
    apply (runbenchcmpes_inv _ _ s s2) in Hrun
      as (_ & r & [= <-] & _ & _ & Hlast & _); [|done..].
    by apply (Hlast e).
  - rewrite <- (runSingleBench_unfold bs s test w Hs). exact Hfatal.
  - intros bs2 s2 tests n w1 o1 T1 Hs2 Hrun.
    by apply (runbenchcmpes_stops _ _ s s2) in Hrun.
Qed.

(** C1. For every list of tests and every itersPerTest, the benchmark runs of
    runbenchcmpes follow the interleaved schedule: for each test in list
    order, itersPerTest times the old suite's binary and then the new
    suite's binary, all iterations of a test before the next test.  The runs
    are all of the schedule when the runner returns nil, which it does
    whenever no binary ends in a fatal way; an error cuts the schedule short
    and nothing runs after it.  For two iterations of the single test x the
    schedule is old(x), new(x), old(x), new(x). *)
Theorem runbenchcmpes_interleaved
    (bs1 bs2 : ptr) (old new : benchSuite) (tests : list string) (n : Z)
    (w w' : World Ext) (o : Outcome (option error)) (T : list Event) :
  w_heap w !! bs1 = Some old → w_heap w !! bs2 = Some new →
  runbenchcmpes bs1 bs2 tests n w = (o, w', T) →
  (∃ r, o = Ret r ∧
        bench_runs T `prefix_of` schedule old new tests (Z.to_nat n) ∧
        (r = None → bench_runs T = schedule old new tests (Z.to_nat n)) ∧
        (spawn_benign → r = None)) ∧
  schedule old new tests (Z.to_nat n)
  = mjoin ((fun t => mjoin (replicate (Z.to_nat n) [run_of old t; run_of new t]))
             <$> tests) ∧
  ∀ x, schedule old new [x] (Z.to_nat 2)
       = [run_of old x; run_of new x; run_of old x; run_of new x].
Proof.
  intros H1 H2 H.
  apply (runbenchcmpes_inv _ _ old new) in H
    as (_ & r & -> & Hpre & Hall & _ & Hben); [|done..].
  split; [by exists r|]. split; reflexivity.
Qed.

(** ** Building a suite *)

Lemma dirs_of_length (p q : path) : q ∈ dirs_of p → (length q ≤ length p)%nat.
Proof.
  revert q. induction p as [|c p IH]; intros q; simpl.
  - by intros ?%elem_of_nil.
  - intros [->|Hq]%elem_of_cons; [simpl; lia|].
    apply list_elem_of_fmap in Hq as (q' & -> & Hq'). apply IH in Hq'. simpl. lia.
Qed.

(** Nothing in or below the binary directory is touched by the creation of
    the artifacts directory and of the output file. *)
Lemma binDir_not_artifacts (r r' : string) (pf : list string) (q : path) :
  testBinDir r pf `prefix_of` q → q ∉ dirs_of (testArtifactsDir r').
Proof.
  intros [k ->] Hin. apply dirs_of_length in Hin.
  rewrite length_app in Hin. simpl in Hin. lia.
Qed.

Lemma binDir_not_outputFile (r r' : string) (pf : list string) (q : path)
    (s : benchSuite) (t : Z) :
  artDir s = testArtifactsDir r' →
  testBinDir r pf `prefix_of` q → q ≠ outputFile_of s t.
Proof.
  intros Ha [k ->]. unfold outputFile_of, filepath_Join. rewrite Ha.
  unfold testBinDir, testArtifactsDir. simpl. intros [= _ ?].
Qed.

Lemma register_cached_inv (bs : ptr) (s : benchSuite) (files : list FileInfo)
    (w w' : World Ext) o T :
  w_heap w !! bs = Some s →
  register_cached bs files w = (o, w', T) →
  T = [] ∧ w_env w' = w_env w ∧
  ((Forall (fun f => f.2 = File) files ∧ o = Ret None ∧
    ∃ s', w_heap w' = <[bs := s']> (w_heap w) ∧
          testFiles s' = list_to_set files.*1 ∪ testFiles s) ∨
   (∃ d, (d, Dir) ∈ files ∧
         o = Ret (Some (Errorf "unexpected directory %q" [d])))).
Proof.
  revert s w. induction files as [|[n nd] files IH]; intros s w Hs H.
  - injection H as <- <- <-. split_and!; try done. left. split_and!; try done.
    exists s. split; [by rewrite insert_id|]. set_solver.
  - cbn [register_cached snd fst] in H. destruct nd.
    + rewrite (bind_modify _ s) in H by done.
      apply (IH (add_testFile n s)) in H as (-> & Henv & Hcases);
        [|by cbn [w_heap]; rewrite lookup_insert_eq].
      split_and!; try done. destruct Hcases as [(Hall & -> & s' & Hh & Ht)|(d & Hd & ->)].
      * left. split_and!; try done; [by constructor|].
        exists s'. cbn [w_heap] in Hh. rewrite insert_insert_eq in Hh.
        split; [done|]. rewrite Ht. simpl. set_solver.
      * right. exists d. split; [by apply elem_of_cons; right|done].
    + injection H as <- <- <-. split_and!; try done. right.
      exists n. split; [by apply elem_of_cons; left|done].
Qed.

Lemma fs_OpenFile_ok (p : path) (fs fs' : FS) f :
  fs_OpenFile p fs = (f, None, fs') → f = Some p.
Proof.
  unfold fs_OpenFile. destruct (fs !! p) as [[|]|]; [naive_solver..|].
  destruct p as [|c [|d p]]; [naive_solver..|].
  destruct (is_dir fs _); naive_solver.
Qed.

(** build up to the look at the binary directory: it fails while making
    the artifacts directory or the output file, or it goes on from a world
    [w3] in which nothing in or below the binary directory has changed, into
    the loop over the cached files, into the build proper, or to the
    return of an error of os.Stat that is not a missing path. *)
Lemma build_prologue (bs : ptr) (s : benchSuite) (pf : list string) (pc : string)
    (t : Z) (w w' : World Ext) o T :
  w_heap w !! bs = Some s → testFiles s = ∅ →
  build bs pf pc t w = (o, w', T) →
  let art := testArtifactsDir (ref s) in
  let bd := testBinDir (ref s) pf in
  let out := filepath_Join art ("out." +:+ time_Format timeFormat t) in
  (∃ e, o = Ret (Some e) ∧
        (T = [EvMkdirAll art] ∨ T = [EvMkdirAll art; EvOpenFile out]) ∧
        w_heap w' !! bs ≠ None ∧
        ∀ q, bd `prefix_of` q → env_fs (w_env w') !! q = env_fs (w_env w) !! q) ∨
  (∃ w3 T3,
      w_heap w3 = <[bs := mkSuite (ref s) art (Some out) bd ∅]> (w_heap w) ∧
      (∃ fs1 fs2, fs_MkdirAll art (env_fs (w_env w)) = (None, fs1) ∧
                  fs_OpenFile out fs1 = (Some out, None, fs2) ∧
                  w_env w3 = mkEnv fs2 (env_ext (w_env w))) ∧
      (∀ q, bd `prefix_of` q → env_fs (w_env w3) !! q = env_fs (w_env w) !! q) ∧
      T = [EvMkdirAll art; EvOpenFile out; EvStat bd] ++ T3 ∧
      match env_fs (w_env w) !! bd with
      | Some _ =>
          ∃ T4, T3 = [EvStdout ("test binaries already exist for '" +:+ ref s
                                 +:+ "'; skipping build" +:+ nl); EvReadDir bd] ++ T4 ∧
                match fs_ReadDir bd (env_fs (w_env w3)) with
                | (files, None) => register_cached bs files w3 = (o, w', T4)
                | (_, Some e) => o = Ret (Some e) ∧ w' = w3 ∧ T4 = []
                end
      | None =>
          ∃ e, fs_Stat bd (env_fs (w_env w3)) = Some e ∧
               if os_IsNotExist e
               then build_miss bs pf pc w3 = (o, w', T3)
               else o = Ret (Some (Wrapf e "looking for test directory" [])) ∧
                    w' = w3 ∧ T3 = []
      end).
Proof.
  intros Hs He H. cbv zeta. unfold build in H.
  rewrite (bind_load _ s) in H by done.
  rewrite He, size_empty in H.
  rewrite bool_decide_eq_false_2 in H by (intros Hn; by apply Hn).
  rewrite (bind_modify _ s) in H by done.
  erewrite bind_load in H by (cbn [w_heap]; apply lookup_insert_eq).
  rewrite bind_syscall in H. cbn [w_env w_heap env_fs env_ext artDir set_artDir] in H.
  destruct (fs_MkdirAll (testArtifactsDir (ref s)) (env_fs (w_env w)))
    as [[e|] fs1] eqn:Hmk; cbn [fst snd] in H.
  { injection H as <- <- <-. left. exists e. split_and!.
    - done.
    - by left.
    - cbn [w_heap]. by rewrite lookup_insert_eq.
    - intros q Hq. cbn [w_env env_fs].
      by rewrite (fs_MkdirAll_failed _ _ _ _ Hmk). }
  apply pre_inv in H as (T1 & H & ->).
  unfold getOutputFile in H. rewrite bind_bind in H.
  erewrite bind_load in H by (cbn [w_heap]; apply lookup_insert_eq).
  rewrite bind_ret, bind_syscall in H.
  cbn [w_env w_heap env_fs env_ext artDir set_artDir outputFile_of] in H.
  apply pre_inv in H as (T2 & H & ->).
  change (outputFile_of (set_artDir (testArtifactsDir (ref s)) s) t)
    with (filepath_Join (testArtifactsDir (ref s)) ("out." +:+ time_Format timeFormat t)) in *.
  set (art := testArtifactsDir (ref s)) in *.
  set (out := filepath_Join art ("out." +:+ time_Format timeFormat t)) in *.
  set (bd := testBinDir (ref s) pf) in *.
  assert (Hfr1 : ∀ q, bd `prefix_of` q → fs1 !! q = env_fs (w_env w) !! q).
  { intros q Hq. apply (fs_MkdirAll_lookup _ _ _ _ _ Hmk).
    by apply (binDir_not_artifacts (ref s) (ref s) pf). }
  destruct (fs_OpenFile out fs1) as [[f err] fs2] eqn:Hop; cbn [fst snd] in H.
  assert (Hfr2 : ∀ q, bd `prefix_of` q → fs2 !! q = env_fs (w_env w) !! q).
  { intros q Hq. rewrite <- Hfr1 by done.
    apply (fs_OpenFile_lookup _ _ _ _ _ _ Hop).
    by apply (binDir_not_outputFile (ref s) (ref s) pf q
                (set_artDir art s) t). }
  erewrite bind_modify in H by (cbn [w_heap]; apply lookup_insert_eq).
  cbn [w_env w_heap] in H. rewrite insert_insert_eq in H.
  destruct err as [e|].
  { injection H as <- <- <-. left. exists e. split_and!.
    - done.
    - by right.
    - cbn [w_heap]. by rewrite lookup_insert_eq.
    - done. }
  pose proof (fs_OpenFile_ok _ _ _ _ Hop) as ->.
  erewrite bind_load in H by (cbn [w_heap]; apply lookup_insert_eq).
  erewrite bind_modify in H by (cbn [w_heap]; apply lookup_insert_eq).
  cbn [w_env w_heap] in H. rewrite insert_insert_eq in H.
  erewrite bind_load in H by (cbn [w_heap]; apply lookup_insert_eq).
  rewrite bind_syscall in H.
  cbn [w_env w_heap env_fs env_ext binDir set_binDir set_outFile set_artDir ref
       artDir outFile testFiles fst snd] in H.
  apply pre_inv in H as (T3 & H & ->).
  fold bd in H.
  assert (Hsuite : set_binDir bd (set_outFile (Some out) (set_artDir art s))
                   = mkSuite (ref s) art (Some out) bd ∅).
  { unfold set_binDir, set_outFile, set_artDir. simpl. by rewrite He. }
  rewrite Hsuite in H.
  right.
  exists (mkWorld (mkEnv fs2 (env_ext (w_env w)))
                  (<[bs := mkSuite (ref s) art (Some out) bd ∅]> (w_heap w))), T3.
  split; [reflexivity|]. cbn [w_env env_ext env_fs].
  split; [by exists fs1, fs2|]. split; [done|]. split; [done|].
  rewrite <- (Hfr2 bd) by done.
  pose proof (fs_Stat_spec bd fs2) as Hst.
  destruct (fs_Stat bd fs2) as [e|] eqn:Hstat.
  - destruct Hst as [-> Hne]. exists e. split; [done|].
    destruct (os_IsNotExist e); cbn [negb] in H; [done|].
    by injection H as <- <- <-.
  - destruct Hst as [nd ->].
    rewrite bind_emit in H. apply pre_inv in H as (T4 & H & ->).
    rewrite bind_syscall in H. cbn [w_env w_heap env_fs env_ext fst snd] in H.
    apply pre_inv in H as (T5 & H & ->).
    exists T5. split; [done|].
    destruct (fs_ReadDir bd fs2) as [files [e|]]; [|done].
    by injection H as <- <- <-.
Qed.

Lemma build_pkgs_inv (bs : ptr) (s : benchSuite) (i n : Z) (pkgs : list string)
    (w w' : World Ext) o T :
  w_heap w !! bs = Some s →
  build_pkgs bs i n pkgs w = (o, w', T) →
  ∃ r s', o = Ret r ∧ w_heap w' = <[bs := s']> (w_heap w) ∧
          binDir s' = binDir s ∧ ref s' = ref s.
Proof.
  revert i s w T. induction pkgs as [|pkg pkgs IH]; intros i s w T Hs H.
  - injection H as <- <- <-. exists None, s. by rewrite insert_id.
  - cbn [build_pkgs] in H. rewrite bind_emit in H.
    apply pre_inv in H as (T1 & H & ->).
    rewrite (bind_load _ s) in H by done. rewrite bind_call in H.
    apply pre_inv in H as (T2 & H & ->).
    destruct (buildTestBin pkg (binDir s) (w_env w)) as [[[testBin ok] [e|]] env1];
      cbn [fst snd] in H.
    { injection H as <- <- <-. exists (Some e), s. by rewrite insert_id. }
    destruct ok.
    + rewrite (bind_modify _ s) in H by done. cbn [w_env w_heap] in H.
      apply (IH _ (add_testFile testBin s)) in H as (r & s' & -> & Hh & Hb & Hr);
        [|by cbn [w_heap]; rewrite lookup_insert_eq].
      exists r, s'. cbn [w_heap] in Hh. by rewrite insert_insert_eq in Hh.
    + rewrite bind_ret in H.
      apply (IH _ s) in H as (r & s' & -> & Hh & Hb & Hr); [|done].
      by exists r, s'.
Qed.

(** The build proper: it fails on making the binary directory and leaves
    the file system alone, or it goes on to the checkout, and then an error
    is returned only after os.RemoveAll has removed the binary directory and
    all below it. *)
Lemma build_miss_inv (bs : ptr) (s : benchSuite) (pf : list string) (pc : string)
    (w w' : World Ext) o T :
  w_heap w !! bs = Some s →
  build_miss bs pf pc w = (o, w', T) →
  ∃ r, o = Ret r ∧
    ((∃ e, r = Some e ∧ T = [EvMkdirAll (binDir s)] ∧
           env_fs (w_env w') = env_fs (w_env w)) ∨
     (∃ T1, T = [EvMkdirAll (binDir s);
                 EvStdout ("checking out '" +:+ ref s +:+ "'" +:+ nl);
                 EvCheckoutRef (ref s) pc] ++ T1 ∧
            match r with
            | Some _ =>
                ∃ T2, T1 = T2 ++ [EvRemoveAll (binDir s)] ∧
                      ∀ q, binDir s `prefix_of` q → env_fs (w_env w') !! q = None
            | None => True
            end)).
Proof.
  intros Hs H. unfold build_miss in H.
  rewrite (bind_load _ s) in H by done. rewrite bind_syscall in H.
  apply pre_inv in H as (T1 & H & ->).
  destruct (fs_MkdirAll (binDir s) (env_fs (w_env w))) as [[e|] fs1] eqn:Hmk;
    cbn [fst snd] in H.
  { injection H as <- <- <-. exists (Some e). split; [done|]. left.
    exists e. split_and!; [done..|]. cbn [w_env env_fs].
    by apply (fs_MkdirAll_failed _ _ _ _ Hmk). }
  unfold defer in H.
  match type of H with context [bind (load bs) ?k ?w0] =>
    destruct (bind (load bs) k w0) as [[o1 w1] t1] eqn:Hbody end.
  rewrite (bind_load _ s) in Hbody by done.
  rewrite bind_emit in Hbody. apply pre_inv in Hbody as (T2 & Hbody & ->).
  rewrite bind_call in Hbody. apply pre_inv in Hbody as (T3 & Hbody & ->).
  cbn [w_env w_heap] in Hbody.
  assert (Hb : ∃ r s1, o1 = Ret r ∧ w_heap w1 !! bs = Some s1 ∧ binDir s1 = binDir s).
  { destruct (checkoutRef _ _ _) as [[e|] env1]; cbn [fst snd] in Hbody.
    { injection Hbody as <- <- <-. by exists (Some e), s. }
    rewrite bind_call in Hbody. apply pre_inv in Hbody as (T4 & Hbody & ->).
    cbn [w_env w_heap] in Hbody.
    destruct (expandPackages pf env1) as [[pkgs [e|]] env2]; cbn [fst snd] in Hbody.
    { injection Hbody as <- <- <-. by exists (Some e), s. }
    rewrite (bind_load _ s) in Hbody by done.
    rewrite bind_emit in Hbody. apply pre_inv in Hbody as (T5 & Hbody & ->).
    match type of Hbody with context [bind (build_pkgs ?a ?b ?c ?d) ?k ?w0] =>
      destruct (bind (build_pkgs a b c d) k w0) as [[o2 w2] t2] eqn:Hpk end.
    cbn [emit] in Hbody. injection Hbody as <- <- <-.
    apply bind_pre_inv in Hpk as [(r2 & w3 & t3 & t4 & Hpk & Hk & ->)|(msg & Hpk & ->)].
    - apply (build_pkgs_inv _ s) in Hpk as (r & s1 & [= ->] & Hh & Hbd & _); [|done].
      destruct r as [e|].
      + injection Hk as <- <- <-. exists (Some e), s1.
        rewrite Hh. cbn [w_heap]. by rewrite lookup_insert_eq.
      + rewrite bind_emit in Hk. cbn [ret pre] in Hk. injection Hk as <- <- <-.
        exists None, s1. rewrite Hh. cbn [w_heap]. by rewrite lookup_insert_eq.
    - apply (build_pkgs_inv _ s) in Hpk as (r & s1 & [=] & _); done. }
  destruct Hb as (r & s1 & -> & Hs1 & Hbd).
  exists r. destruct r as [e|].
  - rewrite (bind_load _ s1) in H by done. unfold syscall, call in H.
    cbn [fst snd] in H. injection H as <- <- <-.
    split; [done|]. right. rewrite Hbd. eexists. split; [reflexivity|].
    eexists. split; [reflexivity|].
    intros q Hq. cbn [w_env env_fs]. by apply fs_RemoveAll_below.
  - cbn [ret] in H. injection H as <- <- <-.
    split; [done|]. right. eexists. split; [|done].
    rewrite app_nil_r. reflexivity.
Qed.

Lemma build_returns (bs : ptr) (s : benchSuite) (pf : list string) (pc : string)
    (t : Z) (w w' : World Ext) o T :
  w_heap w !! bs = Some s → testFiles s = ∅ →
  build bs pf pc t w = (o, w', T) → ∃ r, o = Ret r.
Proof.
  intros Hs He H.
  apply (build_prologue _ s) in H; [|done..]. cbv zeta in H.
  destruct H as [(e & -> & _)|(w3 & T3 & Hh & _ & Hfr & -> & H)]; [by eexists|].
  assert (Hs3 : w_heap w3 !! bs
                = Some (mkSuite (ref s) (testArtifactsDir (ref s))
                          (Some (filepath_Join (testArtifactsDir (ref s))
                                   ("out." +:+ time_Format timeFormat t)))
                          (testBinDir (ref s) pf) ∅)).
  { rewrite Hh. apply lookup_insert_eq. }
  destruct (env_fs (w_env w) !! testBinDir (ref s) pf).
  - destruct H as (T4 & -> & H).
    destruct (fs_ReadDir _ _) as [files [e|]].
    + destruct H as (-> & _). by eexists.
    + eapply register_cached_inv in H; [|done].
      destruct H as (_ & _ & [(_ & -> & _)|(d & _ & ->)]); by eexists.
  - destruct H as (e & _ & H). destruct (os_IsNotExist e).
    + eapply build_miss_inv in H; [|done]. destruct H as (r & -> & _). by eexists.
    + destruct H as (-> & _). by eexists.
Qed.

(** C8. build on a suite whose testFiles is not empty panics at once: the
    world, with the suite and the file system in it, is as before and no
    event has happened.  On a suite whose testFiles is empty build never
    panics: it returns nil or an error. *)
Theorem build_only_once
    (bs : ptr) (s : benchSuite) (pf : list string) (pc : string) (t : Z)
    (w : World Ext) :
  w_heap w !! bs = Some s →
  (testFiles s ≠ ∅ →
   build bs pf pc t w = (Panic "benchSuite already built", w, [])) ∧
  (testFiles s = ∅ → ∃ r, outcome_of (build bs pf pc t w) = Ret r).
Proof.
  intros Hs. split.
  - intros Hne. unfold build. rewrite (bind_load _ s) by done.
    rewrite bool_decide_eq_true_2; [done|].
    by intros ?%size_empty_iff%leibniz_equiv.
  - intros He. destruct (build bs pf pc t w) as [[o w'] T] eqn:H.
    by apply (build_returns _ s) in H.
Qed.

(** build as a function of what the system calls of its first steps
    return. *)
Lemma build_unfold (bs : ptr) (s : benchSuite) (pf : list string) (pc : string)
    (t : Z) (w : World Ext) :
  w_heap w !! bs = Some s → testFiles s = ∅ →
  let art := testArtifactsDir (ref s) in
  let bd := testBinDir (ref s) pf in
  let out := filepath_Join art ("out." +:+ time_Format timeFormat t) in
  let world := fun fs s' => mkWorld (mkEnv fs (env_ext (w_env w)))
                                    (<[bs := s']> (w_heap w)) in
  build bs pf pc t w =
  match fs_MkdirAll art (env_fs (w_env w)) with
  | (Some e, fs1) => (Ret (Some e), world fs1 (set_artDir art s), [EvMkdirAll art])
  | (None, fs1) =>
      match fs_OpenFile out fs1 with
      | (f, Some e, fs2) =>
          (Ret (Some e), world fs2 (set_outFile f (set_artDir art s)),
           [EvMkdirAll art; EvOpenFile out])
      | (f, None, fs2) =>
          let w3 := world fs2 (mkSuite (ref s) art f bd ∅) in
          pre [EvMkdirAll art; EvOpenFile out; EvStat bd]
            match fs_Stat bd fs2 with
            | None =>
                pre [EvStdout ("test binaries already exist for '" +:+ ref s
                               +:+ "'; skipping build" +:+ nl); EvReadDir bd]
                  match fs_ReadDir bd fs2 with
                  | (files, None) => register_cached bs files w3
                  | (_, Some e) => (Ret (Some e), w3, [])
                  end
            | Some e =>
                if os_IsNotExist e
                then build_miss bs pf pc w3
                else (Ret (Some (Wrapf e "looking for test directory" [])), w3, [])
            end
      end
  end.
Proof.
  intros Hs He. cbv zeta. unfold build.
  rewrite (bind_load _ s) by done.
  rewrite He, size_empty.
  rewrite bool_decide_eq_false_2 by (intros Hn; by apply Hn).
  rewrite (bind_modify _ s) by done.
  erewrite bind_load by (cbn [w_heap]; apply lookup_insert_eq).
  rewrite bind_syscall. cbn [w_env w_heap env_fs env_ext artDir set_artDir].
  destruct (fs_MkdirAll (testArtifactsDir (ref s)) (env_fs (w_env w)))
    as [[e|] fs1] eqn:Hmk; cbn [fst snd]; [reflexivity|].
  unfold getOutputFile. rewrite bind_bind.
  erewrite bind_load by (cbn [w_heap]; apply lookup_insert_eq).
  rewrite bind_ret, bind_syscall.
  cbn [w_env w_heap env_fs env_ext artDir set_artDir outputFile_of].
  change (outputFile_of (set_artDir (testArtifactsDir (ref s)) s) t)
    with (filepath_Join (testArtifactsDir (ref s)) ("out." +:+ time_Format timeFormat t)).
  destruct (fs_OpenFile _ fs1) as [[f err] fs2] eqn:Hop; cbn [fst snd].
  erewrite bind_modify by (cbn [w_heap]; apply lookup_insert_eq).
  cbn [w_env w_heap]. rewrite insert_insert_eq.
  destruct err as [e|]; [reflexivity|].
  erewrite bind_load by (cbn [w_heap]; apply lookup_insert_eq).
  erewrite bind_modify by (cbn [w_heap]; apply lookup_insert_eq).
  cbn [w_env w_heap]. rewrite insert_insert_eq.
  erewrite bind_load by (cbn [w_heap]; apply lookup_insert_eq).
  rewrite bind_syscall.
  cbn [w_env w_heap env_fs env_ext binDir set_binDir set_outFile set_artDir ref
       artDir outFile testFiles fst snd].
  rewrite !pre_pre. cbn [app].
  assert (Hsuite : set_binDir (testBinDir (ref s) pf)
                     (set_outFile f (set_artDir (testArtifactsDir (ref s)) s))
                   = mkSuite (ref s) (testArtifactsDir (ref s)) f
                             (testBinDir (ref s) pf) ∅).
  { unfold set_binDir, set_outFile, set_artDir. simpl. by rewrite He. }
  rewrite Hsuite.
  destruct (fs_Stat _ fs2) as [e|].
  - destruct (os_IsNotExist e); reflexivity.
  - rewrite bind_emit, bind_syscall. cbn [w_env w_heap env_fs env_ext fst snd].
    rewrite !pre_pre. cbn [app].
    destruct (fs_ReadDir _ fs2) as [files [e|]]; reflexivity.
Qed.

Lemma build_pkgs_steps (bs : ptr) (s : benchSuite) (i n : Z) (pkgs : list string)
    (w w' : World Ext) o T :
  w_heap w !! bs = Some s →
  build_pkgs bs i n pkgs w = (o, w', T) →
  o = Ret (compile_all (binDir s) pkgs (w_env w)).1 ∧
  w_env w' = (compile_all (binDir s) pkgs (w_env w)).2.
Proof.
  revert i s w T. induction pkgs as [|pkg pkgs IH]; intros i s w T Hs H.
  - by injection H as <- <- <-.
  - cbn [build_pkgs] in H. rewrite bind_emit in H.
    apply pre_inv in H as (T1 & H & ->).
    rewrite (bind_load _ s) in H by done. rewrite bind_call in H.
    apply pre_inv in H as (T2 & H & ->). cbn [compile_all].
    destruct (buildTestBin pkg (binDir s) (w_env w)) as [[[testBin ok] [e|]] env1];
      cbn [fst snd] in H |- *.
    { by injection H as <- <- <-. }
    destruct ok.
    + rewrite (bind_modify _ s) in H by done. cbn [w_env w_heap] in H.
      by apply (IH _ (add_testFile testBin s)) in H;
        [|by cbn [w_heap]; rewrite lookup_insert_eq].
    + rewrite bind_ret in H. by apply (IH _ s) in H.
Qed.

(** The build proper returns the first error among the answers of the
    collaborators, after it has removed the binary directory, and nil when
    there is none. *)
Lemma build_miss_steps (bs : ptr) (s : benchSuite) (pf : list string) (pc : string)
    (fs1 : FS) (w w' : World Ext) o T :
  w_heap w !! bs = Some s →
  fs_MkdirAll (binDir s) (env_fs (w_env w)) = (None, fs1) →
  build_miss bs pf pc w = (o, w', T) →
  let res := rebuild_steps (ref s) pc pf (binDir s)
                           (mkEnv fs1 (env_ext (w_env w))) in
  o = Ret res.1 ∧
  w_env w' = match res.1 with
             | Some _ => mkEnv (fs_RemoveAll (binDir s) (env_fs res.2))
                               (env_ext res.2)
             | None => res.2
             end ∧
  ∃ T1, T = [EvMkdirAll (binDir s);
             EvStdout ("checking out '" +:+ ref s +:+ "'" +:+ nl);
             EvCheckoutRef (ref s) pc] ++ T1 ∧
        (∀ e, res.1 = Some e → ∃ T2, T1 = T2 ++ [EvRemoveAll (binDir s)]).
Proof.
  intros Hs Hmk H. cbv zeta. unfold build_miss in H.
  rewrite (bind_load _ s) in H by done. rewrite bind_syscall in H.
  apply pre_inv in H as (T1 & H & ->). rewrite Hmk in H. cbn [fst snd] in H.
  unfold defer in H.
  match type of H with context [bind (load bs) ?k ?w0] =>
    destruct (bind (load bs) k w0) as [[o1 w1] t1] eqn:Hbody end.
  rewrite (bind_load _ s) in Hbody by done.
  rewrite bind_emit in Hbody. apply pre_inv in Hbody as (T2 & Hbody & ->).
  rewrite bind_call in Hbody. apply pre_inv in Hbody as (T3 & Hbody & ->).
  cbn [w_env w_heap] in Hbody.
  set (res := rebuild_steps _ _ _ _ _).
  assert (Hb : o1 = Ret res.1 ∧ w_env w1 = res.2 ∧
               ∃ s1, w_heap w1 !! bs = Some s1 ∧ binDir s1 = binDir s).
  { unfold res, rebuild_steps.
    destruct (checkoutRef _ _ _) as [[e|] env1]; cbn [fst snd] in Hbody |- *.
    { injection Hbody as <- <- <-. split_and!; try done. by exists s. }
    rewrite bind_call in Hbody. apply pre_inv in Hbody as (T4 & Hbody & ->).
    cbn [w_env w_heap] in Hbody.
    destruct (expandPackages pf env1) as [[pkgs [e|]] env2]; cbn [fst snd] in Hbody |- *.
    { injection Hbody as <- <- <-. split_and!; try done. by exists s. }
    rewrite (bind_load _ s) in Hbody by done.
    rewrite bind_emit in Hbody. apply pre_inv in Hbody as (T5 & Hbody & ->).
    match type of Hbody with context [bind (build_pkgs ?a ?b ?c ?d) ?k ?w0] =>
      destruct (bind (build_pkgs a b c d) k w0) as [[o2 w2] t2] eqn:Hpk end.
    cbn [emit] in Hbody. injection Hbody as <- <- <-.
    apply bind_pre_inv in Hpk as [(r2 & w3 & t3 & t4 & Hpk & Hk & ->)|(msg & Hpk & ->)].
    2: { apply (build_pkgs_inv _ s) in Hpk as (r & s1 & [=] & _); done. }
    pose proof (build_pkgs_steps bs s _ _ _ (mkWorld env2 (w_heap w)) _ _ _ Hs Hpk)
      as [Ho Henv].
    cbn [w_env] in Ho, Henv.
    apply (build_pkgs_inv _ s) in Hpk as (r & s1 & _ & Hh & Hbd & _); [|done].
    assert (Hs1 : w_heap w3 !! bs = Some s1).
    { rewrite Hh. cbn [w_heap]. by rewrite lookup_insert_eq. }
    injection Ho as ->.
    destruct (compile_all _ _ _).1 as [e|].
    + injection Hk as <- <- <-. split_and!; try done. by exists s1.
    + rewrite bind_emit in Hk. cbn [ret pre] in Hk. injection Hk as <- <- <-.
      split_and!; try done. by exists s1. }
  destruct Hb as (-> & Henv & s1 & Hs1 & Hbd).
  destruct res.1 as [e|].
  - rewrite (bind_load _ s1) in H by done. unfold syscall, call in H.
    cbn [fst snd] in H. injection H as <- <- <-.
    split; [done|]. cbn [w_env]. rewrite Henv, Hbd. split; [done|].
    exists (T3 ++ [EvRemoveAll (binDir s)]). split; [done|].
    intros _ _. by exists T3.
  - cbn [ret] in H. injection H as <- <- <-. split; [done|]. split; [done|].
    exists T3. split; [by rewrite app_nil_r|]. by intros e [=].
Qed.

(** build when the binary directory does not exist. *)
Lemma build_on_miss (bs : ptr) (s : benchSuite) (pf : list string) (pc : string)
    (t : Z) (w w' : World Ext) o T :
  w_heap w !! bs = Some s → testFiles s = ∅ →
  env_fs (w_env w) !! testBinDir (ref s) pf = None →
  build bs pf pc t w = (o, w', T) →
  let art := testArtifactsDir (ref s) in
  let bd := testBinDir (ref s) pf in
  let out := filepath_Join art ("out." +:+ time_Format timeFormat t) in
  ∃ r, o = Ret r ∧
    ((∃ e, r = Some e ∧
           (T = [EvMkdirAll art] ∨ T = [EvMkdirAll art; EvOpenFile out] ∨
            T = [EvMkdirAll art; EvOpenFile out; EvStat bd] ∨
            T = [EvMkdirAll art; EvOpenFile out; EvStat bd; EvMkdirAll bd]) ∧
           env_fs (w_env w') !! bd = None) ∨
     (∃ T1, T = [EvMkdirAll art; EvOpenFile out; EvStat bd; EvMkdirAll bd;
                 EvStdout ("checking out '" +:+ ref s +:+ "'" +:+ nl);
                 EvCheckoutRef (ref s) pc] ++ T1 ∧
            match r with
            | Some _ =>
                ∃ T2, T1 = T2 ++ [EvRemoveAll bd] ∧
                      ∀ q, bd `prefix_of` q → env_fs (w_env w') !! q = None
            | None => True
            end)).
Proof.
  intros Hs He Hmiss H. cbv zeta.
  apply (build_prologue _ s) in H; [|done..]. cbv zeta in H.
  destruct H as [(e & -> & HT & _ & Hfr)|(w3 & T3 & Hh & _ & Hfr & -> & H)].
  { exists (Some e). split; [done|]. left. exists e. split_and!; [done| |].
    - destruct HT as [->| ->]; auto.
    - by rewrite Hfr. }
  rewrite Hmiss in H. destruct H as (e0 & Hst & H).
  destruct (os_IsNotExist e0).
  2: { destruct H as (-> & -> & ->). eexists. split; [done|]. left.
       eexists. split_and!; [done|auto|by rewrite Hfr]. }
  eapply build_miss_inv in H; [|by rewrite Hh; apply lookup_insert_eq].
  cbn [binDir ref] in H.
  destruct H as (r & -> & [(e & -> & -> & Hfs)|(T1 & -> & H)]).
  - exists (Some e). split; [done|]. left. exists e. split_and!; [done|auto|].
    by rewrite Hfs, Hfr.
  - exists r. split; [done|]. right. by exists T1.
Qed.

(** C2. On a cache miss (os.Stat finds no binary directory) build makes the
    binary directory and then asks for the checkout with its hook, the
    expansion of the packages and the compilation of each package.  The
    first of these steps that fails makes build return that error, and
    nil is returned only when none fails; before build returns the error it
    removes the binary directory with all below it, as its last step, so
    that the directory does not exist afterwards.  Whenever build returns
    an error after a miss the binary directory does not exist, and a later
    build of the same ref and scope that starts from this file system does
    not find a cached directory: it never reads the directory as a cache,
    and where os.Stat reports a missing path it goes on to make it. *)
Theorem build_failure_rolls_back
    (bs : ptr) (s : benchSuite) (pf : list string) (pc : string) (t : Z)
    (w w' : World Ext) (o : Outcome (option error)) (T : list Event) :
  w_heap w !! bs = Some s → testFiles s = ∅ →
  env_fs (w_env w) !! testBinDir (ref s) pf = None →
  build bs pf pc t w = (o, w', T) →
  let art := testArtifactsDir (ref s) in
  let bd := testBinDir (ref s) pf in
  let out := fun t => filepath_Join art ("out." +:+ time_Format timeFormat t) in
  (T = [EvMkdirAll art] ∨ T = [EvMkdirAll art; EvOpenFile (out t)] ∨
   T = [EvMkdirAll art; EvOpenFile (out t); EvStat bd] ∨
   ∃ T1, T = [EvMkdirAll art; EvOpenFile (out t); EvStat bd; EvMkdirAll bd] ++ T1) ∧
  (∀ (fs1 fs2 fs3 : FS) (f : option path) (e0 : error),
     fs_MkdirAll art (env_fs (w_env w)) = (None, fs1) →
     fs_OpenFile (out t) fs1 = (f, None, fs2) →
     fs_Stat bd fs2 = Some e0 → os_IsNotExist e0 = true →
     fs_MkdirAll bd fs2 = (None, fs3) →
     let res := rebuild_steps (ref s) pc pf bd (mkEnv fs3 (env_ext (w_env w))) in
     fs3 !! bd = Some Dir ∧
     o = Ret res.1 ∧
     (∃ T1, T = [EvMkdirAll art; EvOpenFile (out t); EvStat bd; EvMkdirAll bd;
                 EvStdout ("checking out '" +:+ ref s +:+ "'" +:+ nl);
                 EvCheckoutRef (ref s) pc] ++ T1) ∧
     (∀ e, res.1 = Some e →
           w_env w' = mkEnv (fs_RemoveAll bd (env_fs res.2)) (env_ext res.2) ∧
           (∀ q, bd `prefix_of` q → env_fs (w_env w') !! q = None) ∧
           ∃ T0, T = T0 ++ [EvRemoveAll bd]) ∧
     (res.1 = None → w_env w' = res.2)) ∧
  ∀ e, o = Ret (Some e) →
    env_fs (w_env w') !! bd = None ∧
    (EvCheckoutRef (ref s) pc ∈ T →
     ∃ T0, T = T0 ++ [EvRemoveAll bd] ∧
           ∀ q, bd `prefix_of` q → env_fs (w_env w') !! q = None) ∧
    ∀ (bs2 : ptr) (s2 : benchSuite) (pc2 : string) (t2 : Z)
      (w2 w2' : World Ext) o2 T2,
      env_fs (w_env w2) = env_fs (w_env w') →
      w_heap w2 !! bs2 = Some s2 → testFiles s2 = ∅ → ref s2 = ref s →
      build bs2 pf pc2 t2 w2 = (o2, w2', T2) →
      T2 = [EvMkdirAll art] ∨ T2 = [EvMkdirAll art; EvOpenFile (out t2)] ∨
      T2 = [EvMkdirAll art; EvOpenFile (out t2); EvStat bd] ∨
      ∃ T3, T2 = [EvMkdirAll art; EvOpenFile (out t2); EvStat bd; EvMkdirAll bd] ++ T3.
Proof.
  intros Hs He Hmiss H. cbv zeta.
  assert (Hshape : ∀ (bs : ptr) (s : benchSuite) pc t (w w' : World Ext) o T,
    w_heap w !! bs = Some s → testFiles s = ∅ →
    env_fs (w_env w) !! testBinDir (ref s) pf = None →
    build bs pf pc t w = (o, w', T) →
    T = [EvMkdirAll (testArtifactsDir (ref s))] ∨
    T = [EvMkdirAll (testArtifactsDir (ref s));
         EvOpenFile (filepath_Join (testArtifactsDir (ref s))
                       ("out." +:+ time_Format timeFormat t))] ∨
    T = [EvMkdirAll (testArtifactsDir (ref s));
         EvOpenFile (filepath_Join (testArtifactsDir (ref s))
                       ("out." +:+ time_Format timeFormat t));
         EvStat (testBinDir (ref s) pf)] ∨
    ∃ T1, T = [EvMkdirAll (testArtifactsDir (ref s));
               EvOpenFile (filepath_Join (testArtifactsDir (ref s))
                             ("out." +:+ time_Format timeFormat t));
               EvStat (testBinDir (ref s) pf);
               EvMkdirAll (testBinDir (ref s) pf)] ++ T1).
  { clear. intros bs s pc t w w' o T Hs He Hmiss H.
    apply (build_on_miss _ s) in H; [|done..]. cbv zeta in H.
    destruct H as (r & _ & [(e & _ & [->|[->|[->| ->]]] & _)|(T1 & -> & _)]); eauto;
      right; right; right; by eexists. }
  split; [by apply (Hshape bs s pc t w w' o)|]. split.
  - intros fs1 fs2 fs3 f e0 Hmk Hop Hst Hne Hmk2.
    rewrite (build_unfold bs s pf pc t w Hs He) in H. cbv zeta in H.
    rewrite Hmk, Hop, Hst, Hne in H.
    apply pre_inv in H as (T3 & H & ->).
    eapply build_miss_steps in H;
      [|cbn [w_heap]; apply lookup_insert_eq|cbn [binDir w_env env_fs]; exact Hmk2].
    cbn [binDir ref w_env env_ext] in H. destruct H as (-> & Henv & T1 & -> & Hlast).
    split.
    { apply (fs_MkdirAll_created _ _ _ Hmk2). done. }
    split; [done|]. split; [by exists T1|]. split.
    + intros e Hres. rewrite Hres in Henv. split; [done|]. split.
      * intros q Hq. rewrite Henv. cbn [w_env env_fs]. by apply fs_RemoveAll_below.
      * destruct (Hlast e Hres) as (T2 & ->).
        exists ([EvMkdirAll (testArtifactsDir (ref s));
                 EvOpenFile (filepath_Join (testArtifactsDir (ref s))
                               ("out." +:+ time_Format timeFormat t));
                 EvStat (testBinDir (ref s) pf);
                 EvMkdirAll (testBinDir (ref s) pf);
                 EvStdout ("checking out '" +:+ ref s +:+ "'" +:+ nl);
                 EvCheckoutRef (ref s) pc] ++ T2).
        by rewrite <- !app_assoc.
    + intros Hres. by rewrite Hres in Henv.
  - intros e ->.
    apply (build_on_miss _ s) in H; [|done..]. cbv zeta in H.
    destruct H as (r & [= <-] & [(e' & _ & HT & Hgone)|(T1 & -> & T2 & -> & Hgone)]).
    + split; [done|]. split.
      * intros Hin. exfalso.
        destruct HT as [->|[->|[->| ->]]];
          repeat (apply elem_of_cons in Hin as [Hin|Hin]; [discriminate|]);
          by apply elem_of_nil in Hin.
      * intros bs2 s2 pc2 t2 w2 w2' o2 T2 Hfs Hs2 He2 Hr H2.
        rewrite <- Hr. apply (Hshape bs2 s2 pc2 t2 w2 w2' o2); try done.
        by rewrite Hfs, Hr.
    + split; [by apply Hgone|]. split.
      * intros _. eexists. split; [|done]. by rewrite app_assoc.
      * intros bs2 s2 pc2 t2 w2 w2' o2 T3 Hfs Hs2 He2 Hr H2.
        rewrite <- Hr. apply (Hshape bs2 s2 pc2 t2 w2 w2' o2); try done.
        rewrite Hfs, Hr. by apply Hgone.
Qed.

(** build when the binary directory exists. *)
Lemma build_on_hit (bs : ptr) (s : benchSuite) (pf : list string) (pc : string)
    (t : Z) (w w' : World Ext) o T :
  w_heap w !! bs = Some s → testFiles s = ∅ →
  env_fs (w_env w) !! testBinDir (ref s) pf = Some Dir →
  build bs pf pc t w = (o, w', T) →
  let art := testArtifactsDir (ref s) in
  let bd := testBinDir (ref s) pf in
  let out := filepath_Join art ("out." +:+ time_Format timeFormat t) in
  let fs := env_fs (w_env w) in
  (∀ q, bd `prefix_of` q → env_fs (w_env w') !! q = fs !! q) ∧
  ((∃ e, o = Ret (Some e) ∧
         (T = [EvMkdirAll art] ∨ T = [EvMkdirAll art; EvOpenFile out])) ∨
   (T = [EvMkdirAll art; EvOpenFile out; EvStat bd;
         EvStdout ("test binaries already exist for '" +:+ ref s
                   +:+ "'; skipping build" +:+ nl);
         EvReadDir bd] ∧
    ((o = Ret None ∧ (∀ n, fs !! (bd ++ [n]) ≠ Some Dir) ∧
      ∃ s', w_heap w' !! bs = Some s' ∧
            ∀ n, n ∈ testFiles s' ↔ fs !! (bd ++ [n]) = Some File) ∨
     (∃ d, fs !! (bd ++ [d]) = Some Dir ∧
           o = Ret (Some (Errorf "unexpected directory %q" [d])))))).
Proof.
  intros Hs He Hhit H. cbv zeta.
  apply (build_prologue _ s) in H; [|done..]. cbv zeta in H.
  destruct H as [(e & -> & HT & _ & Hfr)|(w3 & T3 & Hh & _ & Hfr & -> & H)].
  { split; [done|]. left. by exists e. }
  rewrite Hhit in H. destruct H as (T4 & -> & H).
  assert (Hdir3 : env_fs (w_env w3) !! testBinDir (ref s) pf = Some Dir).
  { by rewrite Hfr. }
  destruct (fs_ReadDir_dir _ _ Hdir3) as (files & Hrd & Hfiles).
  rewrite Hrd in H.
  eapply register_cached_inv in H; [|by rewrite Hh; apply lookup_insert_eq].
  destruct H as (-> & Henv & Hcases). rewrite Henv.
  split; [done|]. right. split; [done|].
  assert (Hent : ∀ n nd, (n, nd) ∈ files
                         ↔ env_fs (w_env w) !! (testBinDir (ref s) pf ++ [n]) = Some nd).
  { intros n nd. rewrite Hfiles. rewrite Hfr; [done|]. by apply prefix_app_r. }
  destruct Hcases as [(Hall & -> & s' & Hh' & Ht)|(d & Hd & ->)].
  - left. split; [done|]. split.
    + intros n Hn. apply Hent in Hn. rewrite Forall_forall in Hall.
      by apply Hall in Hn.
    + exists s'. split; [rewrite Hh'; apply lookup_insert_eq|].
      intros n. rewrite Ht. cbn [testFiles]. rewrite <- Hent.
      rewrite elem_of_union, elem_of_list_to_set, list_elem_of_fmap.
      split.
      * intros [([n' nd] & -> & Hin)|Hin]; [|set_solver].
        rewrite Forall_forall in Hall. pose proof (Hall _ Hin) as Hf.
        simpl in *. by subst.
      * intros Hin. left. by exists (n, File).
  - right. exists d. split; [|done]. by apply Hent.
Qed.

(** With the artifacts directory and the output file made, build goes on
    to the look at the binary directory. *)
Lemma build_made (bs : ptr) (s : benchSuite) (pf : list string) (pc : string)
    (t : Z) (w w' : World Ext) (o : Outcome (option error)) (T : list Event)
    (fs1 fs2 : FS) (f : option path) :
  w_heap w !! bs = Some s → testFiles s = ∅ →
  fs_MkdirAll (testArtifactsDir (ref s)) (env_fs (w_env w)) = (None, fs1) →
  fs_OpenFile (filepath_Join (testArtifactsDir (ref s))
                 ("out." +:+ time_Format timeFormat t)) fs1 = (f, None, fs2) →
  build bs pf pc t w = (o, w', T) →
  ∃ T', T = [EvMkdirAll (testArtifactsDir (ref s));
             EvOpenFile (filepath_Join (testArtifactsDir (ref s))
                           ("out." +:+ time_Format timeFormat t));
             EvStat (testBinDir (ref s) pf)] ++ T'.
Proof.
  intros Hs He Hmk Hop H.
  rewrite (build_unfold bs s pf pc t w Hs He) in H. cbv zeta in H.
  rewrite Hmk, Hop in H. apply pre_inv in H as (T' & _ & ->). by exists T'.
Qed.

Lemma cache_of_spec (bd : path) (fs : FS) (tests : gset string) :
  cache_of bd fs tests ↔
  fs !! bd = Some Dir ∧ (∀ n, fs !! (bd ++ [n]) ≠ Some Dir) ∧
  ∀ n, n ∈ tests ↔ fs !! (bd ++ [n]) = Some File.
Proof.
  unfold cache_of. split.
  - intros [Hd Hc]. split; [done|]. split.
    + intros n. rewrite Hc. by case_decide.
    + intros n. rewrite Hc. by case_decide.
  - intros (Hd & Hnod & Hc). split; [done|]. intros n.
    case_decide as Hin; [by apply Hc|].
    destruct (fs !! (bd ++ [n])) as [[|]|] eqn:E; [|by destruct (Hnod n)|done].
    by apply Hc in E.
Qed.

(** The loop over the packages keeps the binary directory a cache of the
    suite's tests, when the compilations do what is asked of them. *)
Lemma build_pkgs_cache (bs : ptr) (s : benchSuite) (i n : Z) (pkgs : list string)
    (w w' : World Ext) (T : list Event) :
  cache_contract (binDir s) →
  w_heap w !! bs = Some s →
  cache_of (binDir s) (env_fs (w_env w)) (testFiles s) →
  build_pkgs bs i n pkgs w = (Ret None, w', T) →
  ∃ s', w_heap w' !! bs = Some s' ∧ binDir s' = binDir s ∧
        cache_of (binDir s) (env_fs (w_env w')) (testFiles s').
Proof.
  intros (_ & _ & Hbin). revert i s w T Hbin.
  induction pkgs as [|pkg pkgs IH]; intros i s w T Hbin Hs Hc H.
  - injection H as <- <-. by exists s.
  - cbn [build_pkgs] in H. rewrite bind_emit in H.
    apply pre_inv in H as (T1 & H & ->).
    rewrite (bind_load _ s) in H by done. rewrite bind_call in H.
    apply pre_inv in H as (T2 & H & ->).
    destruct (buildTestBin pkg (binDir s) (w_env w)) as [[[testBin ok] [e|]] env1] eqn:Hb;
      cbn [fst snd] in H; [done|].
    destruct (Hbin _ _ _ _ _ Hb) as (Hdir & Hnew & Hold).
    destruct Hc as [Hd Hc]. destruct ok.
    + rewrite (bind_modify _ s) in H by done. cbn [w_env w_heap] in H.
      apply (IH _ (add_testFile testBin s)) in H as (s' & Hs' & Hbd & Hc');
        [by exists s'|done|by cbn [w_heap]; rewrite lookup_insert_eq|].
      cbn [w_env binDir add_testFile testFiles]. split; [by rewrite Hdir|].
      intros m. destruct (decide (m = testBin)) as [->|Hne].
      * rewrite Hnew by done. rewrite decide_True; [done|set_solver].
      * rewrite Hold by (by left). rewrite Hc.
        destruct (decide (m ∈ testFiles s)).
        -- rewrite decide_True; [done|set_solver].
        -- rewrite decide_False; [done|set_solver].
    + rewrite bind_ret in H.
      apply (IH _ s) in H as (s' & Hs' & Hbd & Hc'); [by exists s'|done..|].
      cbn [w_env]. split; [by rewrite Hdir|].
      intros m. rewrite Hold by (by right). apply Hc.
Qed.

(** The build proper, when it returns nil, leaves the binary directory a
    cache of the suite's tests, when nothing was at or below the directory
    before and the collaborators do what is asked of them. *)
Lemma build_miss_cache (bs : ptr) (s : benchSuite) (pf : list string) (pc : string)
    (w w' : World Ext) (T : list Event) :
  cache_contract (binDir s) →
  w_heap w !! bs = Some s → testFiles s = ∅ → binDir s ≠ [] →
  (∀ q, binDir s `prefix_of` q → env_fs (w_env w) !! q = None) →
  build_miss bs pf pc w = (Ret None, w', T) →
  ∃ s', w_heap w' !! bs = Some s' ∧
        cache_of (binDir s) (env_fs (w_env w')) (testFiles s').
Proof.
  intros Hcon Hs He Hbd Hnone H.
  pose proof Hcon as (Hco & Hex & _). unfold build_miss in H.
  rewrite (bind_load _ s) in H by done. rewrite bind_syscall in H.
  apply pre_inv in H as (T1 & H & ->).
  destruct (fs_MkdirAll (binDir s) (env_fs (w_env w))) as [[e|] fs1] eqn:Hmk;
    cbn [fst snd] in H; [done|].
  assert (Hc1 : cache_of (binDir s) fs1 ∅).
  { split; [by apply (fs_MkdirAll_created _ _ _ Hmk)|].
    intros n. rewrite decide_False by set_solver.
    rewrite (fs_MkdirAll_lookup _ _ _ _ _ Hmk); [by apply Hnone, prefix_app_r|].
    intros Hin%dirs_of_length. rewrite length_app in Hin. simpl in Hin. lia. }
  apply defer_inv in H as (o1 & w1 & t1 & o2 & t2 & Hbody & Hd & -> & Ho).
  destruct o2 as [u|m]; [|done]. subst o1.
  cbn [ret] in Hd. assert (w' = w1) as -> by (by injection Hd). clear Hd.
  rewrite (bind_load _ s) in Hbody by done.
  rewrite bind_emit in Hbody. apply pre_inv in Hbody as (T2 & Hbody & ->).
  rewrite bind_call in Hbody. apply pre_inv in Hbody as (T3 & Hbody & ->).
  cbn [w_env w_heap] in Hbody.
  pose proof (Hco (ref s) pc (mkEnv fs1 (env_ext (w_env w)))) as Hco1.
  destruct (checkoutRef _ _ _) as [[e|] env1]; cbn [fst snd] in Hbody, Hco1; [done|].
  rewrite bind_call in Hbody. apply pre_inv in Hbody as (T4 & Hbody & ->).
  cbn [w_env w_heap] in Hbody.
  pose proof (Hex pf env1) as Hex1.
  destruct (expandPackages pf env1) as [[pkgs [e|]] env2]; cbn [fst snd] in Hbody, Hex1;
    [done|].
  rewrite (bind_load _ s) in Hbody by done.
  rewrite bind_emit in Hbody. apply pre_inv in Hbody as (T5 & Hbody & ->).
  apply defer_inv in Hbody as (o3 & w3 & t3 & o4 & t4 & Hpk & Hd & -> & Ho3).
  destruct o4 as [u'|m]; [|done]. subst o3.
  cbn [emit] in Hd. assert (w1 = w3) as -> by (by injection Hd). clear Hd.
  apply bind_pre_inv in Hpk as [(r2 & w4 & t5 & t6 & Hpk & Hk & ->)|(m & Hpk & [=])].
  destruct r2 as [e|]; [done|].
  rewrite bind_emit in Hk. cbn [ret pre] in Hk.
  assert (w3 = w4) as -> by (by injection Hk). clear Hk.
  apply (build_pkgs_cache _ s) in Hpk as (s' & Hs' & _ & Hc'); [by exists s'|done..|].
  cbn [w_env]. rewrite He. destruct Hc1 as [Hd1 Hch1]. split.
  - by rewrite Hex1, Hco1.
  - intros n. rewrite Hex1, Hco1 by (by apply prefix_app_r). apply Hch1.
Qed.

(** C3. When the binary directory exists, build does no checkout, runs no
    hook, expands no package and compiles nothing, and it leaves the
    directory and all below it as they were.  With the artifacts directory
    and the output file made, it reads the directory: with a subdirectory
    in it build returns the unexpected-directory error, and otherwise it
    returns nil and testFiles holds exactly the names of the files in the
    directory.

    Building twice: after a build that returned nil, the binary directory
    is a cache of the suite's testFiles, whether the build found the
    directory or made it (in that case nothing was at or below it before,
    and the collaborators of the rebuild did what is asked of them).  A
    second build of the same ref and scope, on a fresh suite and with the
    cache directory left as it is, does no rebuild step and, with its
    artifacts directory and output file made, returns nil with the same
    testFiles. *)
Theorem build_cache_hit
    (bs : ptr) (s : benchSuite) (pf : list string) (pc : string) (t : Z)
    (w w' : World Ext) (o : Outcome (option error)) (T : list Event) :
  w_heap w !! bs = Some s → testFiles s = ∅ →
  build bs pf pc t w = (o, w', T) →
  let art := testArtifactsDir (ref s) in
  let bd := testBinDir (ref s) pf in
  let out := fun t => filepath_Join art ("out." +:+ time_Format timeFormat t) in
  let fs := env_fs (w_env w) in
  let made := fun (fs0 : FS) (t0 : Z) =>
    ∃ fs1 f fs2, fs_MkdirAll art fs0 = (None, fs1) ∧
                 fs_OpenFile (out t0) fs1 = (f, None, fs2) in
  (fs !! bd = Some Dir →
   Forall (fun e => ¬ is_build_step e) T ∧
   (∀ q, bd `prefix_of` q → env_fs (w_env w') !! q = fs !! q) ∧
   (made fs t →
    ((∀ n, fs !! (bd ++ [n]) ≠ Some Dir) →
     o = Ret None ∧
     ∃ s', w_heap w' !! bs = Some s' ∧
           ∀ n, n ∈ testFiles s' ↔ fs !! (bd ++ [n]) = Some File) ∧
    (∀ n, fs !! (bd ++ [n]) = Some Dir →
     ∃ d, fs !! (bd ++ [d]) = Some Dir ∧
          o = Ret (Some (Errorf "unexpected directory %q" [d]))))) ∧
  (o = Ret None →
   fs !! bd = Some Dir ∨
   (cache_contract bd ∧ ∀ q, bd `prefix_of` q → fs !! q = None) →
   (∃ s', w_heap w' !! bs = Some s' ∧
          cache_of bd (env_fs (w_env w')) (testFiles s')) ∧
   ∀ (bs2 : ptr) (s2 : benchSuite) (pc2 : string) (t2 : Z)
     (w2 w2' : World Ext) o2 T2,
     (∀ q, bd `prefix_of` q → env_fs (w_env w2) !! q = env_fs (w_env w') !! q) →
     w_heap w2 !! bs2 = Some s2 → testFiles s2 = ∅ → ref s2 = ref s →
     build bs2 pf pc2 t2 w2 = (o2, w2', T2) →
     Forall (fun e => ¬ is_build_step e) T2 ∧
     (made (env_fs (w_env w2)) t2 →
      o2 = Ret None ∧
      ∃ s' s2', w_heap w' !! bs = Some s' ∧ w_heap w2' !! bs2 = Some s2' ∧
                testFiles s2' = testFiles s')).
Proof.
  intros Hs He H. cbv zeta.
  assert (Hsteps : ∀ (bs : ptr) (s : benchSuite) pc t (w w' : World Ext) o T,
    w_heap w !! bs = Some s → testFiles s = ∅ →
    env_fs (w_env w) !! testBinDir (ref s) pf = Some Dir →
    build bs pf pc t w = (o, w', T) →
    Forall (fun e => ¬ is_build_step e) T).
  { clear. intros bs s pc t w w' o T Hs He Hhit H.
    apply (build_on_hit _ s) in H; [|done..]. cbv zeta in H.
    destruct H as (_ & [(e & _ & [->| ->])|(-> & _)]);
      repeat constructor; simpl; tauto. }
  (* what a hit gives once the artifacts are made *)
  assert (Hhit : ∀ (bs : ptr) (s : benchSuite) pc t (w w' : World Ext) o T,
    w_heap w !! bs = Some s → testFiles s = ∅ →
    env_fs (w_env w) !! testBinDir (ref s) pf = Some Dir →
    build bs pf pc t w = (o, w', T) →
    (∃ fs1 f fs2,
       fs_MkdirAll (testArtifactsDir (ref s)) (env_fs (w_env w)) = (None, fs1) ∧
       fs_OpenFile (filepath_Join (testArtifactsDir (ref s))
                      ("out." +:+ time_Format timeFormat t)) fs1 = (f, None, fs2)) →
    (o = Ret None ∧ (∀ n, env_fs (w_env w) !! (testBinDir (ref s) pf ++ [n]) ≠ Some Dir) ∧
     ∃ s', w_heap w' !! bs = Some s' ∧
           ∀ n, n ∈ testFiles s'
                ↔ env_fs (w_env w) !! (testBinDir (ref s) pf ++ [n]) = Some File) ∨
    (∃ d, env_fs (w_env w) !! (testBinDir (ref s) pf ++ [d]) = Some Dir ∧
          o = Ret (Some (Errorf "unexpected directory %q" [d])))).
  { clear. intros bs s pc t w w' o T Hs He Hhit H (fs1 & f & fs2 & Hmk & Hop).
    destruct (build_made _ _ _ _ _ _ _ _ _ _ _ _ Hs He Hmk Hop H) as (T' & HT).
    apply (build_on_hit _ s) in H; [|done..]. cbv zeta in H.
    destruct H as (_ & [(e & _ & [->| ->])|(_ & Hres)]); [done..|].
    destruct Hres as [(-> & Hnod & Hs')|Hd]; [left|right]; done. }
  split.
  - intros Hdir. split; [by apply (Hsteps bs s pc t w w' o)|].
    pose proof H as H0.
    apply (build_on_hit _ s) in H; [|done..]. cbv zeta in H.
    destruct H as (Hfr & _). split; [done|].
    intros Hmade.
    destruct (Hhit bs s pc t w w' o T Hs He Hdir H0 Hmade)
      as [(-> & Hnod & Hs')|(d & Hd & ->)].
    + split; [done|]. intros n Hn. by destruct (Hnod n).
    + split; [|by eauto]. intros Hnod. by destruct (Hnod d).
  - intros -> Hfirst.
    assert (Hcache : ∃ s', w_heap w' !! bs = Some s' ∧
              cache_of (testBinDir (ref s) pf) (env_fs (w_env w')) (testFiles s')).
    { destruct Hfirst as [Hdir|[Hcon Hnone]].
      - apply (build_on_hit _ s) in H; [|done..]. cbv zeta in H.
        destruct H as (Hfr & [(e & [=] & _)
                             |(_ & [(_ & Hnod & s' & Hs' & Ht)|(d & _ & [=])])]).
        exists s'. split; [done|]. apply cache_of_spec. split_and!.
        + by rewrite Hfr.
        + intros n. rewrite Hfr by (by apply prefix_app_r). apply Hnod.
        + intros n. rewrite Hfr by (by apply prefix_app_r). apply Ht.
      - apply (build_prologue _ s) in H; [|done..]. cbv zeta in H.
        destruct H as [(e & [=] & _)|(w3 & T3 & Hh & _ & Hfr & -> & H)].
        rewrite (Hnone _ ltac:(done)) in H. destruct H as (e0 & _ & H).
        destruct (os_IsNotExist e0); [|by destruct H as ([=] & _)].
        set (s3 := mkSuite (ref s) (testArtifactsDir (ref s))
                     (Some (filepath_Join (testArtifactsDir (ref s))
                              ("out." +:+ time_Format timeFormat t)))
                     (testBinDir (ref s) pf) ∅) in Hh.
        assert (Hs3 : w_heap w3 !! bs = Some s3).
        { rewrite Hh. apply lookup_insert_eq. }
        assert (Hnone3 : ∀ q, binDir s3 `prefix_of` q → env_fs (w_env w3) !! q = None).
        { intros q Hq. rewrite Hfr by done. by apply Hnone. }
        exact (build_miss_cache bs s3 pf pc w3 w' T3 Hcon Hs3 eq_refl
                 ltac:(done) Hnone3 H). }
    split; [done|]. destruct Hcache as (s' & Hs' & Hc).
    apply cache_of_spec in Hc as (Hd & Hnod & Ht).
    intros bs2 s2 pc2 t2 w2 w2' o2 T2 Hagree Hs2 He2 Hr H2.
    assert (Hhit2 : env_fs (w_env w2) !! testBinDir (ref s2) pf = Some Dir).
    { rewrite Hr, Hagree; done. }
    split; [by apply (Hsteps bs2 s2 pc2 t2 w2 w2' o2)|].
    intros Hmade. rewrite <- Hr in Hmade.
    destruct (Hhit bs2 s2 pc2 t2 w2 w2' o2 T2 Hs2 He2 Hhit2 H2 Hmade)
      as [(-> & _ & s2' & Hs2' & Ht2)|(d & Hd2 & _)].
    + split; [done|]. exists s', s2'. split; [done|]. split; [done|].
      apply set_eq. intros n. rewrite Ht, Ht2, Hr.
      by rewrite Hagree by (by apply prefix_app_r).
    + rewrite Hr, Hagree in Hd2 by (by apply prefix_app_r). by destruct (Hnod d).
Qed.

(** ** The build phase and the checkout it restores *)

(** C7. buildBenches first asks for the symbolic ref that is checked out.
    When there is one, the builds run and then, whatever their outcome (nil,
    an error, a panic), that ref is checked out again: once, as the last
    event, after every event of the builds.  When there is none, the builds
    run and no checkout follows them.  When the question itself fails,
    nothing is built and nothing is checked out. *)
Theorem buildBenches_restores_checkout
    (pf : list string) (pc : string) (bss : list ptr) (w : World Ext) :
  match getCurSymbolicRef (w_env w) with
  | (_, _, Some e, env1) =>
      buildBenches pf pc bss w
      = (Ret (Some e), mkWorld env1 (w_heap w), [EvGetCurSymbolicRef])
  | (r, true, None, env1) =>
      match build_all pf pc bss (mkWorld env1 (w_heap w)) with
      | (o, wb, Tb) =>
          buildBenches pf pc bss w
          = (o, mkWorld (checkoutRef r "" (w_env wb)).2 (w_heap wb),
             [EvGetCurSymbolicRef] ++ Tb ++ [EvCheckoutRef r ""])
      end
  | (_, false, None, env1) =>
      match build_all pf pc bss (mkWorld env1 (w_heap w)) with
      | (o, wb, Tb) =>
          buildBenches pf pc bss w = (o, wb, [EvGetCurSymbolicRef] ++ Tb)
      end
  end.
Proof.
  destruct (getCurSymbolicRef (w_env w)) as [[[r ok] [e|]] env1] eqn:Hsym.
  - assert (buildBenches pf pc bss w
            = (Ret (Some e), mkWorld env1 (w_heap w), [EvGetCurSymbolicRef])) as Hb.
    { unfold buildBenches. rewrite bind_call, Hsym. reflexivity. }
    by destruct ok.
  - destruct ok.
    + destruct (build_all pf pc bss _) as [[o wb] Tb] eqn:Hb.
      unfold buildBenches. rewrite bind_call, Hsym. cbn [fst snd].
      unfold defer. rewrite Hb, bind_call. reflexivity.
    + destruct (build_all pf pc bss _) as [[o wb] Tb] eqn:Hb.
      unfold buildBenches. rewrite bind_call, Hsym. cbn [fst snd].
      by rewrite Hb.
Qed.

(** ** Resolving the refs *)

Lemma parseGitRefs_events (old new : string) (w w' : World Ext) o T :
  parseGitRefs old new w = (o, w', T) →
  Forall is_ref_query T ∧ w_heap w' = w_heap w ∧ ∃ r, o = Ret r.
Proof.
  unfold parseGitRefs. intros H.
  repeat first
    [ rewrite bind_ret in H
    | rewrite bind_call in H; cbn [w_env w_heap fst snd] in H
    | match type of H with
      | pre _ _ = _ => apply pre_inv in H as (? & H & ->)
      | (if ?b then _ else _) _ = _ => destruct b
      | bind (if ?b then _ else _) _ _ = _ => destruct b
      | context [match ?x with (_, _) => _ end] => destruct x
      | context [match ?x with Some _ => _ | None => _ end] => destruct x
      | ret _ _ = _ => injection H as <- <- <-
      end ];
  (split; [repeat constructor|split; [done|by eexists]]).
Qed.

(** C6. parseGitRefs takes newRef as given or, when it is empty, the
    current revision; it shortens this ref and validates the short form, and
    returns the invalid-ref error when the short form is not valid.  Then it
    takes oldRef as given or, when it is empty, the ancestor of the short
    new ref; it shortens and validates it in the same way.  When run gets an
    error from parseGitRefs it returns it at once: the only events are
    questions about refs, and nothing is built. *)
Theorem parseGitRefs_resolves
    (old new : string) (w : World Ext) :
  (∀ (rn n' : string) (e1 e2 e3 : Env Ext) (okn : bool),
    (if bool_decide (new = "")
     then getCurRef (w_env w) = ((rn, None), e1)
     else rn = new ∧ e1 = w_env w) →
    shortenRef rn e1 = (n', e2) →
    checkValidRef n' e2 = ((okn, None), e3) →
    let Tn := (if bool_decide (new = "") then [EvGetCurRef] else [])
              ++ [EvShortenRef rn; EvCheckValidRef n'] in
    (okn = false →
     parseGitRefs old new w
     = (Ret ("", "", Some (Errorf "invalid git ref %q" [n'])),
        mkWorld e3 (w_heap w), Tn)) ∧
    (okn = true →
     ∀ (ro o' : string) (e4 e5 e6 : Env Ext) (oko : bool),
       (if bool_decide (old = "")
        then getPrevRef n' e3 = ((ro, None), e4)
        else ro = old ∧ e4 = e3) →
       shortenRef ro e4 = (o', e5) →
       checkValidRef o' e5 = ((oko, None), e6) →
       let To := (if bool_decide (old = "") then [EvGetPrevRef n'] else [])
                 ++ [EvShortenRef ro; EvCheckValidRef o'] in
       parseGitRefs old new w
       = (Ret (if oko then (o', n', None)
               else ("", "", Some (Errorf "invalid git ref %q" [o']))),
          mkWorld e6 (w_heap w), Tn ++ To))) ∧
  (∀ (fl : Flags) (o' n' : string) (e : error) (w' : World Ext) (T : list Event),
    help fl = false → prArgs fl ≠ [] →
    parseGitRefs (oldRef fl) (newRef fl) w = (Ret (o', n', Some e), w', T) →
    run fl w = (Ret (Some e), w', T) ∧ Forall is_ref_query T).
Proof.
  split.
  - intros rn n' e1 e2 e3 okn Hnew Hsh Hck Tn.
    assert (Hhead : ∀ k : string * option error → M Ext (string * string * option error),
      bind (if bool_decide (new = "")
            then call EvGetCurRef getCurRef else ret (new, None)) k w
      = pre (if bool_decide (new = "") then [EvGetCurRef] else [])
            (k (rn, None) (mkWorld e1 (w_heap w)))).
    { intros k. destruct (bool_decide (new = "")).
      - by rewrite bind_call, Hnew.
      - destruct Hnew as [-> ->]. rewrite bind_ret, pre_nil. by destruct w. }
    split.
    + intros ->. unfold parseGitRefs. rewrite Hhead.
      rewrite bind_call. cbn [w_env w_heap]. rewrite Hsh. cbn [fst snd].
      rewrite bind_call. cbn [w_env w_heap]. rewrite Hck. cbn [fst snd negb].
      rewrite !pre_pre. subst Tn. cbn [ret pre].
      by rewrite ?app_nil_r, <- ?app_assoc.
    + intros -> ro o' e4 e5 e6 oko Hold Hsh' Hck' To.
      unfold parseGitRefs. rewrite Hhead.
      rewrite bind_call. cbn [w_env w_heap]. rewrite Hsh. cbn [fst snd].
      rewrite bind_call. cbn [w_env w_heap]. rewrite Hck. cbn [fst snd negb].
      rewrite !pre_pre.
      assert (Hhead' : ∀ k : string * option error → M Ext (string * string * option error),
        bind (if bool_decide (old = "")
              then call (EvGetPrevRef n') (getPrevRef n') else ret (old, None)) k
             (mkWorld e3 (w_heap w))
        = pre (if bool_decide (old = "") then [EvGetPrevRef n'] else [])
              (k (ro, None) (mkWorld e4 (w_heap w)))).
      { intros k. destruct (bool_decide (old = "")).
        - rewrite bind_call. cbn [w_env w_heap]. by rewrite Hold.
        - destruct Hold as [-> ->]. by rewrite bind_ret, pre_nil. }
      rewrite Hhead'.
      rewrite bind_call. cbn [w_env w_heap]. rewrite Hsh'. cbn [fst snd].
      rewrite bind_call. cbn [w_env w_heap]. rewrite Hck'. cbn [fst snd].
      rewrite !pre_pre. subst Tn To.
      destruct oko; cbn [negb ret pre]; by rewrite ?app_nil_r, <- ?app_assoc.
  - intros fl o' n' e w' T Hh Hargs Hp. split.
    + unfold run. rewrite Hh.
      rewrite bool_decide_eq_false_2 by (by destruct (prArgs fl)).
      unfold bind at 1. rewrite Hp. cbn [pre ret]. by rewrite app_nil_r.
    + by apply parseGitRefs_events in Hp as (? & _).
Qed.

End Proofs.

(** * Further properties *)

(** ** Rules for [obeys] *)

Section ObeysLemmas.
Context {Ext : Type}.
Context (P : Event → Prop) (R : relation (gmap ptr benchSuite)).
Context `{!Reflexive R, !Transitive R}.

Lemma obeys_ret {A : Type} (a : A) : obeys (Ext := Ext) P R (ret a).
Proof. intros w o w' T [= <- <- <-]. by split. Qed.

Lemma obeys_panic {A : Type} (msg : string) : obeys (Ext := Ext) (A := A) P R (panic msg).
Proof. intros w o w' T [= <- <- <-]. by split. Qed.

Lemma obeys_emit (e : Event) : P e → obeys (Ext := Ext) P R (emit e).
Proof. intros He w o w' T [= <- <- <-]. split; [by repeat constructor|done]. Qed.

Lemma obeys_call {A : Type} (e : Event) (f : Env Ext → A * Env Ext) :
  P e → obeys P R (call e f).
Proof.
  intros He w o w' T. unfold call. destruct (f (w_env w)) as [a env'].
  intros [= <- <- <-]. split; [by repeat constructor|done].
Qed.

Lemma obeys_syscall {A : Type} (e : Event) (f : FS → A * FS) :
  P e → obeys (Ext := Ext) P R (syscall e f).
Proof. intros He. unfold syscall. by apply obeys_call. Qed.

Lemma obeys_load (bs : ptr) : obeys (Ext := Ext) P R (load bs).
Proof.
  intros w o w' T. unfold load.
  destruct (w_heap w !! bs); intros [= <- <- <-]; by split.
Qed.

Lemma obeys_modify (bs : ptr) (f : benchSuite → benchSuite) :
  (∀ h s, h !! bs = Some s → R h (<[bs := f s]> h)) →
  obeys (Ext := Ext) P R (modify bs f).
Proof.
  intros Hf w o w' T. unfold modify.
  destruct (w_heap w !! bs) as [s|] eqn:Hs; intros [= <- <- <-]; split; try done.
  by apply Hf.
Qed.

Lemma obeys_bind {A B : Type} (m : M Ext A) (k : A → M Ext B) :
  obeys P R m → (∀ a, obeys P R (k a)) → obeys P R (bind m k).
Proof.
  intros Hm Hk w o w' T H.
  apply bind_pre_inv in H as [(a & w1 & t1 & t2 & Ha & Hb & ->)|(msg & Ha & ->)].
  - apply Hm in Ha as [HP1 HR1]. apply Hk in Hb as [HP2 HR2].
    split; [by apply Forall_app|by etrans].
  - by apply Hm in Ha.
Qed.

Lemma obeys_defer {A : Type} (d : Outcome A → M Ext unit) (body : M Ext A) :
  (∀ o, obeys P R (d o)) → obeys P R body → obeys P R (defer d body).
Proof.
  intros Hd Hb w o w' T. unfold defer.
  destruct (body w) as [[o1 w1] t1] eqn:Hbody.
  destruct (d o1 w1) as [[o2 w2] t2] eqn:Hdef.
  apply Hb in Hbody as [HP1 HR1]. apply Hd in Hdef as [HP2 HR2].
  destruct o2; intros [= <- <- <-]; (split; [by apply Forall_app|by etrans]).
Qed.

End ObeysLemmas.

Section HeapRelations.

Global Instance heap_only_refl (bs : ptr) : Reflexive (heap_only bs).
Proof. by intros h. Qed.

Global Instance heap_only_trans (bs : ptr) : Transitive (heap_only bs).
Proof.
  intros h1 h2 h3 [Ha1 Hb1] [Ha2 Hb2]. split.
  - intros p Hp. by rewrite Ha2, Ha1.
  - auto.
Qed.

Lemma heap_only_insert (bs : ptr) (s : benchSuite) (h : gmap ptr benchSuite) :
  heap_only bs h (<[bs := s]> h).
Proof.
  split.
  - intros p Hp. by rewrite lookup_insert_ne.
  - intros _. rewrite lookup_insert_eq. by eexists.
Qed.

Global Instance same_paths_refl : Reflexive same_paths.
Proof. by intros s. Qed.

Global Instance same_paths_trans : Transitive same_paths.
Proof.
  intros s1 s2 s3 (? & ? & ? & ? & ?) (? & ? & ? & ? & ?).
  split_and!; try congruence. set_solver.
Qed.

Global Instance grows_at_refl (bs : ptr) : Reflexive (grows_at bs).
Proof. intros h. split; [done|]. intros s Hs. by exists s. Qed.

Global Instance grows_at_trans (bs : ptr) : Transitive (grows_at bs).
Proof.
  intros h1 h2 h3 [Ha1 Hb1] [Ha2 Hb2]. split.
  - intros p Hp. by rewrite Ha2, Ha1.
  - intros s Hs. destruct (Hb1 s Hs) as (s2 & Hs2 & Hp2).
    destruct (Hb2 s2 Hs2) as (s3 & Hs3 & Hp3). exists s3. split; [done|].
    by etrans.
Qed.

Lemma grows_at_add (bs : ptr) (n : string) (s : benchSuite)
    (h : gmap ptr benchSuite) :
  h !! bs = Some s → grows_at bs h (<[bs := add_testFile n s]> h).
Proof.
  intros Hs. split.
  - intros p Hp. by rewrite lookup_insert_ne.
  - intros s0 Hs0. rewrite lookup_insert_eq. eexists. split; [done|].
    assert (s0 = s) as -> by congruence.
    unfold same_paths, add_testFile. simpl. split_and!; try done. set_solver.
Qed.
End HeapRelations.

Section More.
Context {Ext : Type} `{!Collaborators Ext}.

(** Walks through the body of a function, one rule of [obeys] a step. *)
Ltac obeys_step :=
  match goal with
  | |- obeys _ _ (bind _ _) => apply obeys_bind; try apply _; [|intros ?]
  | |- obeys _ _ (ret _) => apply obeys_ret; apply _
  | |- obeys _ _ (panic _) => apply obeys_panic; apply _
  | |- obeys _ _ (emit _) => apply obeys_emit; try apply _; exact I
  | |- obeys _ _ (call _ _) => apply obeys_call; try apply _; exact I
  | |- obeys _ _ (syscall _ _) => apply obeys_syscall; try apply _; exact I
  | |- obeys _ _ (load _) => apply obeys_load; apply _
  | |- obeys _ _ (defer _ _) => apply obeys_defer; try apply _; [intros ?|]
  | |- obeys _ _ (match ?x with _ => _ end) => destruct x
  | |- obeys _ _ (let _ := _ in _) => cbv zeta
  end.

Lemma register_cached_grows (bs : ptr) (files : list FileInfo) :
  obeys (Ext := Ext) is_build_event (grows_at bs) (register_cached bs files).
Proof.
  induction files as [|[n nd] files IH]; cbn [register_cached fst snd].
  - obeys_step.
  - destruct nd; [|obeys_step].
    obeys_step; [|done].
    apply obeys_modify; try apply _. intros hh ss Hss. by apply grows_at_add.
Qed.

Lemma build_pkgs_grows (bs : ptr) (i n : Z) (pkgs : list string) :
  obeys is_build_event (grows_at bs) (build_pkgs bs i n pkgs).
Proof.
  revert i. induction pkgs as [|pkg pkgs IH]; intros i; cbn [build_pkgs].
  - obeys_step.
  - repeat obeys_step; try done.
    apply obeys_modify; try apply _. intros hh ss Hss. by apply grows_at_add.
Qed.

Lemma build_miss_grows (bs : ptr) (pf : list string) (pc : string) :
  obeys is_build_event (grows_at bs) (build_miss bs pf pc).
Proof.
  unfold build_miss. repeat obeys_step; try apply build_pkgs_grows.
Qed.

Lemma obeys_relax {A : Type} (P : Event → Prop)
    (R R' : relation (gmap ptr benchSuite)) (m : M Ext A) :
  (∀ h h', R h h' → R' h h') → obeys P R m → obeys P R' m.
Proof. intros HRR Hm w o w' T H. apply Hm in H as [HP HR]. auto. Qed.

Lemma grows_at_heap_only (bs : ptr) (h h' : gmap ptr benchSuite) :
  grows_at bs h h' → heap_only bs h h'.
Proof.
  intros [Ha Hb]. split; [done|]. intros [s Hs].
  destruct (Hb s Hs) as (s' & Hs' & _). by eexists.
Qed.

(** build does nothing but the events of a build, and it changes no suite
    but its own. *)
Lemma build_obeys (bs : ptr) (pf : list string) (pc : string) (t : Z) :
  obeys is_build_event (heap_only bs) (build bs pf pc t).
Proof.
  unfold build, getOutputFile.
  repeat obeys_step;
    try (apply obeys_modify; try apply _; intros; apply heap_only_insert).
  - apply (obeys_relax _ (grows_at bs)); [apply grows_at_heap_only|].
    apply build_miss_grows.
  - apply (obeys_relax _ (grows_at bs)); [apply grows_at_heap_only|].
    apply register_cached_grows.
Qed.

(** ** The suite after a build *)

(** What build leaves in the heap. *)
Lemma build_suite_after
    (bs : ptr) (s : benchSuite) (pf : list string) (pc : string) (t : Z)
    (w w' : World Ext) (o : Outcome (option error)) (T : list Event) :
  w_heap w !! bs = Some s → testFiles s = ∅ →
  build bs pf pc t w = (o, w', T) →
  Forall is_build_event T ∧
  (∀ p, p ≠ bs → w_heap w' !! p = w_heap w !! p) ∧
  (o = Ret None →
   ∃ s', w_heap w' !! bs = Some s' ∧
         ref s' = ref s ∧
         artDir s' = testArtifactsDir (ref s) ∧
         outFile s' = Some (filepath_Join (testArtifactsDir (ref s))
                              ("out." +:+ time_Format timeFormat t)) ∧
         binDir s' = testBinDir (ref s) pf).
Proof.
  intros Hs He H.
  destruct (build_obeys bs pf pc t _ _ _ _ H) as [HP [Hframe _]].
  split; [done|]. split; [done|]. intros ->.
  apply (build_prologue _ s) in H; [|done..]. cbv zeta in H.
  destruct H as [(e & [=] & _)|(w3 & T3 & Hh & _ & _ & _ & H)].
  assert (Hs3 : w_heap w3 !! bs
                = Some (mkSuite (ref s) (testArtifactsDir (ref s))
                          (Some (filepath_Join (testArtifactsDir (ref s))
                                   ("out." +:+ time_Format timeFormat t)))
                          (testBinDir (ref s) pf) ∅)).
  { rewrite Hh. apply lookup_insert_eq. }
  assert (Hgrow : grows_at bs (w_heap w3) (w_heap w')).
  { destruct (env_fs (w_env w) !! testBinDir (ref s) pf).
    - destruct H as (T4 & _ & H).
      destruct (fs_ReadDir _ _) as [files [e|]].
      + by destruct H as ([=] & _).
      + by apply register_cached_grows in H as [_ ?].
    - destruct H as (e & _ & H). destruct (os_IsNotExist e).
      + by apply build_miss_grows in H as [_ ?].
      + by destruct H as ([=] & _). }
  destruct Hgrow as [_ Hat]. destruct (Hat _ Hs3) as (s' & Hs' & Hp).
  destruct Hp as (Hr & Ha & Ho & Hb & _). simpl in *.
  exists s'. by split_and!.
Qed.

(** X1. Whatever build returns, its events are those of a build (no
    benchmark is run, nothing is reported or closed) and no other suite in
    the heap has changed.  When build returns nil, the suite has its ref as
    before and its artifacts directory, output file and binary directory are
    the ones build computes from the ref, the time and the package filter. *)
Theorem build_sets_up_suite
    (bs : ptr) (s : benchSuite) (pf : list string) (pc : string) (t : Z)
    (w w' : World Ext) (o : Outcome (option error)) (T : list Event) :
  w_heap w !! bs = Some s → testFiles s = ∅ →
  build bs pf pc t w = (o, w', T) →
  Forall is_build_event T ∧
  (∀ p, p ≠ bs → w_heap w' !! p = w_heap w !! p) ∧
  (o = Ret None →
   ∃ s', w_heap w' !! bs = Some s' ∧
         ref s' = ref s ∧
         artDir s' = testArtifactsDir (ref s) ∧
         outFile s' = Some (filepath_Join (testArtifactsDir (ref s))
                              ("out." +:+ time_Format timeFormat t)) ∧
         binDir s' = testBinDir (ref s) pf).
Proof. apply build_suite_after. Qed.

(** ** The packages a build compiles *)

Ltac solve_Forall :=
  repeat first
    [ assumption
    | apply Forall_app; split
    | constructor; [done|]
    | constructor ].

Lemma build_pkgs_order (bs : ptr) (s : benchSuite) (i n : Z) (pkgs : list string)
    (w w' : World Ext) o T :
  w_heap w !! bs = Some s →
  build_pkgs bs i n pkgs w = (o, w', T) →
  omap compiled T `prefix_of` pkgs ∧
  (o = Ret None → omap compiled T = pkgs) ∧
  Forall (into (binDir s)) T.
Proof.
  revert i s w T. induction pkgs as [|pkg pkgs IH]; intros i s w T Hs H.
  - injection H as <- <- <-. split_and!; [done|done|constructor].
  - cbn [build_pkgs] in H. rewrite bind_emit in H.
    apply pre_inv in H as (T1 & H & ->).
    rewrite (bind_load _ s) in H by done. rewrite bind_call in H.
    apply pre_inv in H as (T2 & H & ->).
    rewrite !omap_app. cbn [omap list_omap compiled app].
    destruct (buildTestBin pkg (binDir s) (w_env w)) as [[[testBin ok] [e|]] env1];
      cbn [fst snd] in H.
    { injection H as <- <- <-. split_and!.
      - apply prefix_cons, prefix_nil.
      - done.
      - by repeat constructor. }
    assert (Hrest : ∃ s1, binDir s1 = binDir s ∧
              build_pkgs bs (i + 1) n pkgs
                (mkWorld env1 (<[bs := s1]> (w_heap w))) = (o, w', T2)).
    { destruct ok.
      - rewrite (bind_modify _ s) in H by done. by exists (add_testFile testBin s).
      - rewrite bind_ret in H. exists s. split; [done|].
        cbn [w_heap w_env] in *. by rewrite insert_id. }
    destruct Hrest as (s1 & Hb & Hrest).
    apply (IH _ s1) in Hrest as (Hpre & Hall & Hinto);
      [|by cbn [w_heap]; rewrite lookup_insert_eq].
    split_and!.
    + by apply prefix_cons.
    + intros Ho. by rewrite (Hall Ho).
    + rewrite Hb in Hinto. by repeat constructor.
Qed.

Lemma build_miss_compiles (bs : ptr) (s : benchSuite) (pf : list string)
    (pc : string) (w w' : World Ext) o T :
  w_heap w !! bs = Some s →
  build_miss bs pf pc w = (o, w', T) →
  Forall (into (binDir s)) T ∧
  ∃ env, omap compiled T `prefix_of` (expandPackages pf env).1.1 ∧
         (o = Ret None →
          (expandPackages pf env).1.2 = None ∧
          omap compiled T = (expandPackages pf env).1.1).
Proof.
  intros Hs H. unfold build_miss in H.
  rewrite (bind_load _ s) in H by done. rewrite bind_syscall in H.
  apply pre_inv in H as (T1 & H & ->).
  destruct (fs_MkdirAll (binDir s) (env_fs (w_env w))) as [[e|] fs1] eqn:Hmk;
    cbn [fst snd] in H.
  { injection H as <- <- <-. split; [by repeat constructor|].
    exists (w_env w). split; [apply prefix_nil|done]. }
  unfold defer in H.
  match type of H with context [bind (load bs) ?k ?w0] =>
    destruct (bind (load bs) k w0) as [[o1 w1] t1] eqn:Hbody end.
  assert (Hdef : (o = Ret None → o1 = Ret None) ∧ ∃ t2, T1 = t1 ++ t2 ∧
                   (t2 = [] ∨ ∃ p, t2 = [EvRemoveAll p])).
  { destruct o1 as [[e|]|msg].
    - unfold bind, load, syscall, call in H.
      destruct (w_heap w1 !! bs); cbn [fst snd pre] in H; injection H as <- <- <-.
      + split; [done|]. eexists. split; [done|]. right. by eexists.
      + split; [done|]. exists []. by split; [|left].
    - cbn [ret] in H. injection H as <- <- <-. split; [done|]. exists [].
      by split; [|left].
    - cbn [ret] in H. injection H as <- <- <-. split; [done|]. exists [].
      by split; [|left]. }
  destruct Hdef as (Ho1 & t2 & -> & Ht2). clear H.
  assert (Htail : omap compiled t2 = [] ∧ Forall (into (binDir s)) t2).
  { destruct Ht2 as [->|[p ->]]; split; by repeat constructor. }
  destruct Htail as [Hc2 Hi2].
  rewrite (bind_load _ s) in Hbody by done.
  rewrite bind_emit in Hbody. apply pre_inv in Hbody as (T2 & Hbody & ->).
  rewrite bind_call in Hbody. apply pre_inv in Hbody as (T3 & Hbody & ->).
  cbn [w_env w_heap] in Hbody.
  rewrite !omap_app, Hc2. cbn [omap list_omap compiled app]. rewrite app_nil_r.
  destruct (checkoutRef _ _ _) as [[e|] env1]; cbn [fst snd] in Hbody.
  { injection Hbody as <- <- <-. split; [solve_Forall|].
    exists (w_env w). split; [apply prefix_nil|].
    intros Ho. by specialize (Ho1 Ho). }
  rewrite bind_call in Hbody. apply pre_inv in Hbody as (T4 & Hbody & ->).
  cbn [w_env w_heap] in Hbody.
  rewrite !omap_app. cbn [omap list_omap compiled app].
  destruct (expandPackages pf env1) as [[pkgs [e|]] env2] eqn:Hexp;
    cbn [fst snd] in Hbody.
  { injection Hbody as <- <- <-. split; [solve_Forall|].
    exists (w_env w). split; [apply prefix_nil|].
    intros Ho. by specialize (Ho1 Ho). }
  rewrite (bind_load _ s) in Hbody by done.
  rewrite bind_emit in Hbody. apply pre_inv in Hbody as (T5 & Hbody & ->).
  match type of Hbody with context [bind (build_pkgs ?a ?b ?c ?d) ?k ?w0] =>
    destruct (bind (build_pkgs a b c d) k w0) as [[o2 w2] t3] eqn:Hpk end.
  cbn [emit] in Hbody. injection Hbody as <- <- <-.
  rewrite !omap_app. cbn [omap list_omap compiled app]. rewrite app_nil_r.
  assert (Hloop : Forall (into (binDir s)) t3 ∧
                  omap compiled t3 `prefix_of` pkgs ∧
                  (o2 = Ret None → omap compiled t3 = pkgs)).
  { apply bind_pre_inv in Hpk as [(r2 & w3 & t4 & t5 & Hpk & Hk & ->)|(msg & Hpk & ->)].
    - apply (build_pkgs_order _ s) in Hpk as (Hpre & Hall & Hinto); [|done].
      destruct r2 as [e|].
      + injection Hk as <- <- <-. rewrite app_nil_r. by split_and!.
      + rewrite bind_emit in Hk. cbn [ret pre] in Hk. injection Hk as <- <- <-.
        rewrite omap_app. cbn [omap list_omap compiled]. rewrite app_nil_r.
        split_and!; [|done|by intros _; apply Hall].
        apply Forall_app. split; [done|by repeat constructor].
    - apply (build_pkgs_order _ s) in Hpk as (Hpre & Hall & Hinto); [|done].
      by split_and!. }
  destruct Hloop as (Hinto & Hpre & Hall). split; [solve_Forall|].
  exists env1. rewrite Hexp. cbn [fst snd]. split; [done|].
  intros Ho. split; [done|by apply Hall, Ho1].
Qed.

(** X2. Every compilation of build goes into the binary directory of the
    suite.  The packages build compiles are a first part of the packages
    that expandPackages returned, in the same order; when build returns nil
    after a cache miss they are all of them, each compiled once. *)
Theorem build_compiles_expanded_packages
    (bs : ptr) (s : benchSuite) (pf : list string) (pc : string) (t : Z)
    (w w' : World Ext) (o : Outcome (option error)) (T : list Event) :
  w_heap w !! bs = Some s → testFiles s = ∅ →
  build bs pf pc t w = (o, w', T) →
  Forall (into (testBinDir (ref s) pf)) T ∧
  ∃ env, omap compiled T `prefix_of` (expandPackages pf env).1.1 ∧
         (o = Ret None → env_fs (w_env w) !! testBinDir (ref s) pf = None →
          (expandPackages pf env).1.2 = None ∧
          omap compiled T = (expandPackages pf env).1.1).
Proof.
  intros Hs He H.
  apply (build_prologue _ s) in H; [|done..]. cbv zeta in H.
  destruct H as [(e & -> & HT & _)|(w3 & T3 & Hh & _ & _ & -> & H)].
  { destruct HT as [->| ->]; (split; [solve_Forall|]);
      exists (w_env w); (split; [apply prefix_nil|done]). }
  destruct (env_fs (w_env w) !! testBinDir (ref s) pf) as [nd|] eqn:Hbd.
  - destruct H as (T4 & -> & H).
    assert (T4 = []) as ->.
    { destruct (fs_ReadDir _ _) as [files [e|]]; [by destruct H as (_ & _ & ->)|].
      eapply register_cached_inv in H as (-> & _); [done|].
      rewrite Hh. apply lookup_insert_eq. }
    split; [solve_Forall|]. exists (w_env w). split; [apply prefix_nil|done].
  - destruct H as (e0 & _ & H). destruct (os_IsNotExist e0).
    2: { destruct H as (-> & -> & ->). split; [solve_Forall|].
         exists (w_env w). split; [apply prefix_nil|done]. }
    eapply build_miss_compiles in H; [|by rewrite Hh; apply lookup_insert_eq].
    cbn [binDir] in H. destruct H as (Hinto & env & Hpre & Hall).
    split; [solve_Forall|]. exists env.
    rewrite omap_app. cbn [omap list_omap compiled app]. split; [done|].
    intros Ho _. by apply Hall.
Qed.

(** ** Suites keep their ref *)

Global Instance ref_kept_refl (bs : ptr) : Reflexive (ref_kept bs).
Proof. intros h. split; [done|]. intros s Hs. by exists s. Qed.

Global Instance ref_kept_trans (bs : ptr) : Transitive (ref_kept bs).
Proof.
  intros h1 h2 h3 [Ha1 Hb1] [Ha2 Hb2]. split.
  - intros p Hp. by rewrite Ha2, Ha1.
  - intros s Hs. destruct (Hb1 s Hs) as (s2 & Hs2 & Hr2).
    destruct (Hb2 s2 Hs2) as (s3 & Hs3 & Hr3). exists s3. split; [done|congruence].
Qed.

Lemma ref_kept_insert (bs : ptr) (f : benchSuite → benchSuite)
    (h : gmap ptr benchSuite) (s : benchSuite) :
  (∀ s, ref (f s) = ref s) → h !! bs = Some s → ref_kept bs h (<[bs := f s]> h).
Proof.
  intros Hf Hs. split.
  - intros p Hp. by rewrite lookup_insert_ne.
  - intros s0 Hs0. rewrite lookup_insert_eq. eexists. split; [done|].
    rewrite Hf. congruence.
Qed.

Lemma grows_at_ref_kept (bs : ptr) (h h' : gmap ptr benchSuite) :
  grows_at bs h h' → ref_kept bs h h'.
Proof.
  intros [Ha Hb]. split; [done|]. intros s Hs.
  destruct (Hb s Hs) as (s' & Hs' & Hr & _). by exists s'.
Qed.

(** build does nothing but the events of a build; it changes no suite but
    its own, and that one keeps its ref. *)
Lemma build_keeps_ref (bs : ptr) (pf : list string) (pc : string) (t : Z) :
  obeys is_build_event (ref_kept bs) (build bs pf pc t).
Proof.
  unfold build, getOutputFile.
  repeat obeys_step;
    try (apply obeys_modify; try apply _; intros; by apply ref_kept_insert).
  - apply (obeys_relax _ (grows_at bs)); [apply grows_at_ref_kept|].
    apply build_miss_grows.
  - apply (obeys_relax _ (grows_at bs)); [apply grows_at_ref_kept|].
    apply register_cached_grows.
Qed.

(** ** The events of each phase *)

Lemma parseGitRefs_obeys (old new : string) :
  obeys is_ref_query eq (parseGitRefs old new).
Proof. unfold parseGitRefs. repeat obeys_step. Qed.

Lemma runSingleBench_obeys (bs : ptr) (test : string) :
  obeys is_run_event eq (runSingleBench bs test).
Proof. unfold runSingleBench, getTestBinary. repeat obeys_step. Qed.

Lemma run_iters_obeys (bs1 bs2 : ptr) (t pkg pkgFrac : string) (n j : Z)
    (todo : nat) :
  obeys is_run_event eq (run_iters bs1 bs2 t pkg pkgFrac n j todo).
Proof.
  revert j. induction todo as [|todo IH]; intros j; cbn [run_iters].
  - obeys_step.
  - repeat obeys_step; first [apply runSingleBench_obeys | apply IH].
Qed.

Lemma run_tests_obeys (bs1 bs2 : ptr) (len n i : Z) (tests : list string) :
  obeys is_run_event eq (run_tests bs1 bs2 len n i tests).
Proof.
  revert i. induction tests as [|t tests IH]; intros i; cbn [run_tests].
  - obeys_step.
  - repeat obeys_step; first [apply run_iters_obeys | apply IH].
Qed.

Lemma runbenchcmpes_obeys (bs1 bs2 : ptr) (tests : list string) (n : Z) :
  obeys is_run_event eq (runbenchcmpes bs1 bs2 tests n).
Proof. unfold runbenchcmpes. repeat obeys_step. apply run_tests_obeys. Qed.

Lemma processBenchOutput_obeys (bs1 bs2 : ptr) (pf : list string)
    (srv : option Service) :
  obeys is_report_event eq (processBenchOutput bs1 bs2 pf srv).
Proof. unfold processBenchOutput. repeat obeys_step. Qed.


(** ** One comparison, and the report *)

(** X3. runbenchcmp runs the old suite's binary for the test and then the new
    suite's.  When the answer of spawnWith to the old run is fatal, the new
    binary is not run and an error is returned; when it is not, the new
    binary is run, and an error is returned exactly when its answer is
    fatal.  The suites are left as they were, and an error comes right
    after the run that failed. *)
Theorem runbenchcmp_old_then_new
    (bs1 bs2 : ptr) (old new : benchSuite) (test : string)
    (w w' : World Ext) (o : Outcome (option error)) (T : list Event) :
  w_heap w !! bs1 = Some old → w_heap w !! bs2 = Some new →
  runbenchcmp bs1 bs2 test w = (o, w', T) →
  let first := spawn_of old test (w_env w) in
  let second := spawn_of new test first.2 in
  w_heap w' = w_heap w ∧
  (fatal first.1 = true →
   bench_runs T = [run_of old test] ∧ w_env w' = first.2 ∧
   ∃ e, o = Ret (Some e)) ∧
  (fatal first.1 = false →
   bench_runs T = [run_of old test; run_of new test] ∧ w_env w' = second.2 ∧
   if fatal second.1 then ∃ e, o = Ret (Some e) else o = Ret None) ∧
  ∃ r, o = Ret r ∧
       (r = None → bench_runs T = [run_of old test; run_of new test]) ∧
       (∀ e, r = Some e →
             (bench_runs T = [run_of old test] ∨
              bench_runs T = [run_of old test; run_of new test]) ∧
             ∃ T0 out args, T = T0 ++ [EvSpawnWith out args]) ∧
       (spawn_benign → r = None).
Proof.
  intros H1 H2 H. cbv zeta. unfold runbenchcmp in H.
  apply bind_pre_inv in H as [(r1 & w1 & t1 & t2 & Ha & H & ->)|(msg & Ha & ->)].
  2: { apply (runSingleBench_inv _ old) in Ha as (_ & _ & r & [=] & _); done. }
  pose proof (runSingleBench_spawn _ _ _ _ _ _ _ H1 Ha) as (_ & He1 & _ & Hf1).
  apply (runSingleBench_inv _ old) in Ha as (Hh1 & Hr1 & r & [= ->] & Hlast1 & Hb1);
    [|done].
  destruct r as [e|].
  - injection H as <- <- <-. rewrite app_nil_r.
    assert (Hfat : fatal (spawn_of old test (w_env w)).1 = true).
    { destruct (fatal _); [done|]. by injection Hf1. }
    split; [done|]. split; [intros _; split_and!; try done; by exists e|].
    split; [intros Hn; by rewrite Hfat in Hn|].
    exists (Some e). split_and!; try done.
    intros e' _. split; [by left|].
    destruct (Hlast1 e eq_refl) as (T0 & args & ->). by eexists _, _, _.
  - assert (Hfat : fatal (spawn_of old test (w_env w)).1 = false).
    { destruct (fatal _); [|done]. by destruct Hf1 as [e [=]]. }
    rewrite <- Hh1 in H2.
    pose proof (runSingleBench_spawn _ _ _ _ _ _ _ H2 H) as (_ & He2 & _ & Hf2).
    apply (runSingleBench_inv _ new) in H as (Hh2 & Hr2 & r & -> & Hlast2 & Hb2);
      [|done].
    rewrite bench_runs_app, Hr1, Hr2. rewrite He1 in He2, Hf2.
    split; [congruence|]. split; [intros Hn; by rewrite Hfat in Hn|].
    split; [intros _; by split_and!|].
    exists r. split_and!; try done.
    intros e He. split; [by right|].
    destruct (Hlast2 e He) as (T0 & args & ->).
    exists (t1 ++ T0), (outFile new), args. by rewrite app_assoc.
Qed.

(** What processBenchOutput does. *)
Lemma processBenchOutput_inv
    (bs1 bs2 : ptr) (old new : benchSuite) (pf : list string)
    (srv : option Service) (w w' : World Ext) (o : Outcome (option error))
    (T : list Event) :
  w_heap w !! bs1 = Some old → w_heap w !! bs2 = Some new →
  processBenchOutput bs1 bs2 pf srv w = (o, w', T) →
  w_heap w' = w_heap w ∧
  ∃ T1, T = [EvSeek (outFile old); EvSeek (outFile new);
             EvBenchstat (outFile old) (outFile new)] ++ T1 ∧
        match srv with
        | None => o = Ret None ∧ ∃ text, T1 = [EvStdout text]
        | Some _ =>
            let name := "benchcmp: " +:+ String.concat " " pf
                        +:+ " (" +:+ ref old +:+ " -> " +:+ ref new +:+ ")" in
            (∃ e, o = Ret (Some e) ∧ T1 = [EvCreateSheet name]) ∨
            (∃ url, o = Ret None ∧
                    T1 = [EvCreateSheet name;
                          EvStdout ("generated sheet: " +:+ url +:+ nl)])
        end.
Proof.
  intros H1 H2 H.
  split; [by apply processBenchOutput_obeys in H as [_ ?]|].
  unfold processBenchOutput in H.
  rewrite (bind_load _ old) in H by done. rewrite bind_emit in H.
  rewrite (bind_load _ new) in H by done. rewrite bind_emit in H.
  rewrite bind_call in H. rewrite !pre_pre in H.
  apply pre_inv in H as (T1 & H & ->). exists T1. split; [done|].
  destruct srv as [sv|].
  - rewrite bind_call in H. cbn [w_env w_heap] in H.
    destruct (srv_CreateSheet _ _ _ _) as [[url [e|]] env2]; cbn [fst snd] in H.
    + injection H as <- <- <-. left. by exists e.
    + rewrite bind_emit in H. cbn [pre ret] in H. injection H as <- <- <-.
      right. by exists url.
  - rewrite bind_emit in H. cbn [pre ret] in H. injection H as <- <- <-.
    split; [done|]. by eexists.
Qed.

(** X4. processBenchOutput rewinds the old and the new output file and then
    lets benchstat read them, in this order.  Without a sheets service it
    prints the text of the tables benchstat has made and returns nil.  With
    one it asks the service for a sheet of these tables, named after the
    package filter and the two refs: when the service returns an error,
    that error is returned and nothing is printed; otherwise the address
    the service returned is printed and nil is returned.  The suites are
    left as they were. *)
Theorem processBenchOutput_reports
    (bs1 bs2 : ptr) (old new : benchSuite) (pf : list string)
    (srv : option Service) (w w' : World Ext) (o : Outcome (option error))
    (T : list Event) :
  w_heap w !! bs1 = Some old → w_heap w !! bs2 = Some new →
  processBenchOutput bs1 bs2 pf srv w = (o, w', T) →
  let tables := benchstat_Tables (outFile old) (outFile new) (w_env w) in
  let name := "benchcmp: " +:+ String.concat " " pf
              +:+ " (" +:+ ref old +:+ " -> " +:+ ref new +:+ ")" in
  let head := [EvSeek (outFile old); EvSeek (outFile new);
               EvBenchstat (outFile old) (outFile new)] in
  w_heap w' = w_heap w ∧
  match srv with
  | None =>
      o = Ret None ∧ w_env w' = tables.2 ∧
      T = head ++ [EvStdout (benchstat_FormatText tables.1)]
  | Some sv =>
      let sheet := srv_CreateSheet sv name tables.1 tables.2 in
      w_env w' = sheet.2 ∧
      match sheet.1.2 with
      | Some e => o = Ret (Some e) ∧ T = head ++ [EvCreateSheet name]
      | None =>
          o = Ret None ∧
          T = head ++ [EvCreateSheet name;
                       EvStdout ("generated sheet: " +:+ sheet.1.1 +:+ nl)]
      end
  end.
Proof.
  intros H1 H2 H. cbv zeta.
  split; [by apply processBenchOutput_obeys in H as [_ ?]|].
  unfold processBenchOutput in H.
  rewrite (bind_load _ old) in H by done. rewrite bind_emit in H.
  rewrite (bind_load _ new) in H by done. rewrite bind_emit in H.
  rewrite bind_call in H. rewrite !pre_pre in H.
  apply pre_inv in H as (T1 & H & ->).
  destruct srv as [sv|].
  - rewrite bind_call in H. cbn [w_env w_heap] in H.
    destruct (srv_CreateSheet _ _ _ _) as [[url [e|]] env2]; cbn [fst snd] in H |- *.
    + by injection H as <- <- <-.
    + rewrite bind_emit in H. cbn [pre ret] in H. by injection H as <- <- <-.
  - rewrite bind_emit in H. cbn [pre ret] in H. by injection H as <- <- <-.
Qed.

(** ** The build phase of run *)

Lemma is_build_event_phase (e : Event) : is_build_event e → is_build_phase_event e.
Proof. by destruct e. Qed.

(** The builds of two fresh suites at different addresses: no panic, only
    build events, no other suite changed, and the two suites keep their
    refs; after a nil return both have the paths of a built suite. *)
Lemma build_each_two (po pn : ptr) (so sn : benchSuite) (pf : list string)
    (pc : string) (now : Z) (w w' : World Ext) o T :
  po ≠ pn →
  w_heap w !! po = Some so → testFiles so = ∅ →
  w_heap w !! pn = Some sn → testFiles sn = ∅ →
  build_each [po; pn] pf pc now w = (o, w', T) →
  ∃ r, o = Ret r ∧ Forall is_build_event T ∧
       (∀ p, p ≠ po → p ≠ pn → w_heap w' !! p = w_heap w !! p) ∧
       ∃ so' sn', w_heap w' !! po = Some so' ∧ w_heap w' !! pn = Some sn' ∧
                  ref so' = ref so ∧ ref sn' = ref sn ∧
                  (r = None → built pf (ref so) so' ∧ built pf (ref sn) sn').
Proof.
  intros Hne Ho Heo Hn Hen H. cbn [build_each] in H.
  apply bind_pre_inv in H as [(r1 & w1 & t1 & t2 & Ha & H & ->)|(msg & Ha & ->)].
  2: { by apply (build_returns _ so) in Ha as (r & [=]). }
  pose proof (build_keeps_ref _ _ _ _ _ _ _ _ Ha) as (HP1 & Hfr1 & Hat1).
  destruct (Hat1 _ Ho) as (so1 & Ho1 & Hro1).
  pose proof (build_suite_after _ so _ _ _ _ _ _ _ Ho Heo Ha) as (_ & _ & Hb1).
  assert (Hn1 : w_heap w1 !! pn = Some sn) by (by rewrite Hfr1).
  destruct r1 as [e|].
  { injection H as <- <- <-. exists (Some e). rewrite app_nil_r.
    split_and!; try done.
    - intros p Hp _. by apply Hfr1.
    - by exists so1, sn. }
  destruct (Hb1 eq_refl) as (so1' & Ho1' & Hbo1 & Hbo2 & Hbo3 & Hbo4).
  assert (so1' = so1) as -> by congruence.
  apply bind_pre_inv in H as [(r2 & w2 & t3 & t4 & Hb & H & ->)|(msg & Hb & ->)].
  2: { by apply (build_returns _ sn) in Hb as (r & [=]). }
  pose proof (build_keeps_ref _ _ _ _ _ _ _ _ Hb) as (HP2 & Hfr2 & Hat2).
  destruct (Hat2 _ Hn1) as (sn2 & Hn2 & Hrn2).
  pose proof (build_suite_after _ sn _ _ _ _ _ _ _ Hn1 Hen Hb) as (_ & _ & Hb2).
  assert (Ho2 : w_heap w2 !! po = Some so1) by (by rewrite Hfr2).
  assert (Hres : o = Ret r2 ∧ w' = w2 ∧ t4 = []).
  { destruct r2; by injection H as <- <- <-. }
  destruct Hres as (-> & -> & ->). exists r2. rewrite app_nil_r.
  split_and!; try done.
  - by apply Forall_app.
  - intros p Hp Hp'. by rewrite Hfr2, Hfr1.
  - exists so1, sn2. split_and!; try done. intros ->.
    destruct (Hb2 eq_refl) as (sn2' & Hn2' & Hbn1 & Hbn2 & Hbn3 & Hbn4).
    assert (sn2' = sn2) as -> by congruence.
    split; (split_and!; [done..|by eexists]).
Qed.

Lemma buildBenches_two (po pn : ptr) (so sn : benchSuite) (pf : list string)
    (pc : string) (w w' : World Ext) o T :
  po ≠ pn →
  w_heap w !! po = Some so → testFiles so = ∅ →
  w_heap w !! pn = Some sn → testFiles sn = ∅ →
  buildBenches pf pc [po; pn] w = (o, w', T) →
  ∃ r, o = Ret r ∧ Forall is_build_phase_event T ∧
       (∀ p, p ≠ po → p ≠ pn → w_heap w' !! p = w_heap w !! p) ∧
       ∃ so' sn', w_heap w' !! po = Some so' ∧ w_heap w' !! pn = Some sn' ∧
                  ref so' = ref so ∧ ref sn' = ref sn ∧
                  (r = None → built pf (ref so) so' ∧ built pf (ref sn) sn').
Proof.
  intros Hne Ho Heo Hn Hen H.
  assert (Hall : ∀ env (w1 : World Ext) o1 T1,
    build_all pf pc [po; pn] (mkWorld env (w_heap w)) = (o1, w1, T1) →
    ∃ r, o1 = Ret r ∧ Forall is_build_phase_event T1 ∧
       (∀ p, p ≠ po → p ≠ pn → w_heap w1 !! p = w_heap w !! p) ∧
       ∃ so' sn', w_heap w1 !! po = Some so' ∧ w_heap w1 !! pn = Some sn' ∧
                  ref so' = ref so ∧ ref sn' = ref sn ∧
                  (r = None → built pf (ref so) so' ∧ built pf (ref sn) sn')).
  { intros env w1 o1 T1 Hb. unfold build_all in Hb. rewrite bind_call in Hb.
    apply pre_inv in Hb as (T2 & Hb & ->). cbn [w_env w_heap] in Hb.
    apply (build_each_two po pn so sn) in Hb
      as (r & -> & HP & Hfr & Hs); [|done..].
    exists r. split_and!; try done.
    apply Forall_app. split; [by repeat constructor|].
    eapply Forall_impl; [done|]. apply is_build_event_phase. }
  unfold buildBenches in H. rewrite bind_call in H.
  apply pre_inv in H as (T1 & H & ->).
  destruct (getCurSymbolicRef (w_env w)) as [[[r ok] [e|]] env1]; cbn [fst snd] in H.
  { injection H as <- <- <-. exists (Some e). split_and!; try done.
    - by repeat constructor.
    - by exists so, sn. }
  destruct ok.
  - unfold defer in H.
    destruct (build_all pf pc [po; pn] _) as [[o1 w1] t1] eqn:Hb.
    apply Hall in Hb as (r1 & -> & HP & Hfr & Hs).
    rewrite bind_call in H. cbn [pre ret] in H. injection H as <- <- <-.
    exists r1. split_and!; try done.
    apply Forall_app. split; [by repeat constructor|].
    apply Forall_app. split; [done|by repeat constructor].
  - apply Hall in H as (r1 & -> & HP & Hfr & Hs).
    exists r1. split_and!; try done.
    apply Forall_app. split; [by repeat constructor|done].
Qed.

Lemma run_body_inv (fl : Flags) (pf : list string) (srv : option Service)
    (po pn : ptr) (so sn : benchSuite) (w w' : World Ext) o T :
  po ≠ pn →
  w_heap w !! po = Some so → testFiles so = ∅ →
  w_heap w !! pn = Some sn → testFiles sn = ∅ →
  run_body fl pf srv po pn w = (o, w', T) →
  ∃ r Tb Tr Tp so' sn',
    o = Ret r ∧ T = Tb ++ Tr ++ Tp ∧
    Forall is_build_phase_event Tb ∧ Forall is_run_event Tr ∧
    Forall is_report_event Tp ∧
    (∀ p, p ≠ po → p ≠ pn → w_heap w' !! p = w_heap w !! p) ∧
    w_heap w' !! po = Some so' ∧ w_heap w' !! pn = Some sn' ∧
    ref so' = ref so ∧ ref sn' = ref sn ∧
    bench_runs Tr `prefix_of`
      schedule so' sn' (sorted (testFiles so' ∩ testFiles sn'))
               (Z.to_nat (itersPerTest fl)) ∧
    (Tr ≠ [] → built pf (ref so) so' ∧ built pf (ref sn) sn') ∧
    (Tp ≠ [] →
     bench_runs Tr = schedule so' sn' (sorted (testFiles so' ∩ testFiles sn'))
                              (Z.to_nat (itersPerTest fl))) ∧
    (r = None → Tr ≠ [] ∧ Tp ≠ []) ∧
    (srv = None → Forall (fun e => ¬ is_sheet_event e) Tp).
Proof.
  intros Hne Ho Heo Hn Hen H. unfold run_body in H.
  apply bind_pre_inv in H as [(r1 & w1 & t1 & t2 & Ha & H & ->)|(msg & Ha & ->)].
  2: { by apply (buildBenches_two po pn so sn) in Ha as (r & [=] & _). }
  apply (buildBenches_two po pn so sn) in Ha
    as (r & [= ->] & HPb & Hfr & so' & sn' & Ho' & Hn' & Hro & Hrn & Hbuilt);
    [|done..].
  destruct r as [e|].
  { injection H as <- <- <-. exists (Some e), t1, [], [], so', sn'.
    split_and!; try done. apply prefix_nil. }
  destruct (Hbuilt eq_refl) as [Hbo Hbn].
  unfold intersectTests in H. rewrite bind_bind in H.
  rewrite (bind_load _ so') in H by done. rewrite bind_bind in H.
  rewrite (bind_load _ sn') in H by done. rewrite bind_ret in H.
  rewrite intersect_spec in H.
  apply bind_pre_inv in H as [(r2 & w2 & t3 & t4 & Hb & H & ->)|(msg & Hb & ->)].
  2: { by apply (runbenchcmpes_inv _ _ so' sn') in Hb as (_ & r & [=] & _). }
  pose proof (runbenchcmpes_obeys _ _ _ _ _ _ _ _ Hb) as [HPr _].
  assert (Hstart : t3 ≠ []).
  { unfold runbenchcmpes in Hb. rewrite bind_emit in Hb.
    apply pre_inv in Hb as (? & _ & ->). done. }
  apply (runbenchcmpes_inv _ _ so' sn') in Hb
    as (Hh2 & r & [= ->] & Hpre & Hallr & _ & _); [|done..].
  rewrite <- Hh2 in Ho', Hn', Hfr.
  destruct r as [e|].
  { injection H as <- <- <-. exists (Some e), t1, t3, [], so', sn'.
    split_and!; try done. }
  pose proof (processBenchOutput_obeys _ _ _ _ _ _ _ _ H) as [HPp Hh3].
  apply (processBenchOutput_inv _ _ so' sn') in H as (_ & T1 & -> & Hsrv); [|done..].
  assert (∃ r, o = Ret r) as [r ->].
  { destruct srv; [destruct Hsrv as [(e & -> & _)|(url & -> & _)]|
                   destruct Hsrv as (-> & _)]; by eexists. }
  rewrite Hh3 in Ho', Hn', Hfr.
  exists r, t1, t3, ([EvSeek (outFile so'); EvSeek (outFile sn');
                      EvBenchstat (outFile so') (outFile sn')] ++ T1), so', sn'.
  split_and!; try done; [intros _; by apply Hallr|].
  intros ->. destruct Hsrv as (_ & text & ->). repeat constructor; by intros [].
Qed.

(** ** run and main *)

Lemma bind_alloc {B : Type} (s : benchSuite) (k : ptr → M Ext B) (w : World Ext) :
  bind (alloc s) k w
  = k (fresh (dom (w_heap w)))
      (mkWorld (w_env w) (<[fresh (dom (w_heap w)) := s]> (w_heap w))).
Proof. unfold bind, alloc. apply pre_nil. Qed.

Lemma run_unfold (fl : Flags) :
  help fl = false → prArgs fl ≠ [] →
  run fl
  = (let! '(oldRef, newRef, err) := parseGitRefs (oldRef fl) (newRef fl) in
     match err with
     | Some e => ret (Some e)
     | None =>
     let! '(srv, err) :=
       (if useSheets fl then call EvGoogleNew google_New else ret (None, None)) in
     match err with
     | Some e => ret (Some e)
     | None => run_suites fl (sort_Strings (prArgs fl)) srv oldRef newRef
     end end).
Proof.
  intros Hh Ha. unfold run. rewrite Hh.
  rewrite bool_decide_eq_false_2; [done|]. by destruct (prArgs fl).
Qed.

Lemma run_suites_inv (fl : Flags) (pf : list string) (srv : option Service)
    (ro rn : string) (w w' : World Ext) (o : Outcome (option error))
    (T : list Event) :
  run_suites fl pf srv ro rn w = (o, w', T) →
  ∃ r Tb Tr Tp po pn so sn,
    o = Ret r ∧
    T = Tb ++ Tr ++ Tp ++ [EvClose (outFile sn); EvClose (outFile so)] ∧
    Forall is_build_phase_event Tb ∧
    Forall is_run_event Tr ∧
    Forall is_report_event Tp ∧
    po ≠ pn ∧ w_heap w !! po = None ∧ w_heap w !! pn = None ∧
    (∀ p, p ≠ po → p ≠ pn → w_heap w' !! p = w_heap w !! p) ∧
    w_heap w' !! po = Some so ∧ w_heap w' !! pn = Some sn ∧
    ref so = ro ∧ ref sn = rn ∧
    bench_runs Tr `prefix_of`
      schedule so sn (sorted (testFiles so ∩ testFiles sn))
               (Z.to_nat (itersPerTest fl)) ∧
    (Tr ≠ [] → built pf ro so ∧ built pf rn sn) ∧
    (Tp ≠ [] →
     bench_runs Tr = schedule so sn (sorted (testFiles so ∩ testFiles sn))
                              (Z.to_nat (itersPerTest fl))) ∧
    (r = None → Tr ≠ [] ∧ Tp ≠ []) ∧
    (srv = None → Forall (fun e => ¬ is_sheet_event e) Tp).
Proof.
  intros H. unfold run_suites in H. rewrite !bind_alloc in H. cbn [w_heap w_env] in H.
  set (po := fresh (dom (w_heap w))) in *.
  set (h1 := <[po := makeBenchSuite ro]> (w_heap w)) in *.
  set (pn := fresh (dom h1)) in *.
  assert (Hpo : w_heap w !! po = None).
  { apply not_elem_of_dom. apply is_fresh. }
  assert (Hpn1 : h1 !! pn = None).
  { apply not_elem_of_dom. apply is_fresh. }
  assert (Hne : po ≠ pn).
  { intros E. rewrite <- E in Hpn1. unfold h1 in Hpn1.
    by rewrite lookup_insert_eq in Hpn1. }
  assert (Hpn : w_heap w !! pn = None).
  { unfold h1 in Hpn1. by rewrite lookup_insert_ne in Hpn1. }
  unfold defer in H.
  destruct (run_body fl pf srv po pn _) as [[ob wb] tb] eqn:Hb.
  apply (run_body_inv _ _ _ _ _ (makeBenchSuite ro) (makeBenchSuite rn)) in Hb;
    [|done|cbn [w_heap]; unfold h1; by rewrite lookup_insert_ne, lookup_insert_eq|done
     |cbn [w_heap]; by rewrite lookup_insert_eq|done].
  destruct Hb as (r & Tb & Tr & Tp & so & sn & -> & -> & HTb & HTr & HTp & Hfr
                  & Ho & Hn & Hro & Hrn & Hpre & Hbuilt & Hfull & Hok & Hsrv).
  cbn [w_heap] in Hfr.
  unfold close in H. rewrite (bind_load _ sn) in H by done.
  unfold emit in H. cbn [w_heap] in H.
  rewrite (bind_load _ so) in H by done.
  injection H as <- <- <-.
  exists r, Tb, Tr, Tp, po, pn, so, sn.
  split_and!; try done.
  - by rewrite <- !app_assoc.
  - intros p H1 H2. rewrite Hfr by done.
    unfold h1. by rewrite !lookup_insert_ne.
Qed.

Lemma run_help_inv (fl : Flags) (w : World Ext) :
  help fl = true ∨ prArgs fl = [] →
  run fl w = (Ret None, w, [EvStderr (usage +:+ nl); EvStderr nl;
                             EvStderr (helpString +:+ nl)]).
Proof.
  intros [Hh| Ha]; unfold run.
  - by rewrite Hh.
  - rewrite Ha. by destruct (help fl).
Qed.

(** run after the flags: the questions about the refs, the Google service
    when asked for, and then the suites. *)
Lemma run_inv (fl : Flags) (w w' : World Ext) (o : Outcome (option error))
    (T : list Event) :
  help fl = false → prArgs fl ≠ [] →
  run fl w = (o, w', T) →
  ∃ r ro rn eq wq Tq Tg Ts,
    o = Ret r ∧
    parseGitRefs (oldRef fl) (newRef fl) w = (Ret (ro, rn, eq), wq, Tq) ∧
    T = Tq ++ Tg ++ Ts ∧
    Forall is_ref_query Tq ∧ Forall is_google_event Tg ∧
    (useSheets fl = false → Tg = []) ∧
    ((r ≠ None ∧ Ts = [] ∧ w_heap w' = w_heap w) ∨
     (eq = None ∧
      ∃ srv w2, w_heap w2 = w_heap w ∧ (useSheets fl = false → srv = None) ∧
                run_suites fl (sort_Strings (prArgs fl)) srv ro rn w2
                = (Ret r, w', Ts))).
Proof.
  intros Hh Ha H. rewrite run_unfold in H by done.
  apply bind_pre_inv in H as [(x & wq & Tq & t2 & Hp & H & ->)|(msg & Hp & ->)].
  2: { apply parseGitRefs_events in Hp as (_ & _ & r & [=]). }
  pose proof (parseGitRefs_events _ _ _ _ _ _ Hp) as (HTq & Hhq & _).
  destruct x as [[ro rn] [e|]].
  { injection H as <- <- <-. exists (Some e), ro, rn, (Some e), wq, Tq, [], [].
    split_and!; try done. left. by split_and!. }
  destruct (useSheets fl) eqn:Hu.
  - rewrite bind_call in H. apply pre_inv in H as (t3 & H & ->).
    destruct (google_New (w_env wq)) as [[srv [e|]] env2]; cbn [fst snd] in H.
    + injection H as <- <- <-.
      exists (Some e), ro, rn, None, wq, Tq, [EvGoogleNew], [].
      split_and!; try done; [by repeat constructor|]. left. by split_and!.
    + assert (Ho : ∃ r, o = Ret r).
      { apply run_suites_inv in H as (r & _ & _ & _ & _ & _ & _ & _ & -> & _).
        by eexists. }
      destruct Ho as (r & ->).
      exists r, ro, rn, None, wq, Tq, [EvGoogleNew], t3.
      split_and!; try done; [by repeat constructor|]. right. split; [done|].
      by exists srv, (mkWorld env2 (w_heap wq)).
  - rewrite bind_ret in H.
    assert (Ho : ∃ r, o = Ret r).
    { apply run_suites_inv in H as (r & _ & _ & _ & _ & _ & _ & _ & -> & _).
      by eexists. }
    destruct Ho as (r & ->).
    exists r, ro, rn, None, wq, Tq, [], t2.
    split_and!; try done. right. split; [done|]. by exists None, wq.
Qed.

(** X5. run never panics, so that main ends with status 0 when run returns
    nil and with status 1, after the fatal message as its last event, when
    run returns an error; status 2 is never reached. *)
Theorem main_exit_status (fl : Flags) (w : World Ext) :
  ∃ (r : option error) (w' : World Ext) (T : list Event),
    run fl w = (Ret r, w', T) ∧
    main fl w = match r with
                | None => (0, w', T)
                | Some e => (1, w', T ++ [EvFatal e])
                end.
Proof.
  assert (Hrun : ∃ r w' T, run fl w = (Ret r, w', T)).
  { destruct (help fl) eqn:Hh.
    { eexists _, _, _. apply run_help_inv. by left. }
    destruct (prArgs fl) as [|a args] eqn:Ha.
    { eexists _, _, _. apply run_help_inv. by right. }
    destruct (run fl w) as [[o w'] T] eqn:H.
    apply run_inv in H as (r & _ & _ & _ & _ & _ & _ & _ & -> & _);
      [|done|by rewrite Ha].
    by exists r, w', T. }
  destruct Hrun as (r & w' & T & H). exists r, w', T. split; [done|].
  unfold main. rewrite H. by destruct r.
Qed.

Lemma bench_runs_none (P : Event → Prop) (T : list Event) :
  (∀ e, P e → bench_run e = None) → Forall P T → bench_runs T = [].
Proof.
  intros HP HT. induction HT as [|e T He _ IH]; [done|].
  unfold bench_runs in *. cbn [omap list_omap]. by rewrite (HP e He), IH.
Qed.

(** X6. After the flags, the events of run come in phases, in this order:
    the questions about the refs, the connection to the Google service,
    the build phase, the benchmark runs, the report, and the closing of the
    output files.  So nothing is checked out or compiled once a benchmark
    has run, and the report reads the output only after the last run.  A
    run that returns nil has gone through the runs and the report and has
    closed two files. *)
Theorem run_phases (fl : Flags) (w w' : World Ext) (o : Outcome (option error))
    (T : list Event) :
  help fl = false → prArgs fl ≠ [] →
  run fl w = (o, w', T) →
  ∃ Tq Tg Tb Tr Tp Tc,
    T = Tq ++ Tg ++ Tb ++ Tr ++ Tp ++ Tc ∧
    Forall is_ref_query Tq ∧ Forall is_google_event Tg ∧
    Forall is_build_phase_event Tb ∧ Forall is_run_event Tr ∧
    Forall is_report_event Tp ∧ Forall is_close_event Tc ∧
    (o = Ret None → Tr ≠ [] ∧ Tp ≠ [] ∧ length Tc = 2%nat).
Proof.
  intros Hh Ha H.
  apply run_inv in H; [|done..].
  destruct H as (r & ro & rn & eq & wq & Tq & Tg & Ts & -> & _ & -> & HTq & HTg
                 & _ & [(Hr & -> & _)|(-> & srv & w2 & _ & _ & H)]).
  { exists Tq, Tg, [], [], [], []. split_and!; try done. by intros [= ->]. }
  apply run_suites_inv in H.
  destruct H as (r' & Tb & Tr & Tp & po & pn & so & sn & [= <-] & -> & HTb & HTr
                 & HTp & _ & _ & _ & _ & _ & _ & _ & _ & _ & _ & _ & Hok & _).
  exists Tq, Tg, Tb, Tr, Tp, [EvClose (outFile sn); EvClose (outFile so)].
  split_and!; try done; [by repeat constructor|].
  intros [= ->]. destruct Hok as [? ?]; done.
Qed.

(** X7. Once the build phase of run has begun, run ends by closing the output
    file of the new suite and then that of the old suite, whatever it
    returns; these are its last two events and the only closes.  The two
    suites are new in the heap and carry the refs parseGitRefs returned. *)
Theorem run_closes_output_files (fl : Flags) (w w' : World Ext)
    (o : Outcome (option error)) (T : list Event) :
  run fl w = (o, w', T) →
  Exists is_build_phase_event T →
  ∃ po pn so sn wq Tq T0,
    po ≠ pn ∧ w_heap w !! po = None ∧ w_heap w !! pn = None ∧
    w_heap w' !! po = Some so ∧ w_heap w' !! pn = Some sn ∧
    parseGitRefs (oldRef fl) (newRef fl) w = (Ret (ref so, ref sn, None), wq, Tq) ∧
    T = T0 ++ [EvClose (outFile sn); EvClose (outFile so)] ∧
    Forall (fun e => ¬ is_close_event e) T0.
Proof.
  intros H Hex.
  assert (Hflags : help fl = false ∧ prArgs fl ≠ []).
  { destruct (help fl) eqn:Hh.
    { rewrite run_help_inv in H by (by left). injection H as <- <- <-.
      apply Exists_exists in Hex as (e & He & HP). exfalso.
      repeat (apply elem_of_cons in He as [->|He]; [done|]).
      by apply elem_of_nil in He. }
    split; [done|]. intros Ha.
    rewrite run_help_inv in H by (by right). injection H as <- <- <-.
    apply Exists_exists in Hex as (e & He & HP).
    repeat (apply elem_of_cons in He as [->|He]; [done|]).
    by apply elem_of_nil in He. }
  destruct Hflags as [Hh Ha].
  apply run_inv in H; [|done..].
  destruct H as (r & ro & rn & eq & wq & Tq & Tg & Ts & -> & Hp & -> & HTq & HTg
                 & _ & [(Hr & -> & _)|(-> & srv & w2 & Hh2 & _ & H)]).
  { exfalso. rewrite app_nil_r in Hex.
    apply Exists_app in Hex as [Hex|Hex]; apply Exists_exists in Hex as (e & He & HP).
    - rewrite Forall_forall in HTq. specialize (HTq e He). by destruct e.
    - rewrite Forall_forall in HTg. specialize (HTg e He). by destruct e. }
  apply run_suites_inv in H.
  destruct H as (r' & Tb & Tr & Tp & po & pn & so & sn & [= <-] & -> & HTb & HTr
                 & HTp & Hne & Hpo & Hpn & _ & Hso & Hsn & <- & <- & _).
  rewrite Hh2 in Hpo, Hpn.
  exists po, pn, so, sn, wq, Tq, (Tq ++ Tg ++ Tb ++ Tr ++ Tp).
  split_and!; try done.
  - by rewrite <- !app_assoc.
  - rewrite !Forall_app. split_and!;
      (eapply Forall_impl; [eassumption|]); intros e He;
      destruct e; try done; by intros [].
Qed.

(** X8. A run that returns nil has built both suites for the refs
    parseGitRefs returned, with the sorted package arguments as the filter,
    and its benchmark runs are exactly the interleaved schedule of the
    tests both suites have, in sorted order, each itersPerTest times. *)
Theorem run_success_schedule (fl : Flags) (w w' : World Ext) (T : list Event) :
  help fl = false → prArgs fl ≠ [] →
  run fl w = (Ret None, w', T) →
  ∃ po pn so sn wq Tq,
    parseGitRefs (oldRef fl) (newRef fl) w = (Ret (ref so, ref sn, None), wq, Tq) ∧
    w_heap w' !! po = Some so ∧ w_heap w' !! pn = Some sn ∧
    built (sort_Strings (prArgs fl)) (ref so) so ∧
    built (sort_Strings (prArgs fl)) (ref sn) sn ∧
    bench_runs T = schedule so sn (sorted (testFiles so ∩ testFiles sn))
                            (Z.to_nat (itersPerTest fl)).
Proof.
  intros Hh Ha H.
  apply run_inv in H; [|done..].
  destruct H as (r & ro & rn & eq & wq & Tq & Tg & Ts & [= <-] & Hp & -> & HTq & HTg
                 & _ & [(Hr & _)|(-> & srv & w2 & Hh2 & _ & H)]); [done|].
  apply run_suites_inv in H.
  destruct H as (r' & Tb & Tr & Tp & po & pn & so & sn & [= <-] & -> & HTb & HTr
                 & HTp & Hne & Hpo & Hpn & _ & Hso & Hsn & <- & <- & _ & Hbuilt
                 & Hfull & Hok & _).
  destruct (Hok eq_refl) as [HTr0 HTp0]. destruct (Hbuilt HTr0) as [Hbo Hbn].
  exists po, pn, so, sn, wq, Tq. split_and!; try done.
  rewrite !bench_runs_app, (Hfull HTp0).
  rewrite (bench_runs_none is_ref_query Tq), (bench_runs_none is_google_event Tg),
    (bench_runs_none is_build_phase_event Tb), (bench_runs_none is_report_event Tp);
    try done; try (intros e He; by destruct e).
  by rewrite app_nil_r.
Qed.

(** X9. Without the sheets flag run never reaches the Google service: no
    service is created and no sheet is made, whatever else happens. *)
Theorem run_without_sheets (fl : Flags) (w w' : World Ext)
    (o : Outcome (option error)) (T : list Event) :
  useSheets fl = false →
  run fl w = (o, w', T) →
  Forall (fun e => ¬ is_sheet_event e) T.
Proof.
  intros Hu H.
  destruct (help fl) eqn:Hh.
  { rewrite run_help_inv in H by (by left). injection H as <- <- <-.
    repeat constructor; by intros []. }
  destruct (decide (prArgs fl = [])) as [Ha|Ha].
  { rewrite run_help_inv in H by (by right). injection H as <- <- <-.
    repeat constructor; by intros []. }
  apply run_inv in H; [|done..].
  destruct H as (r & ro & rn & eq & wq & Tq & Tg & Ts & -> & Hp & -> & HTq & HTg
                 & HTg0 & Hrest).
  rewrite (HTg0 Hu). cbn [app].
  assert (HQ : Forall (fun e => ¬ is_sheet_event e) Tq).
  { eapply Forall_impl; [exact HTq|]. intros e He; destruct e; try done; by intros []. }
  destruct Hrest as [(_ & -> & _)|(-> & srv & w2 & _ & Hsrv & H)].
  { by rewrite app_nil_r. }
  apply run_suites_inv in H.
  destruct H as (r' & Tb & Tr & Tp & po & pn & so & sn & [= <-] & -> & HTb & HTr
                 & HTp & _ & _ & _ & _ & _ & _ & _ & _ & _ & _ & _ & _ & HTps).
  rewrite !Forall_app. split_and!; try done.
  - eapply Forall_impl; [exact HTb|]. intros e He; destruct e; try done; by intros [].
  - eapply Forall_impl; [exact HTr|]. intros e He; destruct e; try done; by intros [].
  - by apply HTps, Hsrv.
  - repeat constructor; by intros [].
Qed.

(** ** Edges of the runner and of build *)

Lemma run_tests_no_iterations (bs1 bs2 : ptr) (len n i : Z) (tests : list string)
    (w : World Ext) :
  n ≤ 0 →
  run_tests bs1 bs2 len n i tests w
  = (Ret None, w, replicate (length tests) (EvStdout nl)).
Proof.
  intros Hn. revert i. induction tests as [|t tests IH]; intros i; [done|].
  cbn [run_tests]. cbv zeta.
  replace (Z.to_nat n) with 0%nat by lia. cbn [run_iters].
  rewrite bind_ret, bind_emit, IH. reflexivity.
Qed.

(** X10. With an iteration count of zero or less runbenchcmpes runs no
    benchmark binary for any list of tests: it prints the heading, starts
    the spinner, prints one empty line per test, stops the spinner and
    returns nil; the world is as before, and the suites are not even read. *)
Theorem runbenchcmpes_no_iterations
    (bs1 bs2 : ptr) (tests : list string) (n : Z) (w : World Ext) :
  n ≤ 0 →
  runbenchcmpes bs1 bs2 tests n w
  = (Ret None, w,
     [EvStdout (nl +:+ "running benchmarks:" +:+ nl); EvSpinnerStart ""]
     ++ replicate (length tests) (EvStdout nl) ++ [EvSpinnerStop]).
Proof.
  intros Hn. unfold runbenchcmpes. rewrite !bind_emit.
  unfold defer. rewrite run_tests_no_iterations by done. reflexivity.
Qed.

(** X11. When the path of the binary directory is taken by a regular file,
    build takes it for a cache, announces that it skips the build, and then
    fails to read it: it returns an error, nothing is checked out or
    compiled, and the file is still there, so the next build fails in the
    same way. *)
Theorem build_binDir_is_a_file
    (bs : ptr) (s : benchSuite) (pf : list string) (pc : string) (t : Z)
    (w w' : World Ext) (o : Outcome (option error)) (T : list Event) :
  w_heap w !! bs = Some s → testFiles s = ∅ →
  env_fs (w_env w) !! testBinDir (ref s) pf = Some File →
  build bs pf pc t w = (o, w', T) →
  let art := testArtifactsDir (ref s) in
  let bd := testBinDir (ref s) pf in
  let out := filepath_Join art ("out." +:+ time_Format timeFormat t) in
  env_fs (w_env w') !! bd = Some File ∧
  Forall (fun e => ¬ is_build_step e) T ∧
  ∃ e, o = Ret (Some e) ∧
       (T = [EvMkdirAll art] ∨ T = [EvMkdirAll art; EvOpenFile out] ∨
        (T = [EvMkdirAll art; EvOpenFile out; EvStat bd;
              EvStdout ("test binaries already exist for '" +:+ ref s
                        +:+ "'; skipping build" +:+ nl);
              EvReadDir bd] ∧
         e = PathError "readdir" bd false)).
Proof.
  intros Hs He Hfile H. cbv zeta.
  apply (build_prologue _ s) in H; [|done..]. cbv zeta in H.
  destruct H as [(e & -> & HT & _ & Hfr)|(w3 & T3 & Hh & _ & Hfr & -> & H)].
  { split_and!.
    - by rewrite Hfr.
    - destruct HT as [->| ->]; repeat constructor; by intros [].
    - exists e. split; [done|]. destruct HT as [->| ->]; auto. }
  rewrite Hfile in H. destruct H as (T4 & -> & H).
  unfold fs_ReadDir in H. rewrite Hfr, Hfile in H by done.
  destruct H as (-> & -> & ->).
  split_and!.
  - by rewrite Hfr.
  - repeat constructor; by intros [].
  - eexists. split; [done|]. right. right. by split.
Qed.

(** The builds of two fresh suites, in order: when the first build does
    not return nil, its outcome is returned and the second suite is not
    touched; after a nil return the output files of both are named after
    the one time given. *)
Lemma build_each_in_order (po pn : ptr) (so sn : benchSuite) (pf : list string)
    (pc : string) (now : Z) (w w' : World Ext) o T :
  po ≠ pn →
  w_heap w !! po = Some so → testFiles so = ∅ →
  w_heap w !! pn = Some sn → testFiles sn = ∅ →
  build_each [po; pn] pf pc now w = (o, w', T) →
  ∃ so' sn', w_heap w' !! po = Some so' ∧ w_heap w' !! pn = Some sn' ∧
    (outcome_of (build po pf pc now w) ≠ Ret None →
     o = outcome_of (build po pf pc now w) ∧ sn' = sn) ∧
    (o = Ret None →
     outFile so' = Some (filepath_Join (testArtifactsDir (ref so))
                           ("out." +:+ time_Format timeFormat now)) ∧
     outFile sn' = Some (filepath_Join (testArtifactsDir (ref sn))
                           ("out." +:+ time_Format timeFormat now))).
Proof.
  intros Hne Ho Heo Hn Hen H. cbn [build_each] in H.
  apply bind_pre_inv in H as [(r1 & w1 & t1 & t2 & Ha & H & ->)|(msg & Ha & ->)].
  2: { by apply (build_returns _ so) in Ha as (r & [=]). }
  pose proof (build_keeps_ref _ _ _ _ _ _ _ _ Ha) as (HP1 & Hfr1 & Hat1).
  destruct (Hat1 _ Ho) as (so1 & Ho1 & Hro1).
  pose proof (build_suite_after _ so _ _ _ _ _ _ _ Ho Heo Ha) as (_ & _ & Hb1).
  assert (Hn1 : w_heap w1 !! pn = Some sn) by (by rewrite Hfr1).
  unfold outcome_of. rewrite Ha. cbn [fst].
  destruct r1 as [e|].
  { injection H as <- <- <-. exists so1, sn. by split_and!. }
  destruct (Hb1 eq_refl) as (so1' & Ho1' & Hbo1 & Hbo2 & Hbo3 & Hbo4).
  assert (so1' = so1) as -> by congruence.
  apply bind_pre_inv in H as [(r2 & w2 & t3 & t4 & Hb & H & ->)|(msg & Hb & ->)].
  2: { by apply (build_returns _ sn) in Hb as (r & [=]). }
  pose proof (build_keeps_ref _ _ _ _ _ _ _ _ Hb) as (HP2 & Hfr2 & Hat2).
  destruct (Hat2 _ Hn1) as (sn2 & Hn2 & Hrn2).
  pose proof (build_suite_after _ sn _ _ _ _ _ _ _ Hn1 Hen Hb) as (_ & _ & Hb2).
  assert (Ho2 : w_heap w2 !! po = Some so1) by (by rewrite Hfr2).
  assert (Hres : o = Ret r2 ∧ w' = w2 ∧ t4 = []).
  { destruct r2; by injection H as <- <- <-. }
  destruct Hres as (-> & -> & ->).
  exists so1, sn2. split_and!; try done.
  intros [= ->]. split; [done|].
  destruct (Hb2 eq_refl) as (sn2' & Hn2' & _ & _ & Hbn3 & _).
  assert (sn2' = sn2) as -> by congruence. done.
Qed.

(** X12. buildBenches first asks for the checked-out ref and returns at once
    when that fails.  Otherwise it reads the clock once, before any build,
    and builds the suites in the order given, each with the time it has
    read: when the build of the old suite does not return nil, buildBenches
    returns what that build returned and the new suite is not touched; and
    after a nil return the output files of both suites are named after
    the time the clock returned. *)
Theorem buildBenches_one_clock (po pn : ptr) (so sn : benchSuite)
    (pf : list string) (pc : string) (w w' : World Ext)
    (o : Outcome (option error)) (T : list Event) :
  po ≠ pn →
  w_heap w !! po = Some so → testFiles so = ∅ →
  w_heap w !! pn = Some sn → testFiles sn = ∅ →
  buildBenches pf pc [po; pn] w = (o, w', T) →
  let sym := getCurSymbolicRef (w_env w) in
  let clock := time_Now sym.2 in
  let now := clock.1 in
  let first := build po pf pc now (mkWorld clock.2 (w_heap w)) in
  (∀ e, sym.1.2 = Some e →
        o = Ret (Some e) ∧ T = [EvGetCurSymbolicRef] ∧ w_heap w' = w_heap w) ∧
  (sym.1.2 = None →
   (∃ Tb, T = [EvGetCurSymbolicRef; EvNow] ++ Tb ∧ Forall (fun e => e ≠ EvNow) Tb) ∧
   ∃ so' sn', w_heap w' !! po = Some so' ∧ w_heap w' !! pn = Some sn' ∧
     (outcome_of first ≠ Ret None → o = outcome_of first ∧ sn' = sn) ∧
     (o = Ret None →
      outFile so' = Some (filepath_Join (testArtifactsDir (ref so))
                            ("out." +:+ time_Format timeFormat now)) ∧
      outFile sn' = Some (filepath_Join (testArtifactsDir (ref sn))
                            ("out." +:+ time_Format timeFormat now)))).
Proof.
  intros Hne Ho Heo Hn Hen H. cbv zeta.
  assert (Hall : ∀ env (w1 : World Ext) o1 T1,
    build_all pf pc [po; pn] (mkWorld env (w_heap w)) = (o1, w1, T1) →
    (∃ Tb, T1 = [EvNow] ++ Tb ∧ Forall is_build_event Tb) ∧
    ∃ so' sn', w_heap w1 !! po = Some so' ∧ w_heap w1 !! pn = Some sn' ∧
      (outcome_of (build po pf pc (time_Now env).1
                         (mkWorld (time_Now env).2 (w_heap w))) ≠ Ret None →
       o1 = outcome_of (build po pf pc (time_Now env).1
                              (mkWorld (time_Now env).2 (w_heap w))) ∧ sn' = sn) ∧
      (o1 = Ret None →
       outFile so' = Some (filepath_Join (testArtifactsDir (ref so))
                             ("out." +:+ time_Format timeFormat (time_Now env).1)) ∧
       outFile sn' = Some (filepath_Join (testArtifactsDir (ref sn))
                             ("out." +:+ time_Format timeFormat (time_Now env).1)))).
  { intros env w1 o1 T1 Hb. unfold build_all in Hb. rewrite bind_call in Hb.
    apply pre_inv in Hb as (Tb & Hb & ->). cbn [w_env w_heap] in Hb.
    assert (HTb : Forall is_build_event Tb).
    { by apply (build_each_two _ _ so sn) in Hb as (_ & _ & HTb & _). }
    apply (build_each_in_order _ _ so sn) in Hb; [|done..].
    destruct Hb as (so' & sn' & Ho' & Hn' & Hord & Hst).
    split; [by exists Tb|]. by exists so', sn'. }
  assert (Hnow : ∀ Tb, Forall is_build_event Tb → Forall (fun e => e ≠ EvNow) Tb).
  { intros Tb HTb. eapply Forall_impl; [exact HTb|]. intros e He ->. done. }
  unfold buildBenches in H. rewrite bind_call in H.
  apply pre_inv in H as (T1 & H & ->).
  destruct (getCurSymbolicRef (w_env w)) as [[[r ok] [e|]] env1]; cbn [fst snd] in H |- *.
  { injection H as <- <- <-. split; [|done]. by intros e' [= <-]. }
  split; [done|]. intros _.
  destruct ok.
  - unfold defer in H.
    destruct (build_all pf pc [po; pn] _) as [[ob wb] tb] eqn:Hb.
    apply Hall in Hb as ((Tb & -> & HTb) & so' & sn' & Ho' & Hn' & Hord & Hst).
    rewrite bind_call in H. cbn in H. injection H as <- <- <-.
    split.
    + exists (Tb ++ [EvCheckoutRef r ""]). split; [done|].
      apply Forall_app. split; [by apply Hnow|]. by repeat constructor.
    + by exists so', sn'.
  - apply Hall in H as ((Tb & -> & HTb) & so' & sn' & Ho' & Hn' & Hord & Hst).
    split; [exists Tb; split; [done|by apply Hnow]|]. by exists so', sn'.
Qed.


(** ** What build deletes *)

Lemma register_cached_keeps (bs : ptr) (files : list FileInfo) :
  obeys (Ext := Ext) keeps_files (grows_at bs) (register_cached bs files).
Proof.
  induction files as [|[n nd] files IH]; cbn [register_cached fst snd].
  - obeys_step.
  - destruct nd; [|obeys_step].
    obeys_step; [|done].
    apply obeys_modify; try apply _. intros hh ss Hss. by apply grows_at_add.
Qed.

Lemma build_pkgs_keeps (bs : ptr) (i n : Z) (pkgs : list string) :
  obeys keeps_files (grows_at bs) (build_pkgs bs i n pkgs).
Proof.
  revert i. induction pkgs as [|pkg pkgs IH]; intros i; cbn [build_pkgs].
  - obeys_step.
  - repeat obeys_step; try done.
    apply obeys_modify; try apply _. intros hh ss Hss. by apply grows_at_add.
Qed.

(** On a miss the only removal is the deferred one: it comes last, after an
    error, and removes the binary directory of the suite. *)
Lemma build_miss_removal (bs : ptr) (s : benchSuite) (pf : list string)
    (pc : string) (w w' : World Ext) o T :
  w_heap w !! bs = Some s →
  build_miss bs pf pc w = (o, w', T) →
  Forall keeps_files T ∨
  (o ≠ Ret None ∧ ∃ T0, T = T0 ++ [EvRemoveAll (binDir s)] ∧ Forall keeps_files T0).
Proof.
  intros Hs H. unfold build_miss in H.
  rewrite (bind_load _ s) in H by done. rewrite bind_syscall in H.
  apply pre_inv in H as (T1 & H & ->).
  destruct (fs_MkdirAll (binDir s) (env_fs (w_env w))) as [[e|] fs1] eqn:Hmk;
    cbn [fst snd] in H.
  { injection H as <- <- <-. left. by repeat constructor. }
  match type of H with defer _ ?body _ = _ =>
    assert (Hob : obeys keeps_files (grows_at bs) body)
      by (repeat obeys_step; apply build_pkgs_keeps)
  end.
  apply defer_inv in H as (o1 & w1 & t1 & o2 & t2 & Hbody & Hd & -> & ->).
  apply Hob in Hbody as [Hk [_ Hat]]. cbn [w_heap] in Hat.
  destruct (Hat s Hs) as (s1 & Hs1 & _ & _ & _ & Hbd & _).
  destruct o1 as [[e|]|msg].
  - rewrite (bind_load _ s1) in Hd by done. unfold syscall, call in Hd.
    cbn [fst snd] in Hd. injection Hd as <- <- <-. right. split; [done|].
    exists ([EvMkdirAll (binDir s)] ++ t1). rewrite Hbd, <- app_assoc.
    split; [done|]. apply Forall_app. split; [by repeat constructor|done].
  - cbn [ret] in Hd. injection Hd as <- <- <-. left. rewrite app_nil_r.
    apply Forall_app. split; [by repeat constructor|done].
  - cbn [ret] in Hd. injection Hd as <- <- <-. left. rewrite app_nil_r.
    apply Forall_app. split; [by repeat constructor|done].
Qed.

(** X13. build deletes only what it has made and only when it fails: a build
    that returns nil removes nothing, and so does a build that finds the
    binary directory in place.  When build does remove something, it is
    the binary directory of the suite, which did not exist when build
    began, and the removal is the last event and the only one. *)
Theorem build_removes_only_on_failure
    (bs : ptr) (s : benchSuite) (pf : list string) (pc : string) (t : Z)
    (w w' : World Ext) (o : Outcome (option error)) (T : list Event) :
  w_heap w !! bs = Some s → testFiles s = ∅ →
  build bs pf pc t w = (o, w', T) →
  (o = Ret None → Forall keeps_files T) ∧
  (is_Some (env_fs (w_env w) !! testBinDir (ref s) pf) → Forall keeps_files T) ∧
  (∀ p, EvRemoveAll p ∈ T →
        p = testBinDir (ref s) pf ∧ o ≠ Ret None ∧
        ∃ T0, T = T0 ++ [EvRemoveAll p] ∧ Forall keeps_files T0).
Proof.
  intros Hs He H.
  assert (Hmain : Forall keeps_files T ∨
            (env_fs (w_env w) !! testBinDir (ref s) pf = None ∧ o ≠ Ret None ∧
             ∃ T0, T = T0 ++ [EvRemoveAll (testBinDir (ref s) pf)]
                   ∧ Forall keeps_files T0)).
  { apply (build_prologue _ s) in H; [|done..]. cbv zeta in H.
    destruct H as [(e & -> & HT & _)|(w3 & T3 & Hh & _ & Hfr & -> & H)].
    { left. destruct HT as [->| ->]; by repeat constructor. }
    destruct (env_fs (w_env w) !! testBinDir (ref s) pf) as [nd|] eqn:Hbd.
    - left. destruct H as (T4 & -> & H).
      apply Forall_app. split; [by repeat constructor|].
      apply Forall_app. split; [by repeat constructor|].
      destruct (fs_ReadDir _ _) as [files [e|]].
      + by destruct H as (_ & _ & ->).
      + by apply register_cached_keeps in H as [? _].
    - destruct H as (e0 & _ & H). destruct (os_IsNotExist e0).
      2: { destruct H as (-> & -> & ->). left. by repeat constructor. }
      eapply build_miss_removal in H; [|by rewrite Hh; apply lookup_insert_eq].
      cbn [binDir] in H. destruct H as [Hk|(Hne & T0 & -> & Hk)].
      + left. apply Forall_app. split; [by repeat constructor|done].
      + right. split_and!; try done.
        exists ([EvMkdirAll (testArtifactsDir (ref s));
                 EvOpenFile (filepath_Join (testArtifactsDir (ref s))
                               ("out." +:+ time_Format timeFormat t));
                 EvStat (testBinDir (ref s) pf)] ++ T0).
        rewrite <- app_assoc. split; [done|].
        apply Forall_app. split; [by repeat constructor|done]. }
  assert (Hno : ∀ p (T0 : list Event), Forall keeps_files T0 → EvRemoveAll p ∉ T0).
  { intros p T0 HT0 Hin. rewrite Forall_forall in HT0. by apply (HT0 _ Hin). }
  split_and!.
  - intros ->. destruct Hmain as [?|(_ & Hne & _)]; done.
  - intros [nd Hnd]. destruct Hmain as [?|(Hn & _)]; [done|congruence].
  - intros p Hin. destruct Hmain as [Hk|(_ & Hne & T0 & -> & Hk)].
    { by apply Hno in Hin. }
    apply elem_of_app in Hin as [Hin|Hin]; [by apply Hno in Hin|].
    apply list_elem_of_singleton in Hin as [= ->]. split_and!; try done.
    by exists T0.
Qed.

(** ** The binary directory is the cache key *)




Lemma at_cache_build_phase (dirs : list path) (T : list Event) :
  Forall (at_cache dirs) T →
  Forall (at_cache dirs) ([EvGetCurSymbolicRef; EvNow] ++ T).
Proof. intros HT. apply Forall_app. split; [by repeat constructor|done]. Qed.






End More.

(** * Concrete instances *)

(** The collaborators of the small environment do for every directory
    what a rebuild needs of them. *)
Lemma toy_cache_contract (dst : path) :
  cache_contract (Ext := Toy) dst.
Proof.
  split_and!.
  - intros r pc env q Hq. reflexivity.
  - intros pf env q Hq. reflexivity.
  - intros pkg env tb ok env' Hb. cbn in Hb. unfold toy_buildTestBin in Hb.
    destruct (bool_decide (pkg ∈ toy_broken (env_ext env))); [discriminate|].
    destruct (bool_decide (pkg ∈ toy_nobench (env_ext env)));
      injection Hb as <- <- <-.
    + split_and!; [done|by intros [=]|done].
    + cbn [env_fs]. unfold filepath_Join. split_and!.
      * rewrite lookup_insert_ne; [done|].
        intros E. apply (f_equal length) in E. rewrite length_app in E.
        simpl in E. lia.
      * intros _. apply lookup_insert_eq.
      * intros n [Hne|[=]]. rewrite lookup_insert_ne; [done|].
        intros E%app_inv_head. congruence.
Qed.

Lemma intersect_sorted_deterministic_witness :
  range_of set_ab ["b"; "a"] ∧ range_of set_ab ["a"; "b"] ∧
  intersect_range ["b"; "a"] set_bc = {["b"]} ∧
  sorted_range ["b"; "a"] = ["a"; "b"] ∧
  sorted_range ["b"; "a"] = sorted_range ["a"; "b"].
Proof.
  assert (H1 : range_of set_ab ["b"; "a"]).
  { unfold range_of. vm_compute. apply perm_swap. }
  assert (H2 : range_of set_ab ["a"; "b"]).
  { unfold range_of. vm_compute. reflexivity. }
  pose proof (intersect_sorted_deterministic set_ab set_bc _ _ H1 H2)
    as (Hin & _ & _ & _ & _ & Heq).
  split_and!; try assumption.
  apply set_eq. intros f. rewrite Hin. unfold set_ab, set_bc. set_solver.
Defined.


Lemma runbenchcmpes_interleaved_witness :
  bench_runs (events_of (runbenchcmpes 0%nat 1%nat ["x"] 2 (toy_run_world toy_ext)))
  = [run_of toy_old "x"; run_of toy_new "x"; run_of toy_old "x"; run_of toy_new "x"].
Proof.
  destruct (runbenchcmpes 0%nat 1%nat ["x"] 2 (toy_run_world toy_ext))
    as [[o w'] T] eqn:Hrun.
  assert (Ho : o = Ret None).
  { apply (f_equal outcome_of) in Hrun. vm_compute in Hrun. congruence. }
  destruct (runbenchcmpes_interleaved 0%nat 1%nat toy_old toy_new ["x"] 2
              (toy_run_world toy_ext) w' o T)
    as ((r & Hr & _ & Hall & _) & _ & Hex); [reflexivity|reflexivity|exact Hrun|].
  unfold events_of. cbn [snd]. rewrite Hall by congruence. apply Hex.
Defined.

Lemma runSingleBench_exit_status_witness :
  outcome_of (runSingleBench 0%nat "x" (toy_run_world (toy_ext_exit 1))) = Ret None ∧
  events_of (runSingleBench 0%nat "x" (toy_run_world (toy_ext_exit 1)))
  = [EvCombinedOutput "benchcmp/old1234/bin/./pkg/x" ["--help"];
     EvSpawnWith (outFile toy_old)
       ["benchcmp/old1234/bin/./pkg/x"; "-test.run"; "-"; "-test.bench"; ".";
        "-test.benchmem"];
     EvStdout ("  saw one or more benchmark failures" +:+ nl)] ∧
  outcome_of (runSingleBench 0%nat "x" (toy_run_world (toy_ext_exit 2)))
  = Ret (Some (Wrapf (ExitError 2 "") "error running %v: %s"
                 ["[benchcmp/old1234/bin/./pkg/x -test.run - -test.bench . -test.benchmem]";
                  ""])) ∧
  let r := runbenchcmpes 0%nat 1%nat ["x"] 2 (toy_run_world (toy_ext_exit 2)) in
  bench_runs (events_of r) = [run_of toy_old "x"] ∧
  ∃ e, outcome_of r = Ret (Some e).
Proof.
  assert (Hs : ∀ c, w_heap (toy_run_world (toy_ext_exit c)) !! 0%nat = Some toy_old)
    by reflexivity.
  destruct (runSingleBench_exit_status 0%nat toy_old "x"
              (toy_run_world (toy_ext_exit 1)) (Hs 1)) as (H1 & _).
  destruct (runSingleBench_exit_status 0%nat toy_old "x"
              (toy_run_world (toy_ext_exit 2)) (Hs 2))
    as (_ & H2 & _ & _ & _ & _ & Hstop).
  rewrite (H1 "" eq_refl).
  rewrite (H2 2 "" ltac:(lia) eq_refl).
  split; [reflexivity|]. split; [reflexivity|]. split; [reflexivity|].
  intros r.
  pose proof (Hstop 1%nat toy_new ["x"] 2 (world_of r) (outcome_of r) (events_of r)
                eq_refl (run_eta r)) as H.
  unfold stops_at_first_fatal in H.
  change (pairs_of toy_old toy_new ["x"] (Z.to_nat 2))
    with [(toy_old, "x"); (toy_new, "x"); (toy_old, "x"); (toy_new, "x")] in H.
  cbn [comparison] in H.
  assert (Hf : fatal (spawn_of toy_old "x"
                        (w_env (toy_run_world (toy_ext_exit 2)))).1 = true)
    by (vm_compute; reflexivity).
  rewrite Hf in H. destruct H as (Hr & _ & e & Ho).
  split; [exact Hr|]. by exists e.
Defined.


Lemma build_only_once_witness :
  build 0%nat ["./pkg"] "" 0 (toy_run_world toy_ext)
  = (Panic "benchSuite already built", toy_run_world toy_ext, []).
Proof.
  destruct (build_only_once 0%nat toy_old ["./pkg"] "" 0 (toy_run_world toy_ext))
    as (H & _); [reflexivity|].
  apply H. unfold toy_old, toy_suite. cbn [testFiles].
  apply (non_empty_singleton_L (C := fileSet)).
Defined.


Lemma parseGitRefs_resolves_witness :
  parseGitRefs "" "" (toy_world ∅ toy_ext ∅)
  = (Ret ("abc1234~", "abc1234", None), toy_world ∅ toy_ext ∅,
     [EvGetCurRef; EvShortenRef "abc1234"; EvCheckValidRef "abc1234";
      EvGetPrevRef "abc1234"; EvShortenRef "abc1234~"; EvCheckValidRef "abc1234~"]) ∧
  parseGitRefs "" "nope" (toy_world ∅ toy_ext ∅)
  = (Ret ("", "", Some (Errorf "invalid git ref %q" ["nope"])), toy_world ∅ toy_ext ∅,
     [EvShortenRef "nope"; EvCheckValidRef "nope"]).
Proof.
  pose (w := toy_world ∅ toy_ext ∅).
  destruct (parseGitRefs_resolves "" "" w) as (H1 & _).
  destruct (parseGitRefs_resolves "" "nope" w) as (H2 & _).
  split.
  - destruct (H1 "abc1234" "abc1234" (w_env w) (w_env w) (w_env w) true)
      as (_ & Hok); [reflexivity..|].
    apply (Hok eq_refl "abc1234~" "abc1234~" (w_env w) (w_env w) (w_env w) true);
      reflexivity.
  - destruct (H2 "nope" "nope" (w_env w) (w_env w) (w_env w) false)
      as (Hbad & _); [by split|reflexivity..|].
    by apply Hbad.
Defined.

Lemma build_failure_rolls_back_witness :
  let r := build 0%nat ["./pkg/a"; "./pkg/b"] "" 0
                 (toy_fresh_world ∅ toy_ext_broken) in
  outcome_of r = Ret (Some (ExtError "go test -c failed")) ∧
  env_fs (w_env (world_of r)) !! toy_cache_dir = None ∧
  ∃ T0, events_of r = T0 ++ [EvRemoveAll toy_cache_dir].
Proof.
  intros r.
  pose (art := ["benchcmp"; "abc1234"; "artifacts"]).
  pose (fs1 := (fs_MkdirAll art ∅).2).
  pose (fs2 := (fs_OpenFile (art ++ ["out.T"]) fs1).2).
  pose (fs3 := (fs_MkdirAll toy_cache_dir fs2).2).
  destruct (build_failure_rolls_back 0%nat (makeBenchSuite "abc1234")
              ["./pkg/a"; "./pkg/b"] "" 0 (toy_fresh_world ∅ toy_ext_broken)
              (world_of r) (outcome_of r) (events_of r))
    as (_ & Hfwd & _); [reflexivity..|apply run_eta|].
  assert (H1 : fs_MkdirAll art ∅ = (None, fs1)).
  { unfold fs1. rewrite (surjective_pairing (fs_MkdirAll art ∅)) at 1.
    f_equal; try (vm_compute; reflexivity). }
  assert (H2 : fs_OpenFile (art ++ ["out.T"]) fs1
               = (Some (art ++ ["out.T"]), None, fs2)).
  { unfold fs2. rewrite (surjective_pairing (fs_OpenFile (art ++ ["out.T"]) fs1)) at 1.
    f_equal; try (vm_compute; reflexivity). }
  assert (H3 : fs_Stat toy_cache_dir fs2 = Some (PathError "stat" toy_cache_dir true))
    by (vm_compute; reflexivity).
  assert (H5 : fs_MkdirAll toy_cache_dir fs2 = (None, fs3)).
  { unfold fs3. rewrite (surjective_pairing (fs_MkdirAll toy_cache_dir fs2)) at 1.
    f_equal; try (vm_compute; reflexivity). }
  pose proof (Hfwd fs1 fs2 fs3 _ _ H1 H2 H3 eq_refl H5) as H. cbv zeta in H.
  destruct H as (_ & Ho & _ & Hfail & _).
  assert (Hres : (rebuild_steps "abc1234" "" ["./pkg/a"; "./pkg/b"] toy_cache_dir
                    (mkEnv fs3 toy_ext_broken)).1
                 = Some (ExtError "go test -c failed")) by (vm_compute; reflexivity).
  destruct (Hfail _ Hres) as (_ & Hgone & T0 & HT).
  split; [exact (eq_trans Ho (f_equal Ret Hres))|].
  split; [by apply Hgone|]. by exists T0.
Defined.


Lemma build_cache_hit_witness :
  let r1 := build 0%nat ["./pkg/a"; "./pkg/b"] "" 0 (toy_fresh_world ∅ toy_ext) in
  let w2 := mkWorld (w_env (world_of r1)) (<[0%nat := makeBenchSuite "abc1234"]> ∅) in
  let r2 := build 0%nat ["./pkg/a"; "./pkg/b"] "" 1 w2 in
  outcome_of r1 = Ret None ∧ outcome_of r2 = Ret None ∧
  Forall (fun e => ¬ is_build_step e) (events_of r2) ∧
  ∃ s' s2', w_heap (world_of r1) !! 0%nat = Some s' ∧
            w_heap (world_of r2) !! 0%nat = Some s2' ∧
            testFiles s2' = testFiles s'.
Proof.
  intros r1 w2 r2.
  assert (Ho1 : outcome_of r1 = Ret None) by (vm_compute; reflexivity).
  destruct (build_cache_hit 0%nat (makeBenchSuite "abc1234")
              ["./pkg/a"; "./pkg/b"] "" 0 (toy_fresh_world ∅ toy_ext)
              (world_of r1) (outcome_of r1) (events_of r1))
    as (_ & Htwice); [reflexivity|reflexivity|apply run_eta|].
  destruct (Htwice Ho1) as (_ & Hsecond).
  { right. split; [apply toy_cache_contract|]. intros q _. apply lookup_empty. }
  pose proof (Hsecond 0%nat (makeBenchSuite "abc1234") "" 1 w2
                (world_of r2) (outcome_of r2) (events_of r2)) as H.
  assert (H1 : ∀ q : path,
    testBinDir (ref (makeBenchSuite "abc1234")) ["./pkg/a"; "./pkg/b"] `prefix_of` q →
    env_fs (w_env w2) !! q = env_fs (w_env (world_of r1)) !! q)
    by (intros q _; reflexivity).
  assert (H2 : w_heap w2 !! 0%nat = Some (makeBenchSuite "abc1234")) by reflexivity.
  specialize (H H1 H2 eq_refl eq_refl (run_eta r2)).
  destruct H as (Hsteps & Hres).
  set (art := ["benchcmp"; "abc1234"; "artifacts"]).
  assert (Hm1 : fs_MkdirAll art (env_fs (w_env w2))
                = (None, (fs_MkdirAll art (env_fs (w_env w2))).2)).
  { apply pair_fst_eq; vm_compute; reflexivity. }
  assert (Hm2 : fs_OpenFile (art ++ ["out.T"]) (fs_MkdirAll art (env_fs (w_env w2))).2
                = (Some (art ++ ["out.T"]), None,
                   (fs_OpenFile (art ++ ["out.T"])
                      (fs_MkdirAll art (env_fs (w_env w2))).2).2)).
  { apply pair_fst_eq; vm_compute; reflexivity. }
  destruct (Hres (ex_intro _ _ (ex_intro _ _ (ex_intro _ _ (conj Hm1 Hm2)))))
    as (Ho2 & s' & s2' & Hs' & Hs2' & Heq).
  split; [exact Ho1|]. split; [exact Ho2|]. split; [exact Hsteps|].
  exists s', s2'. split; [exact Hs'|]. split; [exact Hs2'|exact Heq].
Defined.

Lemma build_sets_up_suite_witness :
  let r := build 0%nat ["./pkg/a"; "./pkg/b"] "" 0 (toy_fresh_world ∅ toy_ext) in
  ∃ s', w_heap (world_of r) !! 0%nat = Some s' ∧
        binDir s' = toy_cache_dir ∧
        outFile s' = Some ["benchcmp"; "abc1234"; "artifacts"; "out.T"].
Proof.
  intros r.
  destruct (build_sets_up_suite 0%nat (makeBenchSuite "abc1234")
              ["./pkg/a"; "./pkg/b"] "" 0 (toy_fresh_world ∅ toy_ext)
              (world_of r) (outcome_of r) (events_of r))
    as (_ & _ & Hok); [reflexivity|reflexivity|apply run_eta|].
  destruct Hok as (s' & Hs' & _ & _ & Hout & Hbin); [vm_compute; reflexivity|].
  exists s'. split; [exact Hs'|]. split; [exact Hbin|exact Hout].
Defined.

Lemma build_compiles_expanded_packages_witness :
  let r := build 0%nat ["./pkg/a"; "./pkg/b"] "" 0 (toy_fresh_world ∅ toy_ext) in
  omap compiled (events_of r) = ["./pkg/a"; "./pkg/b"].
Proof.
  intros r.
  destruct (build_compiles_expanded_packages 0%nat (makeBenchSuite "abc1234")
              ["./pkg/a"; "./pkg/b"] "" 0 (toy_fresh_world ∅ toy_ext)
              (world_of r) (outcome_of r) (events_of r))
    as (_ & env & _ & Hok); [reflexivity|reflexivity|apply run_eta|].
  destruct Hok as (_ & Heq); [vm_compute; reflexivity|reflexivity|].
  exact Heq.
Defined.

Lemma runbenchcmp_old_then_new_witness :
  let r := runbenchcmp 0%nat 1%nat "x" (toy_run_world (toy_ext_exit 2)) in
  bench_runs (events_of r) = [run_of toy_old "x"] ∧
  ∃ e, outcome_of r = Ret (Some e).
Proof.
  intros r.
  destruct (runbenchcmp_old_then_new 0%nat 1%nat toy_old toy_new "x"
              (toy_run_world (toy_ext_exit 2)) (world_of r) (outcome_of r)
              (events_of r))
    as (_ & Hfat & _); [reflexivity|reflexivity|apply run_eta|].
  destruct Hfat as (Hr & _ & e & Ho); [vm_compute; reflexivity|].
  split; [exact Hr|]. by exists e.
Defined.

Lemma processBenchOutput_reports_witness :
  let r := processBenchOutput 0%nat 1%nat ["./pkg"] (Some (tt : @Service Toy toy_collaborators)) (toy_run_world toy_ext) in
  outcome_of r = Ret None ∧
  events_of r = [EvSeek (outFile toy_old); EvSeek (outFile toy_new);
                 EvBenchstat (outFile toy_old) (outFile toy_new);
                 EvCreateSheet "benchcmp: ./pkg (old1234 -> new5678)";
                 EvStdout ("generated sheet: url" +:+ nl)].
Proof.
  intros r.
  destruct (processBenchOutput_reports 0%nat 1%nat toy_old toy_new ["./pkg"]
              (Some (tt : @Service Toy toy_collaborators)) (toy_run_world toy_ext) (world_of r) (outcome_of r)
              (events_of r))
    as (_ & _ & Ho & HT); [reflexivity|reflexivity|apply run_eta|].
  split; [exact Ho|exact HT].
Defined.

Lemma run_phases_witness :
  let r := run toy_flags toy_empty_world in
  ∃ Tq Tg Tb Tr Tp Tc,
    events_of r = Tq ++ Tg ++ Tb ++ Tr ++ Tp ++ Tc ∧
    Forall is_ref_query Tq ∧ Forall is_google_event Tg ∧
    Forall is_build_phase_event Tb ∧ Forall is_run_event Tr ∧
    Forall is_report_event Tp ∧ Forall is_close_event Tc ∧
    Tr ≠ [] ∧ Tp ≠ [] ∧ length Tc = 2%nat.
Proof.
  intros r.
  destruct (run_phases toy_flags toy_empty_world (world_of r) (outcome_of r)
              (events_of r))
    as (Tq & Tg & Tb & Tr & Tp & Tc & HT & H1 & H2 & H3 & H4 & H5 & H6 & Hok);
    [reflexivity|discriminate|apply run_eta|].
  exists Tq, Tg, Tb, Tr, Tp, Tc.
  repeat (split; [assumption|]). apply Hok. vm_compute. reflexivity.
Defined.

Lemma run_closes_output_files_witness :
  let r := run toy_flags toy_empty_world in
  ∃ T0 fo fn, events_of r = T0 ++ [EvClose fn; EvClose fo] ∧
              Forall (fun e => ¬ is_close_event e) T0.
Proof.
  intros r.
  destruct (run_closes_output_files toy_flags toy_empty_world (world_of r)
              (outcome_of r) (events_of r))
    as (po & pn & so & sn & wq & Tq & T0 & _ & _ & _ & _ & _ & _ & HT & Hno);
    [apply run_eta| |].
  { apply Exists_exists. exists EvGetCurSymbolicRef. split; [|exact I].
    apply list_elem_of_In. vm_compute. do 6 right. left. reflexivity. }
  exists T0, (outFile so), (outFile sn). split; [exact HT|exact Hno].
Defined.

Lemma run_success_schedule_witness :
  let r := run toy_flags toy_empty_world in
  ∃ po pn so sn wq Tq,
    parseGitRefs "" "" toy_empty_world = (Ret (ref so, ref sn, None), wq, Tq) ∧
    w_heap (world_of r) !! po = Some so ∧ w_heap (world_of r) !! pn = Some sn ∧
    built ["./pkg/a"] (ref so) so ∧ built ["./pkg/a"] (ref sn) sn ∧
    bench_runs (events_of r)
    = schedule so sn (sorted (testFiles so ∩ testFiles sn)) 1.
Proof.
  intros r.
  assert (Ho : outcome_of r = Ret None) by (vm_compute; reflexivity).
  apply (run_success_schedule toy_flags toy_empty_world (world_of r) (events_of r));
    [reflexivity|discriminate|].
  rewrite <- Ho. apply run_eta.
Defined.

Lemma run_without_sheets_witness :
  Forall (fun e => ¬ is_sheet_event e) (events_of (run toy_flags toy_empty_world)).
Proof.
  apply (run_without_sheets toy_flags toy_empty_world
           (world_of (run toy_flags toy_empty_world))
           (outcome_of (run toy_flags toy_empty_world)));
    [reflexivity|apply run_eta].
Defined.

Lemma runbenchcmpes_no_iterations_witness :
  runbenchcmpes 0%nat 1%nat ["x"; "y"] 0 (toy_run_world toy_ext)
  = (Ret None, toy_run_world toy_ext,
     [EvStdout (nl +:+ "running benchmarks:" +:+ nl); EvSpinnerStart "";
      EvStdout nl; EvStdout nl; EvSpinnerStop]).
Proof.
  apply (runbenchcmpes_no_iterations 0%nat 1%nat ["x"; "y"] 0
           (toy_run_world toy_ext)).
  lia.
Defined.

Lemma build_binDir_is_a_file_witness :
  let r := build 0%nat ["./pkg/a"; "./pkg/b"] "" 0
                 (toy_fresh_world toy_file_fs toy_ext) in
  env_fs (w_env (world_of r)) !! toy_cache_dir = Some File ∧
  Forall (fun e => ¬ is_build_step e) (events_of r) ∧
  ∃ e, outcome_of r = Ret (Some e).
Proof.
  intros r.
  destruct (build_binDir_is_a_file 0%nat (makeBenchSuite "abc1234")
              ["./pkg/a"; "./pkg/b"] "" 0 (toy_fresh_world toy_file_fs toy_ext)
              (world_of r) (outcome_of r) (events_of r))
    as (Hfile & Hsteps & e & Ho & _); [reflexivity|reflexivity|reflexivity|apply run_eta|].
  split; [exact Hfile|]. split; [exact Hsteps|]. by exists e.
Defined.

Lemma buildBenches_one_clock_witness :
  let r := buildBenches ["./pkg/a"] "" [0%nat; 1%nat] toy_two_fresh in
  (∃ Tb, events_of r = [EvGetCurSymbolicRef; EvNow] ++ Tb ∧
         Forall (fun e => e ≠ EvNow) Tb) ∧
  ∃ so' sn', w_heap (world_of r) !! 0%nat = Some so' ∧
             w_heap (world_of r) !! 1%nat = Some sn' ∧
             outFile so' = Some ["benchcmp"; "abc1234~"; "artifacts"; "out.T"] ∧
             outFile sn' = Some ["benchcmp"; "abc1234"; "artifacts"; "out.T"].
Proof.
  intros r.
  destruct (buildBenches_one_clock 0%nat 1%nat (makeBenchSuite "abc1234~")
              (makeBenchSuite "abc1234") ["./pkg/a"] "" toy_two_fresh
              (world_of r) (outcome_of r) (events_of r))
    as (_ & H); [discriminate|reflexivity|reflexivity|reflexivity|reflexivity
                |apply run_eta|].
  destruct (H eq_refl) as (HT & so' & sn' & Ho' & Hn' & _ & Hst).
  split; [exact HT|]. exists so', sn'.
  destruct Hst as [H1 H2]; [vm_compute; reflexivity|].
  split; [exact Ho'|]. split; [exact Hn'|]. split; [exact H1|exact H2].
Defined.

Lemma build_removes_only_on_failure_witness :
  let r := build 0%nat ["./pkg/a"; "./pkg/b"] "" 0 (toy_fresh_world ∅ toy_ext) in
  Forall keeps_files (events_of r).
Proof.
  intros r.
  destruct (build_removes_only_on_failure 0%nat (makeBenchSuite "abc1234")
              ["./pkg/a"; "./pkg/b"] "" 0 (toy_fresh_world ∅ toy_ext)
              (world_of r) (outcome_of r) (events_of r))
    as (Hok & _); [reflexivity|reflexivity|apply run_eta|].
  apply Hok. vm_compute. reflexivity.
Defined.
